(** * pyscisci: the PubMed ingestion pipeline

    A shallow embedding of [pyscisci/datasource/PubMed.py] (the [PubMed]
    class: [preprocess], [_save_dataframes] and the loader loops of the
    [parse_*] methods) and of [load_int] from [pyscisci/utils.py], with the
    properties of the pipeline stated and proved over it.

    Python values are modelled by [PyVal], exceptions by [Exn], a call that
    may raise by [Res].  XML documents are [Element] trees with the part of
    lxml's [find]/[findall] the source uses.  Python's text is modelled by
    Rocq strings (sequences of 8-bit characters, i.e. ASCII text). *)

From Stdlib Require Import ZArith Ascii String List Bool Lia.
From stdpp Require Import base option list strings gmap.

Local Open Scope string_scope.
Local Open Scope list_scope.
Local Open Scope Z_scope.

(** ** Python values, exceptions and results *)

(** The dynamic values the pipeline stores in its records: [None], an
    [int], a [str]. *)
Inductive PyVal : Type :=
  | PNone
  | PInt (z : Z)
  | PStr (s : string).

#[global] Instance PyVal_eq_dec : EqDecision PyVal.
Proof. solve_decision. Defined.

(** The exception classes that the modelled code can raise. *)
Inductive Exn : Type :=
  | AttributeError      (* method call on [None] *)
  | TypeError           (* [int(None)], [None > 0] *)
  | ValueError          (* [int("x")], pandas casts *)
  | OverflowError       (* an integer beyond 64 bits in an integer column *)
  | KeyError            (* missing DataFrame column *)
  | NameError           (* unbound global name *)
  | UnboundLocalError   (* local read before assignment *)
  | XMLSyntaxError      (* [etree.parse] on a broken document *)
  | FileNotFoundError.  (* [pd.read_hdf] on a missing file *)

#[global] Instance Exn_eq_dec : EqDecision Exn.
Proof. solve_decision. Defined.

(** The outcome of a Python expression: a value, or a raised exception. *)
Inductive Res (A : Type) : Type :=
  | Ok (a : A)
  | Raise (e : Exn).
Arguments Ok {A} a.
Arguments Raise {A} e.

#[global] Instance Res_ret : MRet Res := fun _ a => Ok a.
#[global] Instance Res_bind : MBind Res := fun _ _ f m =>
  match m with
  | Ok a => f a
  | Raise e => Raise e
  end.

Definition is_ok {A} (r : Res A) : bool :=
  match r with Ok _ => true | Raise _ => false end.

(** A loop [for x in xs: st = body(st, x)] whose body may raise. *)
Fixpoint for_each {S X : Type} (body : S -> X -> Res S) (xs : list X) (st : S)
  : Res S :=
  match xs with
  | [] => Ok st
  | x :: xs' => st' ← body st x; for_each body xs' st'
  end.

(** ** Strings *)

(** The blanks that [int] skips around a literal in ASCII text: tab, line
    feed, vertical tab, form feed, carriage return and space. *)
Definition is_space (c : ascii) : bool :=
  let n := nat_of_ascii c in
  ((9 <=? n) && (n <=? 13) || (n =? 32))%nat.

Definition is_digit (c : ascii) : bool :=
  let n := nat_of_ascii c in ((48 <=? n) && (n <=? 57))%nat.

Definition digit_val (c : ascii) : Z := Z.of_nat (nat_of_ascii c) - 48.

Fixpoint lstrip (l : list ascii) : list ascii :=
  match l with
  | c :: l' => if is_space c then lstrip l' else l
  | [] => []
  end.

(** The literal without the blanks around it. *)
Definition strip (l : list ascii) : list ascii :=
  rev (lstrip (rev (lstrip l))).

(** The digits of a decimal literal after a first digit has been read:
    more digits, with single underscores allowed between two digits. *)
Fixpoint int_digits (acc : Z) (l : list ascii) : option Z :=
  match l with
  | [] => Some acc
  | c :: l' =>
      if is_digit c then int_digits (10 * acc + digit_val c) l'
      else if Ascii.eqb c "_"%char then
        match l' with
        | d :: l'' =>
            if is_digit d then int_digits (10 * acc + digit_val d) l''
            else None
        | [] => None
        end
      else None
  end.

Definition int_unsigned (l : list ascii) : option Z :=
  match l with
  | c :: l' => if is_digit c then int_digits (digit_val c) l' else None
  | [] => None
  end.

(** Python's [int(s)] on a string, base 10: surrounding whitespace is
    stripped, an optional sign is read, then a non-empty digit string.
    [None] stands for the [ValueError] of a rejected literal. *)
Definition int_of_str (s : string) : option Z :=
  match strip (list_ascii_of_string s) with
  | c :: l' =>
      if Ascii.eqb c "-"%char then Z.opp <$> int_unsigned l'
      else if Ascii.eqb c "+"%char then int_unsigned l'
      else int_unsigned (c :: l')
  | [] => None
  end.

(** Python's builtin [int(v)]. *)
Definition py_int (v : PyVal) : Res Z :=
  match v with
  | PInt z => Ok z
  | PStr s => match int_of_str s with Some z => Ok z | None => Raise ValueError end
  | PNone => Raise TypeError
  end.

(** [utils.load_int]:
<<
    try:
        return int(v)
    except ValueError:
        return None
>> *)
Definition load_int (v : PyVal) : Res PyVal :=
  match py_int v with
  | Ok z => Ok (PInt z)
  | Raise ValueError => Ok PNone
  | Raise e => Raise e
  end.

(** [needle in s]. *)
Fixpoint str_contains (needle s : string) : bool :=
  String.prefix needle s ||
  match s with
  | EmptyString => false
  | String _ s' => str_contains needle s'
  end.

(** [s.replace(old, "")] for a non-empty [old]: the occurrences of [old]
    are removed from left to right, without overlap.  [skip] counts the
    characters of an occurrence still to be dropped. *)
Fixpoint str_remove_from (old : string) (skip : nat) (s : string) : string :=
  match s with
  | EmptyString => EmptyString
  | String c s' =>
      match skip with
      | S k => str_remove_from old k s'
      | O =>
          if String.prefix old s
          then str_remove_from old (Nat.pred (String.length old)) s'
          else String c (str_remove_from old 0 s')
      end
  end.

Definition str_remove (old s : string) : string :=
  match old with
  | EmptyString => s
  | _ => str_remove_from old 0 s
  end.

(** ** Python dictionaries

    A [dict] keeps its keys unique and in insertion order; [d[k] = v]
    replaces the value of an existing key in place and appends a new key at
    the end. *)

Section Dict.
Context {K V : Type} `{EqDecision K}.

Definition dict : Type := list (K * V).

Fixpoint dict_set (k : K) (v : V) (d : dict) : dict :=
  match d with
  | [] => [(k, v)]
  | (k', v') :: d' =>
      if decide (k = k') then (k, v) :: d' else (k', v') :: dict_set k v d'
  end.

Fixpoint dict_get (k : K) (d : dict) : option V :=
  match d with
  | [] => None
  | (k', v') :: d' => if decide (k = k') then Some v' else dict_get k d'
  end.

(** The number of entries stored under key [k]. *)
Definition dict_count (k : K) (d : dict) : nat :=
  length (List.filter (fun kv => bool_decide (kv.1 = k)) d).
End Dict.
Arguments dict K V : clear implicits.

(** ** XML documents *)

(** An element of a parsed document: tag, attributes, text and child
    elements in document order. *)
#[warnings="-register-all"] Inductive Element : Type :=
  Elem { tag : string;
         attrib : list (string * string);
         text : string;
         children : list Element }.

(** [attrib.get(k, default)]. *)
Fixpoint attrib_get (k default : string) (l : list (string * string)) : string :=
  match l with
  | [] => default
  | (k', v) :: l' => if String.eqb k k' then v else attrib_get k default l'
  end.

(** One step of an ElementPath: a child tag, optionally restricted by an
    attribute test [tag[@k="v"]]. *)
Record Step : Type := { step_tag : string; step_attr : option (string * string) }.

Definition child (t : string) : Step := {| step_tag := t; step_attr := None |}.
Definition child_with (t k v : string) : Step :=
  {| step_tag := t; step_attr := Some (k, v) |}.

Fixpoint has_attr (k v : string) (l : list (string * string)) : bool :=
  match l with
  | [] => false
  | (k', v') :: l' => if String.eqb k k' then String.eqb v v' else has_attr k v l'
  end.

Definition step_match (s : Step) (e : Element) : bool :=
  String.eqb (tag e) (step_tag s) &&
  match step_attr s with
  | None => true
  | Some (k, v) => has_attr k v (attrib e)
  end.

(** [e.findall(path)]: the elements reached from [e] by the steps of
    [path], in document order. *)
Fixpoint findall (path : list Step) (e : Element) : list Element :=
  match path with
  | [] => [e]
  | s :: path' =>
      flat_map (findall path') (List.filter (step_match s) (children e))
  end.

(** [e.find(path)]: the first match, or [None]. *)
Definition find (path : list Step) (e : Element) : option Element :=
  head (findall path e).

(** [x.find(path)] where [x] may be [None]: a method call on [None] raises
    [AttributeError]. *)
Definition py_find (path : list Step) (x : option Element) : Res (option Element) :=
  match x with
  | Some e => Ok (find path e)
  | None => Raise AttributeError
  end.

(** [enumerate(l)]. *)
Fixpoint enumerate_from {A} (i : Z) (l : list A) : list (Z * A) :=
  match l with
  | [] => []
  | x :: l' => (i, x) :: enumerate_from (i + 1) l'
  end.
Definition enumerate {A} (l : list A) : list (Z * A) := enumerate_from 0 l.

(** [pub_record['Year'] > 0]: ordering [None] (or a string) against an
    [int] raises [TypeError]. *)
Definition py_gt0 (v : PyVal) : Res bool :=
  match v with
  | PInt z => Ok (0 <? z)
  | _ => Raise TypeError
  end.

(** ** Records *)

(** The publication record, [_blank_pubmed_publication] and its fields. *)
Module Pub.
Record t : Type := mk {
    PublicationId : PyVal;
    Title : PyVal;
    Year : PyVal;
    Volume : PyVal;
    Issue : PyVal;
    Pages : PyVal;
    JournalId : PyVal;
    TeamSize : PyVal;
    Month : PyVal;
    Day : PyVal;
    ISSN : PyVal;
    Doi : PyVal }.

(** Column assignments [df[col] = ...] on one row. *)
Definition set_PublicationId (v : PyVal) (r : t) : t :=
  mk v (Title r) (Year r) (Volume r) (Issue r) (Pages r) (JournalId r)
     (TeamSize r) (Month r) (Day r) (ISSN r) (Doi r).
Definition set_Year (v : PyVal) (r : t) : t :=
  mk (PublicationId r) (Title r) v (Volume r) (Issue r) (Pages r) (JournalId r)
     (TeamSize r) (Month r) (Day r) (ISSN r) (Doi r).
Definition set_Month (v : PyVal) (r : t) : t :=
  mk (PublicationId r) (Title r) (Year r) (Volume r) (Issue r) (Pages r)
     (JournalId r) (TeamSize r) v (Day r) (ISSN r) (Doi r).
Definition set_Day (v : PyVal) (r : t) : t :=
  mk (PublicationId r) (Title r) (Year r) (Volume r) (Issue r) (Pages r)
     (JournalId r) (TeamSize r) (Month r) v (ISSN r) (Doi r).
Definition set_Volume (v : PyVal) (r : t) : t :=
  mk (PublicationId r) (Title r) (Year r) v (Issue r) (Pages r) (JournalId r)
     (TeamSize r) (Month r) (Day r) (ISSN r) (Doi r).
Definition set_TeamSize (v : PyVal) (r : t) : t :=
  mk (PublicationId r) (Title r) (Year r) (Volume r) (Issue r) (Pages r)
     (JournalId r) v (Month r) (Day r) (ISSN r) (Doi r).
End Pub.

Definition _blank_pubmed_publication (PublicationId : PyVal) : Pub.t :=
  {| Pub.PublicationId := PublicationId;
     Pub.Title := PStr "";
     Pub.Year := PInt 0;
     Pub.Volume := PInt 0;
     Pub.Issue := PStr "";
     Pub.Pages := PStr "";
     Pub.JournalId := PStr "";
     Pub.TeamSize := PInt 0;
     Pub.Month := PInt 1;
     Pub.Day := PInt 1;
     Pub.ISSN := PStr "";
     Pub.Doi := PStr "" |}.

(** The authorship record, [_blank_pubmed_author] and its fields. *)
Module Author.
Record t : Type := mk {
    PublicationId : PyVal;
    FullName : string;
    FirstName : string;
    LastName : string;
    Affiliations : string;
    AuthorSequence : Z }.
End Author.

Definition _blank_pubmed_author : Author.t :=
  {| Author.PublicationId := PStr "";
     Author.FullName := "";
     Author.FirstName := "";
     Author.LastName := "";
     Author.Affiliations := "";
     Author.AuthorSequence := 0 |}.

Definition disclaimer : string :=
  "For a full list of the authors' affiliations please see the Acknowledgements section.".

(** The local variables of [preprocess] that live across articles: the two
    accumulators, the loop variable [seq] of the author loop (unbound until
    an author has been enumerated), and the four record lists of the shard
    in progress. *)
Record Locals : Type := mkLocals {
  pub2year : dict PyVal PyVal;
  fieldinfo : dict string (string * string);
  seq_var : option Z;
  publication_df : list Pub.t;
  paa_df : list Author.t;
  pub2field_df : list (list PyVal);
  pub2ref_df : list (list PyVal) }.

Definition fresh_locals : Locals :=
  {| pub2year := []; fieldinfo := []; seq_var := None;
     publication_df := []; paa_df := []; pub2field_df := []; pub2ref_df := [] |}.

(** The start of a shard: the four lists are rebound to [[]]. *)
Definition new_shard (st : Locals) : Locals :=
  {| pub2year := pub2year st; fieldinfo := fieldinfo st; seq_var := seq_var st;
     publication_df := []; paa_df := []; pub2field_df := []; pub2ref_df := [] |}.

(** ** The XML record extractor *)

Section Extractor.

(** Python's [html.unescape], a library function: any function on text. *)
Variable html_unescape : string -> string.

(** Modelled from the spec: [load_xml_text] is imported from
    [pyscisci.datasource.readwrite], which is not among the sources.  The
    spec describes it as the tolerant accessor "get nested field or
    default" and fixes that a missing node "yields an empty/default value":
    the text of the node when there is one, the empty string otherwise. *)
Definition load_xml_text (root_element : option Element) : string :=
  match root_element with
  | Some e => text e
  | None => ""
  end.

(** Modelled from the spec: [load_html_str] is imported from
    [pyscisci.datasource.readwrite], which is not among the sources.  The
    spec fixes that text fields are "empty if absent"; a non-empty text is
    passed through the HTML unescaping of the library. *)
Definition load_html_str (s : string) : string :=
  match s with
  | EmptyString => ""
  | _ => html_unescape s
  end.

(** The body of [for seq, author in enumerate(author_list.findall('Author'))]:
    binds [seq] and appends one authorship record. *)
Definition author_step (PublicationId : PyVal) (st : option Z * list Author.t)
    (it : Z * Element) : option Z * list Author.t :=
  let '(seq, author) := it in
  let FirstName := load_html_str (load_xml_text (find [child "ForeName"] author)) in
  let LastName := load_html_str (load_xml_text (find [child "LastName"] author)) in
  let FullName := FirstName +:+ " " +:+ LastName in
  let Affiliations :=
    match find [child "AffiliationInfo"; child "Affiliation"] author with
    | Some aff => str_remove disclaimer (load_html_str (load_xml_text (Some aff)))
    | None => Author.Affiliations _blank_pubmed_author
    end in
  (Some seq,
   st.2 ++ [ {| Author.PublicationId := PublicationId;
                Author.FullName := FullName;
                Author.FirstName := FirstName;
                Author.LastName := LastName;
                Author.Affiliations := Affiliations;
                Author.AuthorSequence := seq + 1 |} ]).

(** The author block: the loop, then [pub_record['TeamSize'] = seq + 1],
    which reads [seq] whether or not the loop has run. *)
Definition scrape_authors (PublicationId : PyVal) (author_list : option Element)
    (seq : option Z) (paa : list Author.t)
  : Res (option Z * list Author.t * PyVal) :=
  match author_list with
  | None => Ok (seq, paa, Pub.TeamSize (_blank_pubmed_publication PublicationId))
  | Some al =>
      let '(seq', paa') :=
        fold_left (author_step PublicationId)
                  (enumerate (findall [child "Author"] al)) (seq, paa) in
      match seq' with
      | Some s => Ok (seq', paa', PInt (s + 1))
      | None => Raise UnboundLocalError
      end
  end.

(** The same field in [parse_publications], which counts the authors:
    [pub_record['TeamSize'] = len(author_list.findall('Author'))] under the
    same guard, 0 from the blank record otherwise. *)
Definition TeamSize_parse_publications (author_list : option Element) : PyVal :=
  match author_list with
  | Some al => PInt (Z.of_nat (length (findall [child "Author"] al)))
  | None => PInt 0
  end.

(** The body of the two vocabulary loops: [name_tag] is [DescriptorName]
    with type ['mesh'], or [NameOfSubstance] with type ['chem']. *)
Definition field_step (PublicationId : PyVal) (name_tag ftype : string)
    (st : list (list PyVal) * dict string (string * string)) (term : Element)
  : Res (list (list PyVal) * dict string (string * string)) :=
  match find [child name_tag] term with
  | None => Raise AttributeError
  | Some dn =>
      let ui := attrib_get "UI" "" (attrib dn) in
      if (0 <? String.length ui)%nat
      then Ok (st.1 ++ [[PublicationId; PStr ui]],
               dict_set ui (load_xml_text (Some dn), ftype) st.2)
      else Ok st
  end.

(** The body of [for ref in references.findall("Reference")]. *)
Definition ref_step (PublicationId : PyVal) (p2r : list (list PyVal)) (ref : Element)
  : Res (list (list PyVal)) :=
  let citation := load_xml_text (find [child "Citation"] ref) in
  pmid ← match find [child "ArticleIdList"] ref with
         | Some ids =>
             load_int (PStr (load_xml_text
                               (find [child_with "ArticleId" "IdType" "pubmed"] ids)))
         | None => Ok (PStr "")
         end;
  Ok (p2r ++ [[PublicationId; pmid; PStr citation]]).

(** The two vocabulary blocks: descriptor terms, then chemicals. *)
Definition scrape_fields (PublicationId : PyVal) (medline : option Element)
    (st : list (list PyVal) * dict string (string * string))
  : Res (list (list PyVal) * dict string (string * string)) :=
  meshterms ← py_find [child "MeshHeadingList"] medline;
  mesh ← match meshterms with
         | Some terms =>
             for_each (field_step PublicationId "DescriptorName" "mesh")
                      (children terms) st
         | None => Ok st
         end;
  chemicals ← py_find [child "ChemicalList"] medline;
  match chemicals with
  | Some cl =>
      for_each (field_step PublicationId "NameOfSubstance" "chem")
               (findall [child "Chemical"] cl) mesh
  | None => Ok mesh
  end.

(** The reference block. *)
Definition scrape_references (PublicationId : PyVal) (article_bucket : Element)
    (p2r : list (list PyVal)) : Res (list (list PyVal)) :=
  match find [child "PubmedData"; child "ReferenceList"] article_bucket with
  | Some references =>
      for_each (ref_step PublicationId) (findall [child "Reference"] references) p2r
  | None => Ok p2r
  end.

(** The pagination block:
<<
    if article.find('Pagination') == None:
        pub_record['Pages'] = None
    else:
        pub_record['Pages'] = load_html_str(load_xml_text(
            article.find('Pagination').find("MedlinePgn")))
>> *)
Definition scrape_pages (article : option Element) : Res PyVal :=
  pagination ← py_find [child "Pagination"] article;
  match pagination with
  | None => Ok PNone
  | Some _ =>
      pgn ← py_find [child "MedlinePgn"] pagination;
      Ok (PStr (load_html_str (load_xml_text pgn)))
  end.

(** The publication date: the [PubMedPubDate] under [PubmedData/History]
    when both exist, else the blank record's [0/1/1]. *)
Definition scrape_date (article_bucket : Element) : Res (PyVal * PyVal * PyVal) :=
  let blank := _blank_pubmed_publication PNone in
  match find [child "PubmedData"; child "History"] article_bucket with
  | None => Ok (Pub.Year blank, Pub.Month blank, Pub.Day blank)
  | Some history =>
      match find [child "PubMedPubDate"] history with
      | None => Ok (Pub.Year blank, Pub.Month blank, Pub.Day blank)
      | Some pdate =>
          y ← load_int (PStr (load_xml_text (find [child "Year"] pdate)));
          m ← load_int (PStr (load_xml_text (find [child "Month"] pdate)));
          d ← load_int (PStr (load_xml_text (find [child "Day"] pdate)));
          Ok (y, m, d)
      end
  end.

(** The body of [for article_bucket in all_pubmed_articles], statement by
    statement. *)
Definition scrape_article (st : Locals) (article_bucket : Element) : Res Locals :=
  let medline := find [child "MedlineCitation"] article_bucket in
  pmid ← py_find [child "PMID"] medline;
  PublicationId ← load_int (PStr (load_xml_text pmid));
  article ← py_find [child "Article"] medline;
  title ← py_find [child "ArticleTitle"] article;
  let Title := PStr (load_html_str (load_xml_text title)) in
  Pages ← scrape_pages article;
  journal ← py_find [child "Journal"] article;
  jtitle ← py_find [child "Title"] journal;
  let JournalId := PStr (load_html_str (load_xml_text jtitle)) in
  issue_v ← py_find [child "JournalIssue"] journal;
  vol ← py_find [child "Volume"] issue_v;
  Volume ← load_int (PStr (load_xml_text vol));
  issue_i ← py_find [child "JournalIssue"] journal;
  iss ← py_find [child "Issue"] issue_i;
  Issue ← load_int (PStr (load_xml_text iss));
  issn ← py_find [child "ISSN"] journal;
  let ISSN := PStr (load_html_str (load_xml_text issn)) in
  '(Year, Month, Day) ← scrape_date article_bucket;
  positive ← py_gt0 Year;
  let pub2year' :=
    if positive : bool then dict_set PublicationId Year (pub2year st)
    else pub2year st in
  let Doi :=
    match find [child "PubmedData"; child "ArticleIdList"] article_bucket with
    | Some article_ids =>
        PStr (load_xml_text (find [child_with "ArticleId" "IdType" "doi"] article_ids))
    | None => Pub.Doi (_blank_pubmed_publication PublicationId)
    end in
  author_list ← py_find [child "AuthorList"] article;
  '(seq', paa', TeamSize) ←
    scrape_authors PublicationId author_list (seq_var st) (paa_df st);
  fields ← scrape_fields PublicationId medline (pub2field_df st, fieldinfo st);
  p2r ← scrape_references PublicationId article_bucket (pub2ref_df st);
  let pub_record :=
    {| Pub.PublicationId := PublicationId;
       Pub.Title := Title;
       Pub.Year := Year;
       Pub.Volume := Volume;
       Pub.Issue := Issue;
       Pub.Pages := Pages;
       Pub.JournalId := JournalId;
       Pub.TeamSize := TeamSize;
       Pub.Month := Month;
       Pub.Day := Day;
       Pub.ISSN := ISSN;
       Pub.Doi := Doi |} in
  Ok {| pub2year := pub2year';
        fieldinfo := fields.2;
        seq_var := seq';
        publication_df := publication_df st ++ [pub_record];
        paa_df := paa';
        pub2field_df := fields.1;
        pub2ref_df := p2r |}.

(** [xmltree.findall("/PubmedArticle")]: the article entries of a shard. *)
Definition all_pubmed_articles (xmltree : Element) : list Element :=
  findall [child "PubmedArticle"] xmltree.

(** The extraction of one shard: fresh record lists, then the article loop. *)
Definition scrape_shard (st : Locals) (xmltree : Element) : Res Locals :=
  for_each scrape_article (all_pubmed_articles xmltree) (new_shard st).

End Extractor.

(** ** pandas: the operations of the columnar store writer *)

(** [mapM] for [Res]: the first failure, in list order, is the one raised. *)
Fixpoint res_map {A B} (f : A -> Res B) (l : list A) : Res (list B) :=
  match l with
  | [] => Ok []
  | x :: l' => y ← f x; ys ← res_map f l'; Ok (y :: ys)
  end.

(** The integer columns of a frame are 64-bit: a value from 2^63 up to
    2^64 - 1 is stored reduced by 2^64 (2^63 becomes -2^63), a value from
    2^64 on, or below -2^63, is refused with [OverflowError]. *)
Definition int64_wrap (z : Z) : Z := if z <? 2 ^ 63 then z else z - 2 ^ 64.

Definition int64_cast (z : Z) : Res Z :=
  if (z <? - 2 ^ 63) || (2 ^ 64 <=? z) then Raise OverflowError
  else Ok (int64_wrap z).

(** The cast of one value of a column by [astype(int)]: through [int],
    then to 64 bits. *)
Definition astype_int64 (v : PyVal) : Res Z :=
  z ← py_int v; int64_cast z.

(** [df[col] = df[col].astype(int)] on a frame of publication records:
    every value of the column goes through [int] and is stored in 64
    bits; a null, an unparseable value or an integer beyond 64 bits makes
    the cast raise.  (pandas reports a null as [TypeError] or [ValueError]
    according to the dtype it inferred for the column; the model follows
    the object-dtype path, [int(v)].) *)
Definition astype_int {R} (get : R -> PyVal) (set : PyVal -> R -> R) (df : list R)
  : Res (list R) :=
  res_map (fun r => z ← astype_int64 (get r); Ok (set (PInt z) r)) df.

(** [pd.to_numeric(v)] with the default [errors='raise']: a number stays
    and a null stays null (NaN).  The column the writer passes holds
    results of [load_int], integers and nulls (see
    [scrape_article_Volume]); of text, which no caller passes, only the
    plain integer literals are followed, any other text is treated as not
    numeric (decimal text, which [to_numeric] accepts, is outside the
    model). *)
Definition to_numeric_val (v : PyVal) : Res PyVal :=
  match v with
  | PInt z => Ok (PInt z)
  | PNone => Ok PNone
  | PStr s =>
      if str_contains "_" s then Raise ValueError
      else match int_of_str s with Some z => Ok (PInt z) | None => Raise ValueError end
  end.

Definition to_numeric {R} (get : R -> PyVal) (set : PyVal -> R -> R) (df : list R)
  : Res (list R) :=
  res_map (fun r => v ← to_numeric_val (get r); Ok (set v r)) df.

(** A frame built from a list of row lists: named columns, positional rows. *)
Record Frame : Type := { columns : list string; rows : list (list PyVal) }.

Definition column (j : nat) (rs : list (list PyVal)) : list PyVal :=
  (fun r => default PNone (r !! j)) <$> rs.

Definition set_column (j : nat) (vs : list PyVal) (rs : list (list PyVal))
  : list (list PyVal) :=
  zip_with (fun r v => <[j := v]> r) rs vs.

(** The integers of a column, when every cell of it is an integer. *)
Definition cell_int (v : PyVal) : option Z :=
  match v with PInt z => Some z | _ => None end.

(** The [dtype=int] of the frame constructor, column by column (pandas 1.x,
    the version line of [DataFrame.append]): a column of integers is
    stored in 64 bits; a column that holds text or a null cannot be cast
    without loss and is kept as it is, numerals in text included.  An [int]
    and the float of the same value are not told apart. *)
Definition coerce_column (rs : list (list PyVal)) (j : nat) : Res (list (list PyVal)) :=
  match mapM cell_int (column j rs) with
  | Some zs => zs' ← res_map int64_cast zs; Ok (set_column j (PInt <$> zs') rs)
  | None => Ok rs
  end.

(** [pd.DataFrame(data, columns=cols, dtype=int)]; a row whose length is
    not the number of columns is refused. *)
Definition DataFrame (data : list (list PyVal)) (cols : list string) : Res Frame :=
  if forallb (fun r => Nat.eqb (length r) (length cols)) data
  then rs ← for_each coerce_column (seq 0 (length cols)) data;
       Ok {| columns := cols; rows := rs |}
  else Raise ValueError.

Fixpoint index_of (c : string) (cols : list string) : option nat :=
  match cols with
  | [] => None
  | c' :: cols' => if String.eqb c c' then Some 0%nat else S <$> index_of c cols'
  end.

(** [row[col]]: the value a row of the frame holds in the named column. *)
Definition cell (f : Frame) (row : list PyVal) (col : string) : option PyVal :=
  j ← index_of col (columns f); row !! j.

(** ** The output store *)

(** The files under [path2database] that the pipeline writes: for each
    record kind the partition files by shard index ([publication{i}.hdf],
    ...), the vocabulary store and the year index.  A file is identified
    with its content.  The directories are not modelled. *)
Record FS : Type := mkFS {
  publication_hdf : gmap nat (list Pub.t);
  publicationauthoraffiliation_hdf : gmap nat (list Author.t);
  pub2field_hdf : gmap nat Frame;
  pub2ref_hdf : gmap nat Frame;
  fieldinfo_hdf : option Frame;
  pub2year_json_gz : option (dict PyVal PyVal) }.

Definition empty_fs : FS := mkFS ∅ ∅ ∅ ∅ None None.

(** The casts on the publication frame, in source order.  Indexing a
    column of the frame built from an empty record list raises [KeyError]. *)
Definition cast_publication_df (publication_df : list Pub.t) : Res (list Pub.t) :=
  match publication_df with
  | [] => Raise KeyError
  | _ =>
      df ← astype_int Pub.PublicationId Pub.set_PublicationId publication_df;
      df ← astype_int Pub.Year Pub.set_Year df;
      df ← astype_int Pub.Month Pub.set_Month df;
      df ← astype_int Pub.Day Pub.set_Day df;
      df ← to_numeric Pub.Volume Pub.set_Volume df;
      astype_int Pub.TeamSize Pub.set_TeamSize df
  end.

(** [_save_dataframes]: the four frames are built and written one after
    the other; what was written before an exception stays on disk.
    [AuthorSequence] holds integers, so its cast leaves the authorship
    records as they are; indexing that column raises [KeyError] when the
    frame was built from an empty list. *)
Definition _save_dataframes (ifile : nat) (publication_df : list Pub.t)
    (paa_df : list Author.t) (pub2ref_df pub2field_df : list (list PyVal))
    (fs : FS) : Res unit * FS :=
  match cast_publication_df publication_df with
  | Raise e => (Raise e, fs)
  | Ok pub =>
      let fs1 := mkFS (<[ifile := pub]> (publication_hdf fs))
                      (publicationauthoraffiliation_hdf fs) (pub2field_hdf fs)
                      (pub2ref_hdf fs) (fieldinfo_hdf fs) (pub2year_json_gz fs) in
      match paa_df with
      | [] => (Raise KeyError, fs1)
      | _ =>
          let fs2 := mkFS (publication_hdf fs1)
                          (<[ifile := paa_df]> (publicationauthoraffiliation_hdf fs1))
                          (pub2field_hdf fs1) (pub2ref_hdf fs1)
                          (fieldinfo_hdf fs1) (pub2year_json_gz fs1) in
          match DataFrame pub2field_df ["PublicationId"; "FieldId"] with
          | Raise e => (Raise e, fs2)
          | Ok p2f =>
              let fs3 := mkFS (publication_hdf fs2)
                              (publicationauthoraffiliation_hdf fs2)
                              (<[ifile := p2f]> (pub2field_hdf fs2)) (pub2ref_hdf fs2)
                              (fieldinfo_hdf fs2) (pub2year_json_gz fs2) in
              match DataFrame pub2ref_df
                      ["CitedPublicationId"; "CitingPublicationId"; "Citation"] with
              | Raise e => (Raise e, fs3)
              | Ok p2r =>
                  (Ok tt,
                   mkFS (publication_hdf fs3) (publicationauthoraffiliation_hdf fs3)
                        (pub2field_hdf fs3) (<[ifile := p2r]> (pub2ref_hdf fs3))
                        (fieldinfo_hdf fs3) (pub2year_json_gz fs3))
              end
          end
      end
  end.

(** ** The shard loop of [preprocess] *)

Section Preprocess.

Variable html_unescape : string -> string.

(** [os.path.isfile] on [publication{ifile}.hdf]. *)
Definition isfile_publication (ifile : nat) (fs : FS) : bool :=
  bool_decide (is_Some (publication_hdf fs !! ifile)).

(** [for xml_file_name in xmlfiles] with its counter [ifile].  A shard is
    given by what [etree.parse] makes of its file: a document, or [None]
    for a file that does not parse. *)
Fixpoint process_shards (rewrite_existing : bool) (ifile : nat)
    (xmlfiles : list (option Element)) (st : Locals) (fs : FS) : Res Locals * FS :=
  match xmlfiles with
  | [] => (Ok st, fs)
  | xml_file :: rest =>
      if negb rewrite_existing && isfile_publication ifile fs
      then process_shards rewrite_existing (S ifile) rest st fs
      else
        match xml_file with
        | None => (Raise XMLSyntaxError, fs)
        | Some xmltree =>
            match scrape_shard html_unescape st xmltree with
            | Raise e => (Raise e, fs)
            | Ok st' =>
                match _save_dataframes ifile (publication_df st') (paa_df st')
                        (pub2ref_df st') (pub2field_df st') fs with
                | (Raise e, fs') => (Raise e, fs')
                | (Ok _, fs') => process_shards rewrite_existing (S ifile) rest st' fs'
                end
            end
        end
  end.

(** [sorted(...)] on the directory entries, by file name. *)
Fixpoint insert_by_name {A} (x : string * A) (l : list (string * A)) : list (string * A) :=
  match l with
  | [] => [x]
  | y :: l' => if String.leb x.1 y.1 then x :: l else y :: insert_by_name x l'
  end.

Definition sorted_by_name {A} (l : list (string * A)) : list (string * A) :=
  fold_right insert_by_name [] l.

(** [xmlfiles]: the entries of the input directory whose name contains
    ['.xml'], sorted by name; the position in this list is the shard index. *)
Definition xmlfiles_of (xml_directory : list (string * option Element))
  : list (option Element) :=
  snd <$> sorted_by_name (List.filter (fun e => str_contains ".xml" e.1) xml_directory).

(** The rows of the vocabulary frame: each value list with its key
    inserted in front. *)
Definition fieldinfo_rows (fieldinfo : dict string (string * string)) : list (list PyVal) :=
  (fun kv => [PStr kv.1; PStr kv.2.1; PStr kv.2.2]) <$> fieldinfo.

(** What follows the loop: the vocabulary store is written on a rewrite,
    the year index always. *)
Definition save_globals (rewrite_existing : bool) (st : Locals) (fs : FS) : Res unit * FS :=
  let write_year f :=
    mkFS (publication_hdf f) (publicationauthoraffiliation_hdf f) (pub2field_hdf f)
         (pub2ref_hdf f) (fieldinfo_hdf f) (Some (pub2year st)) in
  if rewrite_existing then
    match DataFrame (fieldinfo_rows (fieldinfo st)) ["FieldId"; "FieldName"; "FieldType"] with
    | Raise e => (Raise e, fs)
    | Ok fi =>
        (Ok tt,
         write_year (mkFS (publication_hdf fs) (publicationauthoraffiliation_hdf fs)
                          (pub2field_hdf fs) (pub2ref_hdf fs) (Some fi)
                          (pub2year_json_gz fs)))
    end
  else (Ok tt, write_year fs).

(** [PubMed.preprocess]: the input directory is the list of its entries
    (file name, parse result); the result is the outcome and the store as
    the call leaves it.  The creation of the output directories at the
    start and the progress display are not modelled. *)
Definition preprocess (xml_directory : list (string * option Element))
    (rewrite_existing : bool) (fs : FS) : Res unit * FS :=
  match process_shards rewrite_existing 0 (xmlfiles_of xml_directory) fresh_locals fs with
  | (Raise e, fs') => (Raise e, fs')
  | (Ok st, fs') => save_globals rewrite_existing st fs'
  end.

End Preprocess.

(** ** The corpus loader *)

(** [pd.read_hdf] on the partition with index [i] of one record kind. *)
Definition read_hdf {T} (parts : gmap nat T) (i : nat) : Res T :=
  match parts !! i with
  | Some df => Ok df
  | None => Raise FileNotFoundError
  end.

(** The names bound at module level in [PubMed.py]: its imports and its
    class. *)
Definition module_globals : list string :=
  [ "os"; "sys"; "json"; "gzip"; "glob"; "pd"; "np"; "HumanName"; "requests";
    "ftplib"; "etree"; "BytesIO"; "tqdm"; "load_preprocessed_data"; "load_int";
    "load_float"; "load_html_str"; "load_xml_text"; "BibDataBase"; "PubMed" ].

(** Reading a name that a method neither takes as a parameter nor assigns
    anywhere in its body: the name is looked up among the module globals
    (none of the names read this way is a builtin). *)
Definition load_global (name : string) : Res unit :=
  if bool_decide (name ∈ module_globals) then Ok tt else Raise NameError.

(** The loader loop of [parse_publicationauthoraffiliation]:
<<
    paa_df = pd.DataFrame()
    for tmp_paa_df in tqdm(paa_files_list, ..., disable=not show_progress):
        paa_df = paa_df.append(pd.read_hdf(tmp_paa_df), ignore_index = True)
>>
    [paa_files_list] is what [glob.glob] returned: the matched partition
    files, here by shard index, in the order of the directory listing.
    The loop header reads [show_progress], which is not among the
    parameters of this method ([self], [xml_directory], [preprocess],
    [num_file_lines], [rewrite_existing]) and is not assigned in it. *)
Definition load_paa (fs : FS) (paa_files_list : list nat) : Res (list Author.t) :=
  _ ← load_global "show_progress";
  for_each (fun paa_df tmp_paa_df =>
              tmp ← read_hdf (publicationauthoraffiliation_hdf fs) tmp_paa_df;
              Ok (paa_df ++ tmp))
           paa_files_list [].

(** The loader loop of [parse_references]: the second argument of
    [append] is the unbound name [ignore_indexTrue], looked up after the
    partition has been read. *)
Definition load_pub2ref (fs : FS) (pub2ref_files : list nat) : Res (list (list PyVal)) :=
  for_each (fun (pub2ref_df : list (list PyVal)) pub2ref_tmp =>
              tmp ← read_hdf (pub2ref_hdf fs) pub2ref_tmp;
              Raise NameError)
           pub2ref_files [].

(** ** File names

    The partition files by name, for the loaders' [glob] patterns.  The
    directory names [path2paa_df], ... are attributes of the base class
    [BibDataBase], which is not among the sources: they are parameters. *)

(** [os.path.join(a, b)]. *)
Definition os_path_join (a b : string) : string :=
  if String.prefix "/" b then b
  else if String.eqb a "" then b
  else if String.eqb (String.substring (String.length a - 1) 1 a) "/" then a +:+ b
  else a +:+ "/" +:+ b.

(** [fnmatch] for patterns whose only wildcard is [*]. *)
Fixpoint fnmatch_chars (pat name : list ascii) : bool :=
  match pat with
  | [] => match name with [] => true | _ => false end
  | c :: pat' =>
      if Ascii.eqb c "*"%char then
        (fix skip (rest : list ascii) : bool :=
           fnmatch_chars pat' rest ||
           match rest with
           | [] => false
           | _ :: rest' => skip rest'
           end) name
      else
        match name with
        | c' :: name' => Ascii.eqb c c' && fnmatch_chars pat' name'
        | [] => false
        end
  end.

(** [os.path.split] on the character list: the part before the last
    separator, and the part after it. *)
Fixpoint split_last_sep (l : list ascii) : option (list ascii) * list ascii :=
  match l with
  | [] => (None, [])
  | c :: l' =>
      let '(dir, base) := split_last_sep l' in
      match dir with
      | Some d => (Some (c :: d), base)
      | None => if Ascii.eqb c "/"%char then (Some [], base) else (None, c :: base)
      end
  end.

(** Whether [glob.glob(pattern)] returns the file [path], for a pattern
    whose wildcards are all in its last component: the file lies in the
    directory of the pattern and its name matches the last component. *)
Definition glob_matches (pattern path : string) : bool :=
  let '(pdir, pbase) := split_last_sep (list_ascii_of_string pattern) in
  let '(fdir, fbase) := split_last_sep (list_ascii_of_string path) in
  bool_decide (pdir = fdir) && fnmatch_chars pbase fbase.

(** The name the writer gives the authorship partition of a shard (the
    shard index as formatted by [str.format]), and the pattern the loader
    passes to [glob]:
<<
    os.path.join(self.path2database, self.path2paa_df,
                 'publicationauthoraffiliation{}.hdf'.format(ifile))
    os.path.join(self.path2database, self.path2paa_df)
        + 'publicationauthoraffiliation*.hdf'
>> *)
Definition paa_file_name (path2database path2paa_df ifile : string) : string :=
  os_path_join (os_path_join path2database path2paa_df)
               ("publicationauthoraffiliation" +:+ ifile +:+ ".hdf").

Definition paa_glob_pattern (path2database path2paa_df : string) : string :=
  os_path_join path2database path2paa_df +:+ "publicationauthoraffiliation*.hdf".

(** ** [PubMed.parse_references]

    The method has a preprocessing loop of its own, run when [preprocess]
    is true (the default), followed by the loader loop. *)

Definition isfile_pub2ref (ifile : nat) (fs : FS) : bool :=
  bool_decide (is_Some (pub2ref_hdf fs !! ifile)).

(** The body of the article loop of [parse_references]: the id of the
    article, then its reference block. *)
Definition references_article (pub2ref_df : list (list PyVal)) (article_bucket : Element)
  : Res (list (list PyVal)) :=
  let medline := find [child "MedlineCitation"] article_bucket in
  pmid ← py_find [child "PMID"] medline;
  PublicationId ← load_int (PStr (load_xml_text pmid));
  scrape_references PublicationId article_bucket pub2ref_df.

(** The citation frame of one shard document in [parse_references]. *)
Definition references_frame (xmltree : Element) : Res Frame :=
  pub2ref_df ← for_each references_article (all_pubmed_articles xmltree) [];
  DataFrame pub2ref_df ["CitedPublicationId"; "CitingPublicationId"; "Citation"].

(** The preprocessing loop of [parse_references].  The document is parsed
    before the skip test, and the counter [ifile] advances on a skip only:
    after the frame of a shard is saved the loop goes on with the same
    [ifile]. *)
Fixpoint parse_references_shards (rewrite_existing : bool) (ifile : nat)
    (xmlfiles : list (option Element)) (fs : FS) : Res unit * FS :=
  match xmlfiles with
  | [] => (Ok tt, fs)
  | xml_file :: rest =>
      match xml_file with
      | None => (Raise XMLSyntaxError, fs)
      | Some xmltree =>
          if negb rewrite_existing && isfile_pub2ref ifile fs
          then parse_references_shards rewrite_existing (S ifile) rest fs
          else
            match references_frame xmltree with
            | Raise e => (Raise e, fs)
            | Ok pub2ref_df =>
                parse_references_shards rewrite_existing ifile rest
                  (mkFS (publication_hdf fs) (publicationauthoraffiliation_hdf fs)
                        (pub2field_hdf fs) (<[ifile := pub2ref_df]> (pub2ref_hdf fs))
                        (fieldinfo_hdf fs) (pub2year_json_gz fs))
            end
      end
  end.

(** [parse_references]: the preprocessing loop when asked for, then the
    loader loop over the files [glob] lists in the store the loop left
    ([glob] is the listing function). *)
Definition parse_references (xml_directory : list (string * option Element))
    (preprocess rewrite_existing : bool) (glob : FS -> list nat) (fs : FS)
  : Res (list (list PyVal)) * FS :=
  if preprocess then
    match parse_references_shards rewrite_existing 0 (xmlfiles_of xml_directory) fs with
    | (Raise e, fs') => (Raise e, fs')
    | (Ok _, fs') => (load_pub2ref fs' (glob fs'), fs')
    end
  else (load_pub2ref fs (glob fs), fs).

(** ** [pyscisci.utils]: array and dictionary helpers

    numpy integer arrays are lists of [Z]; the helpers below only compare
    the entries and compute with positions. *)

(** [zip2dict(keys, values)]: [dict(zip(keys, values))]. *)
Definition zip2dict {K V} `{EqDecision K} (keys : list K) (values : list V) : dict K V :=
  fold_left (fun d kv => dict_set kv.1 kv.2 d) (zip keys values) [].

(** [changepoint(a)]:
<<
    np.concatenate([[0], np.where(a[:-1] != a[1:])[0] + 1, [a.shape[0]]])
>>
    [np.where] lists the positions [i] of [a[:-1]] with [a[i] != a[i+1]]. *)
Definition where_neq (a : list Z) : list nat :=
  List.filter (fun i => negb (bool_decide (a !! i = a !! S i))) (seq 0 (length a - 1)).

Definition changepoint (a : list Z) : list nat :=
  [0%nat] ++ (S <$> where_neq a) ++ [length a].

(** The outcome of an array expression that may index out of bounds. *)
Inductive ArrayRes (A : Type) : Type :=
  | Arr (a : A)
  | IndexError.
Arguments Arr {A} a.
Arguments IndexError {A}.

(** [np.searchsorted(a, v, side='left')] for one key, as numpy documents
    it for a sorted array [a]: the position [i] with [a[i-1] < v <= a[i]],
    which is the number of entries below [v].  An array that is not sorted
    is outside the contract of the library function. *)
Definition searchsorted (a : list Z) (v : Z) : nat :=
  length (List.filter (fun x => x <? v) a).

(** [isin_sorted(values2check, masterlist)]:
<<
    index = np.searchsorted(masterlist, values2check, side = 'left')
    index[index >= masterlist.shape[0]] = masterlist.shape[0] - 1
    return values2check == masterlist[index]
>>
    On an empty master list every index becomes -1, which is out of
    bounds for an array of size 0. *)
Definition isin_sorted (values2check masterlist : list Z) : ArrayRes (list bool) :=
  match masterlist, values2check with
  | [], [] => Arr []
  | [], _ :: _ => IndexError
  | _ :: _, _ =>
      Arr ((fun v =>
              let index := searchsorted masterlist v in
              let index := if (length masterlist <=? index)%nat
                           then (length masterlist - 1)%nat else index in
              bool_decide (Some v = masterlist !! index)) <$> values2check)
  end.

(** [rank_array(a, ascending)] with [normed=False]:
<<
    idx = np.argsort(a)
    ranks = np.empty_like(idx)
    if ascending: ranks[idx] = np.arange(idx.shape[0])
    else:         ranks[idx] = np.arange(idx.shape[0])[::-1]
>>
    [idx] is what [np.argsort(a)] returned.  [ranks] starts as
    uninitialised memory (here zeros); the assignment stores the k-th value
    at position [idx[k]], one after the other. *)
Definition scatter (idx values : list nat) : list nat :=
  fold_left (fun ranks kv => <[kv.1 := kv.2]> ranks) (zip idx values)
            (replicate (length idx) 0%nat).

Definition rank_array (idx : list nat) (ascending : bool) : list nat :=
  if ascending then scatter idx (seq 0 (length idx))
  else scatter idx (reverse (seq 0 (length idx))).

(** ** Vocabulary of the statements

    What one article contributes to the accumulators, read off the
    document: these are compared below with what [scrape_article] leaves in
    the locals. *)

(** [load_int] on text never raises: the parsed integer or [None]. *)
Definition load_int_str (s : string) : PyVal :=
  match int_of_str s with
  | Some z => PInt z
  | None => PNone
  end.

(** The [MedlineCitation] node and the id under it. *)
Definition medline_of (article_bucket : Element) : option Element :=
  find [child "MedlineCitation"] article_bucket.

Definition article_id (article_bucket : Element) : PyVal :=
  load_int_str (load_xml_text (m ← medline_of article_bucket; find [child "PMID"] m)).

(** The designated history date node, when there is one. *)
Definition pubdate_of (article_bucket : Element) : option Element :=
  h ← find [child "PubmedData"; child "History"] article_bucket;
  find [child "PubMedPubDate"] h.

Definition article_date (article_bucket : Element) : PyVal * PyVal * PyVal :=
  match pubdate_of article_bucket with
  | Some pdate =>
      (load_int_str (load_xml_text (find [child "Year"] pdate)),
       load_int_str (load_xml_text (find [child "Month"] pdate)),
       load_int_str (load_xml_text (find [child "Day"] pdate)))
  | None => (PInt 0, PInt 1, PInt 1)
  end.

Definition article_year (article_bucket : Element) : PyVal :=
  (article_date article_bucket).1.1.

(** The year-index entry of an article: present when the year is positive. *)
Definition year_entry (d : dict PyVal PyVal) (article_bucket : Element) : dict PyVal PyVal :=
  match article_year article_bucket with
  | PInt y => if 0 <? y then dict_set (article_id article_bucket) (PInt y) d else d
  | _ => d
  end.

(** The vocabulary observation of one term, when it carries a non-empty id. *)
Definition term_observation (name_tag ftype : string) (term : Element)
  : option (string * (string * string)) :=
  dn ← find [child name_tag] term;
  let ui := attrib_get "UI" "" (attrib dn) in
  if (0 <? String.length ui)%nat then Some (ui, (text dn, ftype)) else None.

(** The observations of one article in execution order: descriptor terms,
    then chemical substances. *)
Definition article_observations (article_bucket : Element)
  : list (string * (string * string)) :=
  match medline_of article_bucket with
  | None => []
  | Some m =>
      match find [child "MeshHeadingList"] m with
      | Some terms => omap (term_observation "DescriptorName" "mesh") (children terms)
      | None => []
      end ++
      match find [child "ChemicalList"] m with
      | Some cl =>
          omap (term_observation "NameOfSubstance" "chem") (findall [child "Chemical"] cl)
      | None => []
      end
  end.

Definition observe (d : dict string (string * string)) (o : string * (string * string))
  : dict string (string * string) :=
  dict_set o.1 o.2 d.

(** The shards a run parses: those whose publication partition is missing
    from the store the run starts from, or all of them on a rewrite.
    [ifile] is the index of the first shard of the list. *)
Fixpoint parsed_shards (rewrite_existing : bool) (fs : FS) (ifile : nat)
    (xmlfiles : list (option Element)) : list (option Element) :=
  match xmlfiles with
  | [] => []
  | x :: rest =>
      if negb rewrite_existing && isfile_publication ifile fs
      then parsed_shards rewrite_existing fs (S ifile) rest
      else x :: parsed_shards rewrite_existing fs (S ifile) rest
  end.

(** The publication partitions of the first [n] shard indices exist. *)
Definition shards_done (fs : FS) (n : nat) : bool :=
  forallb (fun i => isfile_publication i fs) (seq 0 n).

(** The partition files of shard index [i], one per record kind. *)
Definition partitions_at (fs : FS) (i : nat)
  : option (list Pub.t) * option (list Author.t) * option Frame * option Frame :=
  (publication_hdf fs !! i, publicationauthoraffiliation_hdf fs !! i,
   pub2field_hdf fs !! i, pub2ref_hdf fs !! i).

(** The article entries of a list of shards, in processing order. *)
Definition articles_of (shards : list (option Element)) : list Element :=
  flat_map (fun x => match x with Some t => all_pubmed_articles t | None => [] end) shards.

(** The last observation of an id in a sequence of observations. *)
Definition last_observation (ui : string) (obs : list (string * (string * string)))
  : option (string * string) :=
  snd <$> last (List.filter (fun o => String.eqb o.1 ui) obs).

(** The structure the extractor reads without a guard: the article entry
    has its [MedlineCitation], [Article], [Journal] and [JournalIssue]
    nodes, every descriptor term its [DescriptorName] and every chemical its
    [NameOfSubstance]. *)
Definition has_name (name_tag : string) (term : Element) : bool :=
  bool_decide (is_Some (find [child name_tag] term)).

Definition terms_named (medline : Element) : bool :=
  match find [child "MeshHeadingList"] medline with
  | Some terms => forallb (has_name "DescriptorName") (children terms)
  | None => true
  end &&
  match find [child "ChemicalList"] medline with
  | Some cl => forallb (has_name "NameOfSubstance") (findall [child "Chemical"] cl)
  | None => true
  end.

Definition required_nodes (article_bucket : Element) : bool :=
  match medline_of article_bucket with
  | None => false
  | Some m =>
      match find [child "Article"] m with
      | None => false
      | Some art =>
          match find [child "Journal"] art with
          | None => false
          | Some j => bool_decide (is_Some (find [child "JournalIssue"] j))
          end
      end && terms_named m
  end.

(** The year of a present history date is an integer literal. *)
Definition year_readable (article_bucket : Element) : bool :=
  match article_year article_bucket with
  | PInt _ => true
  | _ => false
  end.

(** The author list of the article, and whether the read of [seq] after
    the author loop finds it bound: the list is absent, or has an author, or
    an earlier article has bound [seq]. *)
Definition author_list_of (article_bucket : Element) : option Element :=
  m ← medline_of article_bucket;
  art ← find [child "Article"] m;
  find [child "AuthorList"] art.

Definition authors_of (article_bucket : Element) : list Element :=
  match author_list_of article_bucket with
  | Some al => findall [child "Author"] al
  | None => []
  end.

Definition seq_bound (seq : option Z) (article_bucket : Element) : bool :=
  match author_list_of article_bucket with
  | None => true
  | Some al =>
      match findall [child "Author"] al, seq with
      | [], None => false
      | _, _ => true
      end
  end.

(** The chain [e.find(t1).find(t2)...]: the first child with each tag in
    turn, [None] as soon as one is absent. *)
Fixpoint descend (tags : list string) (e : Element) : option Element :=
  match tags with
  | [] => Some e
  | t :: tags' => c ← find [child t] e; descend tags' c
  end.

(** An authorship row has the empty string for a name part that its
    author node lacks. *)
Definition names_default (author : Element) (row : Author.t) : Prop :=
  (find [child "ForeName"] author = None -> Author.FirstName row = "") /\
  (find [child "LastName"] author = None -> Author.LastName row = "").

(** The rows of a list that belong to one publication. *)
Definition rows_of (PublicationId : PyVal) (paa : list Author.t) : list Author.t :=
  List.filter (fun r => bool_decide (Author.PublicationId r = PublicationId)) paa.

(** The value an integer cast leaves in place of [v], and the value the
    numeric conversion leaves. *)
Definition as_int (v : PyVal) : PyVal :=
  match astype_int64 v with
  | Ok z => PInt z
  | Raise _ => v
  end.

Definition as_numeric (v : PyVal) : PyVal :=
  match to_numeric_val v with
  | Ok x => x
  | Raise _ => v
  end.

(** A publication record with its typed columns cast. *)
Definition coerce_pub (r : Pub.t) : Pub.t :=
  {| Pub.PublicationId := as_int (Pub.PublicationId r);
     Pub.Title := Pub.Title r;
     Pub.Year := as_int (Pub.Year r);
     Pub.Volume := as_numeric (Pub.Volume r);
     Pub.Issue := Pub.Issue r;
     Pub.Pages := Pub.Pages r;
     Pub.JournalId := Pub.JournalId r;
     Pub.TeamSize := as_int (Pub.TeamSize r);
     Pub.Month := as_int (Pub.Month r);
     Pub.Day := as_int (Pub.Day r);
     Pub.ISSN := Pub.ISSN r;
     Pub.Doi := Pub.Doi r |}.

(** The record passes the casts of the model: its id, date and count
    values are accepted by [int] and fit 64 bits, and the numeric
    conversion accepts its volume. *)
Definition castable (r : Pub.t) : bool :=
  is_ok (astype_int64 (Pub.PublicationId r)) && is_ok (astype_int64 (Pub.Year r)) &&
  is_ok (astype_int64 (Pub.Month r)) && is_ok (astype_int64 (Pub.Day r)) &&
  is_ok (to_numeric_val (Pub.Volume r)) && is_ok (astype_int64 (Pub.TeamSize r)).

(** Integers that a frame holds unchanged whatever the dtype of their
    column (int64, or float64 beside nulls): those of magnitude up to 2^53. *)
Definition exact_int (z : Z) : bool := (- 2 ^ 53 <=? z) && (z <=? 2 ^ 53).

(** A cell that the frame constructor stores as it is: text, a null, or
    such an integer. *)
Definition plain_cell (v : PyVal) : bool :=
  match v with PInt z => exact_int z | _ => true end.

(** The typed cells of the publication records as the extractor fills
    them: such an integer in an integer column ([int_cell]), such an
    integer or a null in the volume column ([int_or_null]). *)
Definition int_cell (v : PyVal) : bool :=
  match v with PInt z => exact_int z | _ => false end.

Definition int_or_null (v : PyVal) : bool :=
  match v with PInt z => exact_int z | PNone => true | PStr _ => false end.

(** The cells of the columns that the writer does not cast are plain. *)
Definition plain_rest (r : Pub.t) : bool :=
  plain_cell (Pub.Title r) && plain_cell (Pub.Issue r) && plain_cell (Pub.Pages r) &&
  plain_cell (Pub.JournalId r) && plain_cell (Pub.ISSN r) && plain_cell (Pub.Doi r).

(** A record that the writer stores unchanged, and a record that would
    be one but for nulls in its integer columns. *)
Definition storable (r : Pub.t) : bool :=
  int_cell (Pub.PublicationId r) && int_cell (Pub.Year r) &&
  int_cell (Pub.Month r) && int_cell (Pub.Day r) &&
  int_or_null (Pub.Volume r) && int_cell (Pub.TeamSize r) && plain_rest r.



(** A frame given by its columns and the rows it stores. *)
Definition frame (cols : list string) (data : list (list PyVal)) : Frame :=
  {| columns := cols; rows := data |}.

(** ** Example documents *)

Definition leaf (t s : string) : Element := Elem t [] s [].
Definition node (t : string) (cs : list Element) : Element := Elem t [] "" cs.

(** The end-to-end scenario: article 100, one author whose affiliation
    carries the disclaimer, two subject tags of which one has an id, and
    one reference resolvable to 50. *)
Definition scenario_article : Element :=
  node "PubmedArticle"
    [ node "MedlineCitation"
        [ leaf "PMID" "100";
          node "Article"
            [ node "Journal" [ node "JournalIssue" [] ];
              leaf "ArticleTitle" "Example";
              node "AuthorList"
                [ node "Author"
                    [ leaf "LastName" "Doe"; leaf "ForeName" "Jane";
                      node "AffiliationInfo"
                        [ leaf "Affiliation" ("Univ. " +:+ disclaimer) ] ] ] ];
          node "MeshHeadingList"
            [ node "MeshHeading"
                [ Elem "DescriptorName" [("UI", "D000001")] "Calcimycin" [] ];
              node "MeshHeading" [ leaf "DescriptorName" "Untagged" ] ] ];
      node "PubmedData"
        [ node "History"
            [ node "PubMedPubDate"
                [ leaf "Year" "2001"; leaf "Month" "5"; leaf "Day" "17" ] ];
          node "ReferenceList"
            [ node "Reference"
                [ leaf "Citation" "Some ref";
                  node "ArticleIdList"
                    [ Elem "ArticleId" [("IdType", "pubmed")] "50" [] ] ] ] ] ].

Definition scenario_shard : Element := node "PubmedArticleSet" [scenario_article].

(** An article with the given id text and author-list children. *)
Definition article_with_authors (pmid : string) (authors : list Element) : Element :=
  node "PubmedArticle"
    [ node "MedlineCitation"
        [ leaf "PMID" pmid;
          node "Article"
            [ node "Journal" [ node "JournalIssue" [] ];
              leaf "ArticleTitle" "T";
              node "AuthorList" authors ] ] ].

Definition one_author : Element :=
  node "Author" [ leaf "LastName" "Doe"; leaf "ForeName" "Jane" ].

(** Article 1 with one author, then article 2 whose author list is empty. *)
Definition empty_author_list_shard : Element :=
  node "PubmedArticleSet"
    [ article_with_authors "1" [one_author]; article_with_authors "2" [] ].

(** An article entry without its id node, otherwise minimal. *)
Definition article_without_pmid : Element :=
  node "PubmedArticle"
    [ node "MedlineCitation"
        [ node "Article"
            [ node "Journal" [ node "JournalIssue" [] ];
              leaf "ArticleTitle" "T" ] ] ].

(** An article entry without its [Article] node, and one without its
    [JournalIssue] node. *)
Definition article_without_Article : Element :=
  node "PubmedArticle" [ node "MedlineCitation" [ leaf "PMID" "7" ] ].

Definition article_without_JournalIssue : Element :=
  node "PubmedArticle"
    [ node "MedlineCitation"
        [ leaf "PMID" "7";
          node "Article" [ node "Journal" []; leaf "ArticleTitle" "T" ] ] ].

(** An article entry whose history date has no [Year] node. *)
Definition article_with_yearless_date : Element :=
  node "PubmedArticle"
    [ node "MedlineCitation"
        [ leaf "PMID" "7";
          node "Article"
            [ node "Journal" [ node "JournalIssue" [] ]; leaf "ArticleTitle" "T" ] ];
      node "PubmedData"
        [ node "History" [ node "PubMedPubDate" [ leaf "Month" "5" ] ] ] ].

(** One shard's record lists as the writer receives them: the records of
    the scenario, and a publication record whose id is [None]. *)
Definition scenario_author : Author.t :=
  {| Author.PublicationId := PInt 100;
     Author.FullName := "Jane Doe";
     Author.FirstName := "Jane";
     Author.LastName := "Doe";
     Author.Affiliations := "Univ. ";
     Author.AuthorSequence := 1 |}.



(** The input directory of the scenario: one shard and the DTD file, and
    the store a full rewrite leaves for it. *)
Definition scenario_directory : list (string * option Element) :=
  [ ("pubmed_190101.dtd", None); ("pubmed21n0001.xml.gz", Some scenario_shard) ].

Definition scenario_store : FS :=
  (preprocess (fun s => s) scenario_directory true empty_fs).2.

(** A second shard that observes the scenario's vocabulary id under
    another name. *)
Definition renamed_shard : Element :=
  node "PubmedArticleSet"
    [ node "PubmedArticle"
        [ node "MedlineCitation"
            [ leaf "PMID" "101";
              node "Article"
                [ node "Journal" [ node "JournalIssue" [] ];
                  leaf "ArticleTitle" "Other";
                  node "AuthorList" [ one_author ] ];
              node "MeshHeadingList"
                [ node "MeshHeading"
                    [ Elem "DescriptorName" [("UI", "D000001")] "A-23187" [] ] ] ] ] ].

Definition two_shard_directory : list (string * option Element) :=
  [ ("pubmed21n0002.xml.gz", Some renamed_shard);
    ("pubmed21n0001.xml.gz", Some scenario_shard) ].

Definition two_shard_run : Res Locals * FS :=
  process_shards (fun s => s) true 0 (xmlfiles_of two_shard_directory)
                 fresh_locals empty_fs.

Definition two_shard_locals : Locals :=
  match two_shard_run.1 with
  | Ok st => st
  | Raise _ => fresh_locals
  end.

(** The store of the two-shard run. *)
Definition two_shard_store : FS := two_shard_run.2.


(** The authorship rows of one article as the extractor numbers them: all
    with the id of the article, with sequence numbers 1, 2, ... in author
    order. *)
Definition numbered_authors (article_bucket : Element) (rows : list Author.t) : Prop :=
  Forall (fun r => Author.PublicationId r = article_id article_bucket) rows /\
  Author.AuthorSequence <$> rows
  = (fun k => Z.of_nat (S k)) <$> seq 0 (length (authors_of article_bucket)).

(** The four partitions the writer leaves for a shard whose extraction
    ended in the locals [st], given the two frames it has built. *)
Definition partitions_of (st : Locals) (pub2field pub2ref : Frame)
  : option (list Pub.t) * option (list Author.t) * option Frame * option Frame :=
  (Some (coerce_pub <$> publication_df st), Some (paa_df st),
   Some pub2field, Some pub2ref).

(** The field-link rows of one article: one per observation, in order. *)
Definition field_links (article_bucket : Element) : list (list PyVal) :=
  (fun o => [article_id article_bucket; PStr o.1]) <$> article_observations article_bucket.

(** The [Reference] entries of the first reference list of an article,
    and the citation row of one of them: the id of the article, the
    PubMed id of the reference, the citation text. *)
Definition references_of (article_bucket : Element) : list Element :=
  match find [child "PubmedData"; child "ReferenceList"] article_bucket with
  | Some references => findall [child "Reference"] references
  | None => []
  end.

Definition reference_pmid (ref : Element) : PyVal :=
  match find [child "ArticleIdList"] ref with
  | Some ids =>
      load_int_str (load_xml_text (find [child_with "ArticleId" "IdType" "pubmed"] ids))
  | None => PStr ""
  end.

Definition citation_row (pid : PyVal) (ref : Element) : list PyVal :=
  [pid; reference_pmid ref; PStr (load_xml_text (find [child "Citation"] ref))].

Definition citation_rows (article_bucket : Element) : list (list PyVal) :=
  citation_row (article_id article_bucket) <$> references_of article_bucket.

(** An article with an id and no author list, and a shard of it. *)
Definition authorless_article : Element :=
  node "PubmedArticle"
    [ node "MedlineCitation"
        [ leaf "PMID" "5";
          node "Article"
            [ node "Journal" [ node "JournalIssue" [] ];
              leaf "ArticleTitle" "T" ] ] ].

Definition authorless_shard : Element := node "PubmedArticleSet" [authorless_article].

(** An article with an author and no id node, and a directory whose one
    shard holds it. *)
Definition idless_article : Element :=
  node "PubmedArticle"
    [ node "MedlineCitation"
        [ node "Article"
            [ node "Journal" [ node "JournalIssue" [] ];
              leaf "ArticleTitle" "T";
              node "AuthorList" [ one_author ] ] ] ].

Definition idless_directory : list (string * option Element) :=
  [ ("pubmed21n0001.xml.gz", Some (node "PubmedArticleSet" [idless_article])) ].

(** A shard without article entries. *)
Definition empty_shard : Element := node "PubmedArticleSet" [].

(** Three shards in one directory, in name order. *)
Definition three_shard_files : list (option Element) :=
  [Some scenario_shard; Some renamed_shard; Some authorless_shard].

(** A list of positions in strictly increasing order. *)
Definition increasing (l : list nat) : Prop :=
  forall i j p q, (i < j)%nat -> l !! i = Some p -> l !! j = Some q -> (p < q)%nat.

(** An array in ascending order. *)
Fixpoint is_sorted (l : list Z) : bool :=
  match l with
  | x :: (y :: _) as l' => (x <=? y) && is_sorted l'
  | _ => true
  end.

(** What [np.argsort(a)] returns: the positions of [a], each once, in an
    order that sorts the values. *)
Definition is_argsort (a : list Z) (idx : list nat) : Prop :=
  NoDup idx /\ length idx = length a /\
  Forall (fun i => (i < length a)%nat) idx /\
  is_sorted ((fun i => default 0 (a !! i)) <$> idx) = true.

(** ** Text functions on examples *)

Example load_int_examples :
  load_int (PStr "100") = Ok (PInt 100) /\
  load_int (PStr " -1_000 ") = Ok (PInt (-1000)) /\
  load_int (PStr "") = Ok PNone /\
  load_int (PStr "12a") = Ok PNone /\
  load_int (PStr "1__0") = Ok PNone /\
  load_int PNone = Raise TypeError.
Proof. repeat split; reflexivity. Qed.

Example str_remove_example :
  str_remove "ab" "xabyababz" = "xyz" /\ str_contains ".xml" "a.xml.gz" = true.
Proof. split; reflexivity. Qed.

(** ** [load_int] *)

Lemma load_int_PStr (s : string) : load_int (PStr s) = Ok (load_int_str s).
Proof. unfold load_int, load_int_str, py_int. by destruct (int_of_str s). Qed.

Lemma load_int_str_cases (s : string) :
  load_int_str s = PNone \/ exists z, load_int_str s = PInt z.
Proof. unfold load_int_str. destruct (int_of_str s); eauto. Qed.

(** C10. [load_int] returns the parsed integer for every string that
    [int] accepts and [None] for every string that [int] rejects (the
    rejection of a string is a [ValueError]); the handler catches nothing
    else, so on [None] the [TypeError] of [int] escapes and [None] is not
    returned. *)
Theorem load_int_catches_only_ValueError :
  (forall s : string,
     match py_int (PStr s) with
     | Ok z => load_int (PStr s) = Ok (PInt z)
     | Raise e => e = ValueError /\ load_int (PStr s) = Ok PNone
     end) /\
  py_int PNone = Raise TypeError /\
  load_int PNone = Raise TypeError /\
  load_int PNone <> Ok PNone.
Proof.
  split; [| by repeat split].
  intros s. unfold load_int. simpl.
  by destruct (int_of_str s).
Qed.

(** ** The end-to-end scenario *)

(** C1, at the scenario input.  Article 100 cites a reference resolvable
    to 50: the extractor appends the row [[100, 50, citation]], and the
    writer names the columns [CitedPublicationId, CitingPublicationId,
    Citation], so the citation partition holds the citing id 100 in column
    [CitedPublicationId] and the cited id 50 in column
    [CitingPublicationId]. *)
Theorem citation_row_columns_swapped :
  let out := preprocess (fun s => s) scenario_directory false empty_fs in
  out.1 = Ok tt /\
  exists f row,
    pub2ref_hdf out.2 !! 0%nat = Some f /\
    rows f = [row] /\
    cell f row "CitedPublicationId" = Some (PInt 100) /\
    cell f row "CitingPublicationId" = Some (PInt 50) /\
    cell f row "CitingPublicationId" <> Some (PInt 100).
Proof.
  vm_compute. split; [reflexivity |].
  eexists; eexists. repeat split. discriminate.
Qed.

(** The records of the scenario: team size 1, the author with the
    disclaimer removed from the affiliation, one field tag (for the term
    that carries an id), one citation row. *)
Example scenario_records :
  exists st r,
    scrape_shard (fun s => s) fresh_locals scenario_shard = Ok st /\
    publication_df st = [r] /\
    Pub.PublicationId r = PInt 100 /\ Pub.TeamSize r = PInt 1 /\
    paa_df st = [scenario_author] /\
    pub2field_df st = [[PInt 100; PStr "D000001"]] /\
    pub2ref_df st = [[PInt 100; PInt 50; PStr "Some ref"]].
Proof. vm_compute. do 2 eexists. repeat split. Qed.

(** The row the extractor appends for a reference is positional: the
    article's own id first, the reference's id second. *)
Lemma ref_step_row (pid : PyVal) (p2r : list (list PyVal)) (ref : Element) :
  exists pmid citation, ref_step pid p2r ref = Ok (p2r ++ [[pid; pmid; PStr citation]]).
Proof.
  unfold ref_step.
  destruct (find [child "ArticleIdList"] ref); simpl.
  - rewrite load_int_PStr. simpl. eauto.
  - eauto.
Qed.

(** C2, at an input with an empty author list.  Article 1 has one author
    and article 2 an author list without authors: no authorship row is
    emitted for article 2, yet its [TeamSize] is 1, the value [seq + 1]
    left over from article 1.  When such an article comes first in a run,
    [seq] is unbound and the extraction raises.  The count that
    [parse_publications] takes of the same author list is 0. *)
Theorem TeamSize_stale_on_empty_author_list :
  (exists st r1 r2,
     scrape_shard (fun s => s) fresh_locals empty_author_list_shard = Ok st /\
     publication_df st = [r1; r2] /\
     Pub.PublicationId r2 = PInt 2 /\
     Pub.TeamSize r2 = PInt 1 /\
     length (rows_of (PInt 2) (paa_df st)) = 0%nat) /\
  scrape_article (fun s => s) fresh_locals (article_with_authors "2" [])
    = Raise UnboundLocalError /\
  TeamSize_parse_publications (author_list_of (article_with_authors "2" []))
    = PInt 0.
Proof.
  split; [| split; reflexivity].
  vm_compute. do 3 eexists. repeat split.
Qed.

(** ** The blocks of [scrape_article] *)

Section ExtractorFacts.

Variable html_unescape : string -> string.

Lemma scrape_date_eq (a : Element) : scrape_date a = Ok (article_date a).
Proof.
  unfold scrape_date, article_date, pubdate_of.
  destruct (find [child "PubmedData"; child "History"] a) as [h |]; simpl; [| done].
  destruct (find [child "PubMedPubDate"] h) as [pdate |]; simpl; [| done].
  by rewrite !load_int_PStr.
Qed.

(** One pass of the vocabulary loop body, in terms of the observation of
    the term. *)
Lemma field_step_eq (pid : PyVal) (tag ftype : string)
    (st : list (list PyVal) * dict string (string * string)) (t : Element) :
  field_step pid tag ftype st t =
  if has_name tag t then
    Ok match term_observation tag ftype t with
       | Some o => (st.1 ++ [[pid; PStr o.1]], observe st.2 o)
       | None => st
       end
  else Raise AttributeError.
Proof.
  unfold field_step, has_name, term_observation, observe.
  destruct (find [child tag] t) as [dn |]; simpl; [| done].
  by destruct (0 <? String.length (attrib_get "UI" "" (attrib dn)))%nat.
Qed.

(** The vocabulary loop: when it returns, the accumulator has been
    updated with the observations of its terms, in order. *)
Lemma field_loop_inv (pid : PyVal) (tag ftype : string) (terms : list Element)
    (st st' : list (list PyVal) * dict string (string * string)) :
  for_each (field_step pid tag ftype) terms st = Ok st' ->
  st'.2 = fold_left observe (omap (term_observation tag ftype) terms) st.2 /\
  forallb (has_name tag) terms = true.
Proof.
  revert st. induction terms as [| t terms IH]; intros st H.
  - by injection H as <-.
  - cbn [for_each] in H. rewrite field_step_eq in H.
    cbn [forallb omap list_omap].
    destruct (has_name tag t); [| done]. cbn in H.
    apply IH in H as [-> ->]. split; [| done].
    by destruct (term_observation tag ftype t).
Qed.

Lemma field_loop_ok (pid : PyVal) (tag ftype : string) (terms : list Element)
    (st : list (list PyVal) * dict string (string * string)) :
  forallb (has_name tag) terms = true ->
  exists st', for_each (field_step pid tag ftype) terms st = Ok st'.
Proof.
  revert st. induction terms as [| t terms IH]; intros st H; [by eexists |].
  cbn [forallb] in H. apply andb_true_iff in H as [Ht Hts].
  cbn [for_each]. rewrite field_step_eq, Ht. cbn. by apply IH.
Qed.

(** The reference loop never raises. *)
Lemma ref_loop_ok (pid : PyVal) (refs : list Element) (p2r : list (list PyVal)) :
  exists p2r', for_each (ref_step pid) refs p2r = Ok p2r'.
Proof.
  revert p2r. induction refs as [| r refs IH]; intros p2r; simpl; [eauto |].
  destruct (ref_step_row pid p2r r) as (pmid & cit & ->). simpl. apply IH.
Qed.

(** The author loop appends one row per author, all with the article's id
    and with sequence numbers counting from the start index plus one, and
    leaves [seq] at the index of the last author. *)
Lemma author_loop (pid : PyVal) (authors : list Element) (i : Z)
    (sq : option Z) (paa : list Author.t) :
  exists rows,
    fold_left (author_step html_unescape pid) (enumerate_from i authors) (sq, paa)
    = (match authors with [] => sq | _ => Some (i + Z.of_nat (length authors) - 1) end,
       paa ++ rows) /\
    length rows = length authors /\
    Forall (fun r => Author.PublicationId r = pid) rows /\
    Author.AuthorSequence <$> rows
    = (fun k => i + 1 + Z.of_nat k) <$> List.seq 0 (length authors) /\
    Forall2 names_default authors rows.
Proof.
  revert i sq paa. induction authors as [| a authors IH]; intros i sq paa.
  - exists []. simpl. rewrite app_nil_r. by repeat split.
  - cbn [enumerate_from fold_left]. unfold author_step at 2. cbn [snd].
    match goal with |- context [fold_left _ _ (Some i, paa ++ [?r])] =>
      destruct (IH (i + 1) (Some i) (paa ++ [r]))
        as (rows & Hf & Hl & Hp & Hs & Hn);
      exists (r :: rows) end.
    rewrite Hf. split_and!.
    + rewrite <- app_assoc. cbn [app]. f_equal.
      destruct authors; cbn [length]; f_equal; lia.
    + cbn [length]. by rewrite Hl.
    + by constructor.
    + cbn [length List.seq fmap list_fmap]. f_equal; [cbn; lia |].
      change (list_fmap _ _ ?f ?l) with (f <$> l). rewrite Hs.
      rewrite <- (fmap_S_seq 0), <- list_fmap_compose.
      apply list_fmap_ext. intros ? k _. simpl. lia.
    + constructor; [| done]. split; intros ->; reflexivity.
Qed.

(** The author block, when it returns. *)
Lemma scrape_authors_inv (pid : PyVal) (author_list : option Element)
    (sq sq' : option Z) (paa paa' : list Author.t) (ts : PyVal) :
  scrape_authors html_unescape pid author_list sq paa = Ok (sq', paa', ts) ->
  exists rows,
    paa' = paa ++ rows /\
    Forall (fun r => Author.PublicationId r = pid) rows /\
    Forall2 names_default
      match author_list with
      | Some al => findall [child "Author"] al
      | None => []
      end rows /\
    match author_list with
    | Some al =>
        match findall [child "Author"] al with
        | [] => exists s, sq = Some s /\ ts = PInt (s + 1)
        | _ => ts = PInt (Z.of_nat (length rows))
        end
    | None => ts = PInt 0
    end.
Proof.
  unfold scrape_authors. destruct author_list as [al |].
  - unfold enumerate.
    destruct (author_loop pid (findall [child "Author"] al) 0 sq paa)
      as (rows & -> & Hl & Hp & _ & Hn).
    destruct (findall [child "Author"] al) as [| a l] eqn:E.
    + destruct sq as [s |]; [| done]. intros [= <- <- <-].
      exists rows. split_and!; eauto.
    + intros [= <- <- <-]. exists rows. split_and!; eauto.
      rewrite Hl. f_equal. cbn [length]. lia.
  - intros [= <- <- <-]. exists []. rewrite app_nil_r. by split_and!.
Qed.

(** The author block returns when [seq] is bound at its read. *)
Lemma scrape_authors_ok (pid : PyVal) (author_list : option Element)
    (sq : option Z) (paa : list Author.t) :
  match author_list with
  | Some al => findall [child "Author"] al <> [] \/ is_Some sq
  | None => True
  end ->
  exists r, scrape_authors html_unescape pid author_list sq paa = Ok r.
Proof.
  unfold scrape_authors. destruct author_list as [al |]; [| by eexists].
  unfold enumerate.
  destruct (author_loop pid (findall [child "Author"] al) 0 sq paa)
    as (rows & -> & _).
  destruct (findall [child "Author"] al) as [| a l]; [| by eexists].
  intros [? | [s ->]]; [done | by eexists].
Qed.

Lemma scrape_references_ok (pid : PyVal) (a : Element) (p2r : list (list PyVal)) :
  exists p2r', scrape_references pid a p2r = Ok p2r'.
Proof.
  unfold scrape_references.
  destruct (find [child "PubmedData"; child "ReferenceList"] a);
    [apply ref_loop_ok | by eexists].
Qed.

(** The vocabulary blocks of an article with [MedlineCitation] node [m]. *)
Lemma scrape_fields_inv (pid : PyVal) (a m : Element)
    (st st' : list (list PyVal) * dict string (string * string)) :
  medline_of a = Some m ->
  scrape_fields pid (Some m) st = Ok st' ->
  st'.2 = fold_left observe (article_observations a) st.2 /\
  terms_named m = true.
Proof.
  intros Hm. unfold scrape_fields, article_observations, terms_named. rewrite Hm.
  cbn [py_find mbind Res_bind]. rewrite fold_left_app.
  destruct (find [child "MeshHeadingList"] m) as [terms |].
  - destruct (for_each _ (children terms) st) as [mesh |] eqn:Hmesh; [| done].
    apply field_loop_inv in Hmesh as [Hmesh ->]. cbn [mbind Res_bind andb].
    destruct (find [child "ChemicalList"] m) as [cl |].
    + intros [-> ->]%field_loop_inv. by rewrite Hmesh.
    + intros [= <-]. by rewrite Hmesh.
  - cbn [mbind Res_bind andb].
    destruct (find [child "ChemicalList"] m) as [cl |].
    + by intros [-> ->]%field_loop_inv.
    + by intros [= <-].
Qed.

Lemma scrape_fields_ok (pid : PyVal) (m : Element)
    (st : list (list PyVal) * dict string (string * string)) :
  terms_named m = true ->
  exists st', scrape_fields pid (Some m) st = Ok st'.
Proof.
  unfold terms_named. intros [H1 H2]%andb_true_iff. unfold scrape_fields.
  cbn [py_find mbind Res_bind].
  destruct (find [child "MeshHeadingList"] m) as [terms |].
  - destruct (field_loop_ok pid "DescriptorName" "mesh" _ st H1) as [mesh ->].
    cbn [mbind Res_bind].
    destruct (find [child "ChemicalList"] m) as [cl |]; [| by eexists].
    by apply field_loop_ok.
  - cbn [mbind Res_bind].
    destruct (find [child "ChemicalList"] m) as [cl |]; [| by eexists].
    by apply field_loop_ok.
Qed.

Lemma scrape_pages_ok (art : Element) :
  exists v, scrape_pages html_unescape (Some art) = Ok v /\
            (find [child "Pagination"] art = None -> v = PNone).
Proof.
  unfold scrape_pages. cbn [py_find mbind Res_bind].
  destruct (find [child "Pagination"] art); cbn [py_find mbind Res_bind];
    eexists; split; done.
Qed.

(** Run the straight-line part of a block whose run is known to
    return: method calls on a node that may be [None], and [load_int] on
    text. *)
Ltac run_block H :=
  repeat first
    [ rewrite load_int_PStr in H
    | rewrite scrape_date_eq in H
    | match type of H with
      | context [scrape_pages _ (Some ?art)] =>
          let v := fresh "pages" in
          let E := fresh "Hpages" in
          destruct (scrape_pages_ok art) as (v & E & _); rewrite E in H; clear E
      end
    | match type of H with
      | context [py_find _ (find ?p ?e)] =>
          let E := fresh "Hfind" in
          destruct (find p e) eqn:E; cbn [py_find] in H
      end
    | progress cbn [mbind Res_bind py_find] in H
    | discriminate H ].

(** What a returning [scrape_article] has done: one publication record
    appended, with the id and date of the article; the year index and the
    vocabulary updated by the article's entries; one authorship row per
    author.  The run returns only on an article with the unguarded
    structure, a readable year and a bound [seq]. *)
Lemma scrape_article_inv (st st' : Locals) (a : Element) :
  scrape_article html_unescape st a = Ok st' ->
  exists r rows,
    publication_df st' = publication_df st ++ [r] /\
    Pub.PublicationId r = article_id a /\
    (Pub.Year r, Pub.Month r, Pub.Day r) = article_date a /\
    (Pub.Volume r = PNone \/ exists z, Pub.Volume r = PInt z) /\
    pub2year st' = year_entry (pub2year st) a /\
    fieldinfo st' = fold_left observe (article_observations a) (fieldinfo st) /\
    paa_df st' = paa_df st ++ rows /\
    Forall (fun x => Author.PublicationId x = article_id a) rows /\
    length rows = length (authors_of a) /\
    (author_list_of a = None \/ authors_of a <> [] ->
     Pub.TeamSize r = PInt (Z.of_nat (length rows))) /\
    required_nodes a = true /\ year_readable a = true /\
    seq_bound (seq_var st) a = true.
Proof.
  unfold scrape_article. intros H. cbv zeta in H.
  run_block H.
  destruct (article_date a) as [[Year Month] Day] eqn:Hdate.
  destruct Year as [| y |]; cbn [py_gt0 mbind Res_bind] in H; try discriminate H.
  match type of H with
  | context [scrape_authors ?h ?p ?al ?s ?pa] =>
      destruct (scrape_authors h p al s pa) as [[[sq' paa'] ts] |] eqn:Hauth
  end; cbn [mbind Res_bind] in H; try discriminate H.
  match type of H with
  | context [scrape_fields ?p ?m ?s] =>
      destruct (scrape_fields p m s) as [fields |] eqn:Hfields
  end; cbn [mbind Res_bind] in H; try discriminate H.
  match type of H with
  | context [scrape_references ?p ?m ?s] =>
      destruct (scrape_references p m s) as [p2r |] eqn:Hrefs
  end; cbn [mbind Res_bind] in H; try discriminate H.
  injection H as <-.
  apply scrape_authors_inv in Hauth as (rows & -> & Hpid & Hlen%Forall2_length & Hts).
  pose proof (fun Hm => scrape_fields_inv _ a _ _ _ Hm Hfields) as Hfi.
  assert (Hyear : article_year a = PInt y)
    by (unfold article_year; by rewrite Hdate).
  lazymatch goal with
  | Hm : find [child "MedlineCitation"] a = Some ?m,
    Ha : find [child "Article"] ?m = Some ?art,
    Hj : find [child "Journal"] ?art = Some ?j,
    Hi : find [child "JournalIssue"] ?j = Some _ |- _ =>
      assert (Hmed : medline_of a = Some m) by exact Hm;
      assert (Hid : article_id a
                    = load_int_str (load_xml_text (find [child "PMID"] m)))
        by (unfold article_id; rewrite Hmed; reflexivity);
      assert (Hal : author_list_of a = find [child "AuthorList"] art)
        by (unfold author_list_of; rewrite Hmed; cbn; rewrite Ha; reflexivity);
      specialize (Hfi Hmed); destruct Hfi as [Hfi Hnames];
      rewrite <- Hid in *;
      unfold year_entry, year_readable, seq_bound, authors_of, required_nodes;
      rewrite Hyear, Hal, Hmed, Ha, Hj, Hi, Hnames;
      destruct (find [child "AuthorList"] art) as [al |]
  end.
  all: eexists; exists rows.
  all: cbn [publication_df pub2year fieldinfo paa_df seq_var Pub.PublicationId
              Pub.Year Pub.Month Pub.Day Pub.Volume Pub.TeamSize].
  all: split_and!; try first [ reflexivity | assumption | apply load_int_str_cases ].
  all: try (destruct (findall [child "Author"] al);
            [ destruct Hts as (s & Hs & ->); try (by rewrite Hs);
              by intros [? | ?]
            | done ]).
  all: try (by rewrite <- Hlen).
  all: try (intros _; destruct rows; [done | discriminate Hlen]).
Qed.

(** What the extraction of a well-structured article returns: it does
    not raise, and each optional node that is absent leaves its default in
    the record. *)
Lemma scrape_article_ok (st : Locals) (a : Element) :
  required_nodes a = true ->
  year_readable a = true ->
  seq_bound (seq_var st) a = true ->
  exists st' r rows,
    scrape_article html_unescape st a = Ok st' /\
    publication_df st' = publication_df st ++ [r] /\
    paa_df st' = paa_df st ++ rows /\
    Pub.PublicationId r = article_id a /\
    (descend ["MedlineCitation"; "Article"; "Pagination"] a = None ->
     Pub.Pages r = PNone) /\
    (descend ["MedlineCitation"; "Article"; "Journal"; "Title"] a = None ->
     Pub.JournalId r = PStr "") /\
    (descend ["MedlineCitation"; "Article"; "Journal"; "JournalIssue"; "Volume"] a
     = None -> Pub.Volume r = PNone) /\
    (descend ["MedlineCitation"; "Article"; "Journal"; "ISSN"] a = None ->
     Pub.ISSN r = PStr "") /\
    (pubdate_of a = None ->
     Pub.Year r = PInt 0 /\ Pub.Month r = PInt 1 /\ Pub.Day r = PInt 1) /\
    (find [child "PubmedData"; child "ArticleIdList"] a = None ->
     Pub.Doi r = PStr "") /\
    Forall2 names_default (authors_of a) rows.
Proof.
  unfold required_nodes, year_readable, seq_bound, authors_of, author_list_of,
    article_year, medline_of.
  destruct (find [child "MedlineCitation"] a) as [m |] eqn:Hm; [| done].
  destruct (find [child "Article"] m) as [art |] eqn:Ha; [| done].
  destruct (find [child "Journal"] art) as [j |] eqn:Hj; [| done].
  intros [[ji Hi]%bool_decide_eq_true Hnames]%andb_true_iff Hyear Hseq.
  cbn [mbind option_bind] in Hseq |- *.
  rewrite ?Ha in Hseq |- *. cbn [mbind option_bind] in Hseq |- *.
  destruct (article_date a) as [[Y M] D] eqn:Hdate. cbn [fst] in Hyear.
  destruct Y as [| y |]; try done.
  destruct (scrape_pages_ok art) as (pages & Hpages & Hpg).
  destruct (scrape_authors_ok
              (load_int_str (load_xml_text (find [child "PMID"] m)))
              (find [child "AuthorList"] art) (seq_var st) (paa_df st))
    as [[[sq' paa'] ts] Hauth].
  { destruct (find [child "AuthorList"] art) as [al |]; [| done].
    destruct (findall [child "Author"] al); [| by left].
    right. by destruct (seq_var st). }
  destruct (scrape_fields_ok (load_int_str (load_xml_text (find [child "PMID"] m)))
              m (pub2field_df st, fieldinfo st) Hnames) as [fields Hfields].
  destruct (scrape_references_ok
              (load_int_str (load_xml_text (find [child "PMID"] m)))
              a (pub2ref_df st)) as [p2r Hrefs].
  unfold scrape_article. cbv zeta.
  repeat first
    [ rewrite load_int_PStr | rewrite scrape_date_eq | rewrite Hm | rewrite Ha
    | rewrite Hj | rewrite Hi | rewrite Hpages | rewrite Hdate | rewrite Hauth
    | rewrite Hfields | rewrite Hrefs
    | progress cbn [mbind Res_bind py_find py_gt0] ].
  apply scrape_authors_inv in Hauth as (rows & -> & _ & Hn & _).
  do 2 eexists. exists rows. split; [reflexivity |].
  cbn [publication_df paa_df Pub.PublicationId Pub.Pages Pub.JournalId Pub.Volume
         Pub.ISSN Pub.Year Pub.Month Pub.Day Pub.Doi].
  unfold article_id, medline_of, pubdate_of in *.
  cbn [descend mbind option_bind]. rewrite Hm. cbn [mbind option_bind].
  rewrite Ha. cbn [mbind option_bind]. rewrite Hj. cbn [mbind option_bind].
  rewrite Hi. cbn [mbind option_bind].
  split_and!; try done.
  - intros H. apply Hpg. by destruct (find [child "Pagination"] art).
  - intros H. by destruct (find [child "Title"] j).
  - intros H. by destruct (find [child "Volume"] ji).
  - intros H. by destruct (find [child "ISSN"] j).
  - intros H. unfold article_date, pubdate_of in Hdate. rewrite H in Hdate.
    by injection Hdate as <- <- <-.
  - by intros ->.
Qed.

End ExtractorFacts.

(** When the author list is absent or has an author, the team size of
    [preprocess] is the count that [parse_publications] takes, and the
    number of authorship rows appended. *)
Lemma TeamSize_counts_authors (html_unescape : string -> string) (pid : PyVal)
    (author_list : option Element) (sq sq' : option Z)
    (paa paa' : list Author.t) (ts : PyVal) :
  scrape_authors html_unescape pid author_list sq paa = Ok (sq', paa', ts) ->
  match author_list with
  | Some al => findall [child "Author"] al <> []
  | None => True
  end ->
  ts = TeamSize_parse_publications author_list /\
  exists rows, paa' = paa ++ rows /\ ts = PInt (Z.of_nat (length rows)).
Proof.
  intros (rows & -> & _ & Hlen%Forall2_length & Hts)%scrape_authors_inv Hne.
  unfold TeamSize_parse_publications. destruct author_list as [al |].
  - destruct (findall [child "Author"] al) eqn:E; [done |].
    rewrite Hlen. split; [done | by exists rows].
  - destruct rows; [| done]. rewrite Hts. split; [done |]. by exists [].
Qed.

(** ** Absent nodes *)

(** C3, as the code has it.  On an article entry with the structure the
    extractor reads without a guard ([MedlineCitation], [Article],
    [Journal], [JournalIssue], the name node of every term), whose history
    date, when present, has an integer year, and at which [seq] is bound,
    the extraction returns, and every absent optional node leaves its
    default: [None] for the pages and the volume, the empty string for the
    journal title, the ISSN, the DOI and the name parts of an author, and
    [0/1/1] for the date. *)
Theorem optional_absence_defaults (html_unescape : string -> string)
    (st : Locals) (a : Element) :
  required_nodes a = true ->
  year_readable a = true ->
  seq_bound (seq_var st) a = true ->
  exists st' r rows,
    scrape_article html_unescape st a = Ok st' /\
    publication_df st' = publication_df st ++ [r] /\
    paa_df st' = paa_df st ++ rows /\
    (descend ["MedlineCitation"; "Article"; "Pagination"] a = None ->
     Pub.Pages r = PNone) /\
    (descend ["MedlineCitation"; "Article"; "Journal"; "Title"] a = None ->
     Pub.JournalId r = PStr "") /\
    (descend ["MedlineCitation"; "Article"; "Journal"; "JournalIssue"; "Volume"] a
     = None -> Pub.Volume r = PNone) /\
    (descend ["MedlineCitation"; "Article"; "Journal"; "ISSN"] a = None ->
     Pub.ISSN r = PStr "") /\
    (pubdate_of a = None ->
     Pub.Year r = PInt 0 /\ Pub.Month r = PInt 1 /\ Pub.Day r = PInt 1) /\
    (find [child "PubmedData"; child "ArticleIdList"] a = None ->
     Pub.Doi r = PStr "") /\
    Forall2 names_default (authors_of a) rows.
Proof.
  intros Hreq Hyear Hseq.
  destruct (scrape_article_ok html_unescape st a Hreq Hyear Hseq)
    as (st' & r & rows & Hrun & Hpub & Hpaa & _ & Hrest).
  exists st', r, rows. tauto.
Qed.

Lemma optional_absence_defaults_witness :
  exists st' r rows,
    scrape_article (fun s => s) fresh_locals article_without_pmid = Ok st' /\
    publication_df st' = publication_df fresh_locals ++ [r] /\
    paa_df st' = paa_df fresh_locals ++ rows /\
    (descend ["MedlineCitation"; "Article"; "Pagination"] article_without_pmid = None ->
     Pub.Pages r = PNone) /\
    (descend ["MedlineCitation"; "Article"; "Journal"; "Title"] article_without_pmid
     = None -> Pub.JournalId r = PStr "") /\
    (descend ["MedlineCitation"; "Article"; "Journal"; "JournalIssue"; "Volume"]
       article_without_pmid = None -> Pub.Volume r = PNone) /\
    (descend ["MedlineCitation"; "Article"; "Journal"; "ISSN"] article_without_pmid
     = None -> Pub.ISSN r = PStr "") /\
    (pubdate_of article_without_pmid = None ->
     Pub.Year r = PInt 0 /\ Pub.Month r = PInt 1 /\ Pub.Day r = PInt 1) /\
    (find [child "PubmedData"; child "ArticleIdList"] article_without_pmid = None ->
     Pub.Doi r = PStr "") /\
    Forall2 names_default (authors_of article_without_pmid) rows.
Proof.
  apply (optional_absence_defaults (fun s => s) fresh_locals article_without_pmid);
    reflexivity.
Defined.

(** C3 as stated fails: [Article] and [JournalIssue] are read without a
    guard, and an entry that lacks one of them makes the extraction raise. *)
Lemma absent_Article_raises :
  scrape_article (fun s => s) fresh_locals article_without_Article
  = Raise AttributeError /\
  scrape_article (fun s => s) fresh_locals article_without_JournalIssue
  = Raise AttributeError.
Proof. split; reflexivity. Qed.

(** A history date without a readable year makes the comparison
    [pub_record['Year'] > 0] raise: the year is [None] there. *)
Example yearless_date_raises :
  scrape_article (fun s => s) fresh_locals article_with_yearless_date
  = Raise TypeError.
Proof. reflexivity. Qed.

(** C6.  The record of an article entry without its id node does not
    carry the sentinel 0.  The entry is not dropped, but the id of its
    record is [None], the result of [load_int] on the empty text: the
    default 0 of [_blank_pubmed_publication] is never used, as
    [preprocess] always passes an id.  The writer cannot cast such an id
    column, so [preprocess] raises on the shard of the entry and writes
    none of its partitions. *)
Theorem absent_id_stops_the_run :
  (exists st r,
     scrape_article (fun s => s) fresh_locals idless_article = Ok st /\
     publication_df st = [r] /\
     Pub.PublicationId r = PNone /\
     Pub.PublicationId r <> PInt 0) /\
  exists e,
    preprocess (fun s => s) idless_directory false empty_fs = (Raise e, empty_fs).
Proof.
  split.
  - vm_compute. do 2 eexists. split_and!; [reflexivity | reflexivity | reflexivity |].
    discriminate.
  - vm_compute. eexists. reflexivity.
Qed.

(** ** The writer *)

Lemma res_map_ok {A B} (f : A -> Res B) (g : A -> B) (l : list A) :
  Forall (fun x => f x = Ok (g x)) l -> res_map f l = Ok (g <$> l).
Proof.
  induction 1 as [| x l Hx _ IH]; [done |].
  cbn [res_map]. rewrite Hx, IH. done.
Qed.

Lemma res_map_inv {A B} (f : A -> Res B) (l : list A) (l' : list B) :
  res_map f l = Ok l' -> Forall (fun x => is_ok (f x) = true) l.
Proof.
  revert l'. induction l as [| x l IH]; intros l' H; [constructor |].
  cbn [res_map] in H. destruct (f x) eqn:Hx; [| done]. cbn in H.
  destruct (res_map f l) eqn:Hl; [| done].
  constructor; [by rewrite Hx | by eapply IH].
Qed.

(** A cast of one column, when every value of the column can be cast. *)
Lemma astype_int_ok {R} (get : R -> PyVal) (set : PyVal -> R -> R) (df : list R) :
  Forall (fun r => is_ok (astype_int64 (get r)) = true) df ->
  astype_int get set df = Ok ((fun r => set (as_int (get r)) r) <$> df).
Proof.
  intros H. apply res_map_ok. eapply Forall_impl; [exact H |].
  intros r Hr. cbn beta in *. unfold as_int. by destruct (astype_int64 (get r)).
Qed.

Lemma to_numeric_ok {R} (get : R -> PyVal) (set : PyVal -> R -> R) (df : list R) :
  Forall (fun r => is_ok (to_numeric_val (get r)) = true) df ->
  to_numeric get set df = Ok ((fun r => set (as_numeric (get r)) r) <$> df).
Proof.
  intros H. apply res_map_ok. eapply Forall_impl; [exact H |].
  intros r Hr. cbn beta in *. unfold as_numeric. by destruct (to_numeric_val (get r)).
Qed.

Lemma astype_int_inv {R} (get : R -> PyVal) (set : PyVal -> R -> R) (df df' : list R) :
  astype_int get set df = Ok df' ->
  Forall (fun r => is_ok (astype_int64 (get r)) = true) df /\
  df' = (fun r => set (as_int (get r)) r) <$> df.
Proof.
  intros H. assert (Hall : Forall (fun r => is_ok (astype_int64 (get r)) = true) df).
  { apply res_map_inv in H. eapply Forall_impl; [exact H |].
    intros r Hr. cbn beta in *. by destruct (astype_int64 (get r)). }
  split; [done |]. rewrite (astype_int_ok _ _ _ Hall) in H. by injection H.
Qed.

Lemma to_numeric_inv {R} (get : R -> PyVal) (set : PyVal -> R -> R) (df df' : list R) :
  to_numeric get set df = Ok df' ->
  Forall (fun r => is_ok (to_numeric_val (get r)) = true) df /\
  df' = (fun r => set (as_numeric (get r)) r) <$> df.
Proof.
  intros H. assert (Hall : Forall (fun r => is_ok (to_numeric_val (get r)) = true) df).
  { apply res_map_inv in H. eapply Forall_impl; [exact H |].
    intros r Hr. cbn beta in *. by destruct (to_numeric_val (get r)). }
  split; [done |]. rewrite (to_numeric_ok _ _ _ Hall) in H. by injection H.
Qed.

(** The six casts of the publication frame return the cast records when
    every record can be cast. *)
Lemma cast_publication_df_ok (df : list Pub.t) :
  df <> [] ->
  Forall (fun r => castable r = true) df ->
  cast_publication_df df = Ok (coerce_pub <$> df).
Proof.
  intros Hne Hc. unfold cast_publication_df. destruct df as [| r0 df0]; [done |].
  set (df := r0 :: df0) in *. clearbody df. clear Hne r0 df0.
  assert (Hall : Forall (fun r =>
            is_ok (astype_int64 (Pub.PublicationId r)) = true /\
            is_ok (astype_int64 (Pub.Year r)) = true /\
            is_ok (astype_int64 (Pub.Month r)) = true /\
            is_ok (astype_int64 (Pub.Day r)) = true /\
            is_ok (to_numeric_val (Pub.Volume r)) = true /\
            is_ok (astype_int64 (Pub.TeamSize r)) = true) df).
  { eapply Forall_impl; [exact Hc |]. intros r Hr. unfold castable in Hr.
    repeat (apply andb_true_iff in Hr as [Hr ?]). by split_and!. }
  clear Hc.
  rewrite (astype_int_ok Pub.PublicationId);
    [| eapply Forall_impl; [exact Hall |]; intros r Hr; apply Hr].
  cbn [mbind Res_bind].
  rewrite (astype_int_ok Pub.Year);
    [| rewrite Forall_fmap; eapply Forall_impl; [exact Hall |];
       intros r Hr; apply Hr].
  cbn [mbind Res_bind].
  rewrite (astype_int_ok Pub.Month);
    [| rewrite !Forall_fmap; eapply Forall_impl; [exact Hall |];
       intros r Hr; apply Hr].
  cbn [mbind Res_bind].
  rewrite (astype_int_ok Pub.Day);
    [| rewrite !Forall_fmap; eapply Forall_impl; [exact Hall |];
       intros r Hr; apply Hr].
  cbn [mbind Res_bind].
  rewrite (to_numeric_ok Pub.Volume);
    [| rewrite !Forall_fmap; eapply Forall_impl; [exact Hall |];
       intros r Hr; apply Hr].
  cbn [mbind Res_bind].
  rewrite (astype_int_ok Pub.TeamSize);
    [| rewrite !Forall_fmap; eapply Forall_impl; [exact Hall |];
       intros r Hr; apply Hr].
  f_equal. rewrite <- !list_fmap_compose.
  apply list_fmap_ext. intros _ r _. by destruct r.
Qed.

(** The casts return only on frames whose records can all be cast. *)
Lemma cast_publication_df_inv (df df' : list Pub.t) :
  cast_publication_df df = Ok df' ->
  df <> [] /\ Forall (fun r => castable r = true) df.
Proof.
  unfold cast_publication_df. destruct df as [| r0 df0]; [done |].
  set (df := r0 :: df0) in *. intros H. split; [done |]. clearbody df.
  destruct (astype_int Pub.PublicationId _ df) as [d1 |] eqn:E1; [| done].
  apply astype_int_inv in E1 as [H1 ->]. cbn [mbind Res_bind] in H.
  destruct (astype_int Pub.Year _ _) as [d2 |] eqn:E2; [| done].
  apply astype_int_inv in E2 as [H2 ->]. cbn [mbind Res_bind] in H.
  destruct (astype_int Pub.Month _ _) as [d3 |] eqn:E3; [| done].
  apply astype_int_inv in E3 as [H3 ->]. cbn [mbind Res_bind] in H.
  destruct (astype_int Pub.Day _ _) as [d4 |] eqn:E4; [| done].
  apply astype_int_inv in E4 as [H4 ->]. cbn [mbind Res_bind] in H.
  destruct (to_numeric Pub.Volume _ _) as [d5 |] eqn:E5; [| done].
  apply to_numeric_inv in E5 as [H5 ->]. cbn [mbind Res_bind] in H.
  apply astype_int_inv in H as [H6 _].
  rewrite !Forall_fmap in H2. rewrite !Forall_fmap in H3.
  rewrite !Forall_fmap in H4. rewrite !Forall_fmap in H5.
  rewrite !Forall_fmap in H6.
  apply Forall_forall. intros r Hr.
  rewrite Forall_forall in H1, H2, H3, H4, H5, H6.
  specialize (H1 r Hr). specialize (H2 r Hr). specialize (H3 r Hr).
  specialize (H4 r Hr). specialize (H5 r Hr). specialize (H6 r Hr).
  destruct r. cbn in *. unfold castable. cbn.
  by rewrite H1, H2, H3, H4, H5, H6.
Qed.

Lemma exact_int_int64 (z : Z) : exact_int z = true -> int64_cast z = Ok z.
Proof.
  unfold exact_int, int64_cast, int64_wrap.
  intros [H1 H2]%andb_true_iff. apply Z.leb_le in H1. apply Z.leb_le in H2.
  change (2 ^ 53) with 9007199254740992 in *.
  change (2 ^ 63) with 9223372036854775808.
  change (2 ^ 64) with 18446744073709551616.
  replace (z <? - (9223372036854775808)) with false by (symmetry; apply Z.ltb_ge; lia).
  replace (18446744073709551616 <=? z) with false by (symmetry; apply Z.leb_gt; lia).
  replace (z <? 9223372036854775808) with true by (symmetry; apply Z.ltb_lt; lia).
  done.
Qed.

(** The frame constructor keeps a column of plain cells as it is. *)
Lemma coerce_column_plain (rs : list (list PyVal)) (j : nat) :
  Forall (Forall (fun v => plain_cell v = true)) rs ->
  coerce_column rs j = Ok rs.
Proof.
  intros Hplain. unfold coerce_column.
  destruct (mapM cell_int (column j rs)) as [zs |] eqn:E; [| done].
  apply mapM_Some in E.
  enough (H : res_map int64_cast zs = Ok zs /\ set_column j (PInt <$> zs) rs = rs).
  { destruct H as [H1 H2]. rewrite H1. cbn [mbind Res_bind]. by rewrite H2. }
  revert zs E. induction Hplain as [| r rs Hr _ IH]; intros zs E.
  - apply Forall2_nil_inv_l in E as ->. done.
  - unfold column in E. rewrite fmap_cons in E.
    apply Forall2_cons_inv_l in E as (z & zs' & Hz & E & ->).
    destruct (IH zs' E) as [Hcast Hset].
    destruct (r !! j) as [v |] eqn:Hv; [| done]. cbn [default] in Hz.
    destruct v as [| z' |]; try done. injection Hz as ->.
    assert (Hexact : exact_int z = true).
    { rewrite Forall_forall in Hr. apply (Hr (PInt z)).
      by eapply list_elem_of_lookup_2. }
    split.
    + cbn [res_map]. rewrite (exact_int_int64 _ Hexact), Hcast. done.
    + unfold set_column in *. cbn [fmap list_fmap zip_with].
      rewrite (list_insert_id _ _ _ Hv). f_equal. exact Hset.
Qed.

(** The frame constructor accepts rows of the right length, and stores
    rows of plain cells as they are. *)
Lemma DataFrame_plain (data : list (list PyVal)) (cols : list string) :
  Forall (fun r => length r = length cols) data ->
  Forall (Forall (fun v => plain_cell v = true)) data ->
  DataFrame data cols = Ok (frame cols data).
Proof.
  intros H Hplain. unfold DataFrame.
  replace (forallb _ data) with true.
  - assert (Hall : forall js, for_each coerce_column js data = Ok data).
    { induction js as [| j js IH]; [done |].
      cbn [for_each]. rewrite coerce_column_plain by done. exact IH. }
    rewrite Hall. done.
  - symmetry. apply forallb_forall. intros r Hr%list_elem_of_In.
    rewrite Forall_forall in H. apply Nat.eqb_eq. by apply H.
Qed.

(** A record that is stored unchanged passes the casts, which leave it
    as it is. *)
Lemma storable_castable (r : Pub.t) :
  storable r = true -> castable r = true /\ coerce_pub r = r.
Proof.
  unfold storable, castable, coerce_pub, as_int, as_numeric.
  destruct r as [id ti ye vo iss pa jo ts mo da isn doi]. cbn.
  rewrite !andb_true_iff. intros [[[[[[H1 H2] H3] H4] H5] H6] _].
  assert (Hint : forall v, int_cell v = true -> astype_int64 v = Ok match v with PInt z => z | _ => 0 end /\ exists z, v = PInt z).
  { intros [| z |] Hv; try done. unfold astype_int64. cbn.
    rewrite (exact_int_int64 _ Hv). eauto. }
  destruct (Hint _ H1) as [-> [? ->]], (Hint _ H2) as [-> [? ->]],
    (Hint _ H3) as [-> [? ->]], (Hint _ H4) as [-> [? ->]],
    (Hint _ H6) as [-> [? ->]].
  by destruct vo.
Qed.





(** The volume column of an extracted record holds a result of
    [load_int]: an integer or a null, never text. *)
Lemma scrape_article_Volume (html_unescape : string -> string)
    (st st' : Locals) (a : Element) :
  scrape_article html_unescape st a = Ok st' ->
  exists r, publication_df st' = publication_df st ++ [r] /\
            (Pub.Volume r = PNone \/ exists z, Pub.Volume r = PInt z).
Proof.
  intros (r & rows & Hpub & _ & _ & Hvol & _)%scrape_article_inv. eauto.
Qed.

(** ** Dictionaries *)

Section DictFacts.
Context {K V : Type} `{EqDecision K}.
Implicit Types (d : dict K V) (k : K) (v : V).

Lemma dict_get_set_eq d k v : dict_get k (dict_set k v d) = Some v.
Proof.
  induction d as [| [k' v'] d IH]; cbn [dict_set dict_get].
  - by rewrite decide_True.
  - destruct (decide (k = k')); cbn [dict_get].
    + by rewrite decide_True.
    + by rewrite decide_False.
Qed.

Lemma dict_get_set_ne d k k' v : k <> k' -> dict_get k' (dict_set k v d) = dict_get k' d.
Proof.
  intros Hne. induction d as [| [k0 v0] d IH]; cbn [dict_set dict_get].
  - by rewrite decide_False.
  - destruct (decide (k = k0)) as [-> |]; cbn [dict_get].
    + by rewrite !decide_False.
    + by rewrite IH.
Qed.

(** An assignment leaves the keys as they are, or adds the new key at the
    end. *)
Lemma dict_set_keys d k v :
  (dict_set k v d).*1 = if decide (k ∈ d.*1) then d.*1 else d.*1 ++ [k].
Proof.
  induction d as [| [k' v'] d IH]; cbn [dict_set fmap list_fmap fst].
  - by rewrite decide_False by apply not_elem_of_nil.
  - change (list_fmap _ _ fst ?l) with (l.*1) in *.
    destruct (decide (k = k')) as [-> |].
    + by rewrite decide_True by apply list_elem_of_here.
    + cbn [fmap list_fmap fst]. change (list_fmap _ _ fst ?l) with (l.*1).
      rewrite IH. destruct (decide (k ∈ d.*1)).
      * by rewrite decide_True by by apply list_elem_of_further.
      * rewrite decide_False; [done |].
        by intros [? | ?]%elem_of_cons.
Qed.

Lemma dict_set_NoDup d k v : NoDup d.*1 -> NoDup (dict_set k v d).*1.
Proof.
  intros Hd. rewrite dict_set_keys. destruct (decide (k ∈ d.*1)); [done |].
  apply NoDup_app. split_and!; [done | | apply NoDup_singleton].
  by intros x Hx ->%list_elem_of_singleton.
Qed.

Lemma dict_get_Some_key d k v : dict_get k d = Some v -> k ∈ d.*1.
Proof.
  induction d as [| [k' v'] d IH]; cbn [dict_get]; [done |].
  destruct (decide (k = k')) as [-> | ?]; intros H.
  - apply list_elem_of_here.
  - apply list_elem_of_further. by apply IH.
Qed.

Lemma dict_filter_absent d k :
  k ∉ d.*1 -> List.filter (fun kv => bool_decide (kv.1 = k)) d = [].
Proof.
  induction d as [| [k0 v0] d IH]; [done |].
  cbn [fmap list_fmap fst List.filter]. intros [Hne Hk]%not_elem_of_cons.
  rewrite bool_decide_eq_false_2 by done. by apply IH.
Qed.

(** In a dictionary a key that is present has exactly one entry. *)
Lemma dict_count_NoDup d k : NoDup d.*1 -> k ∈ d.*1 -> dict_count k d = 1%nat.
Proof.
  unfold dict_count. induction d as [| [k' v'] d IH]; intros Hd Hk.
  - by apply not_elem_of_nil in Hk.
  - cbn [fmap list_fmap fst] in Hd, Hk.
    change (list_fmap _ _ fst ?l) with (l.*1) in *.
    apply NoDup_cons in Hd as [Hk' Hd].
    cbn [List.filter fst]. destruct (decide (k' = k)) as [-> | Hne].
    + rewrite bool_decide_eq_true_2 by done. cbn [length].
      by rewrite dict_filter_absent.
    + rewrite bool_decide_eq_false_2 by done.
      apply IH; [done |]. by apply elem_of_cons in Hk as [-> | ?].
Qed.
End DictFacts.

(** The last observation of an id, after one more observation. *)
Lemma last_observation_snoc (ui : string) (obs : list (string * (string * string)))
    (o : string * (string * string)) :
  last_observation ui (obs ++ [o])
  = if String.eqb o.1 ui then Some o.2 else last_observation ui obs.
Proof.
  unfold last_observation. rewrite List.filter_app. cbn [List.filter].
  destruct (String.eqb o.1 ui).
  - by rewrite last_snoc.
  - by rewrite app_nil_r.
Qed.

Lemma last_observation_Some (ui : string) (obs : list (string * (string * string))) :
  ui ∈ obs.*1 -> is_Some (last_observation ui obs).
Proof.
  induction obs as [| o obs IH] using rev_ind; [by intros ?%not_elem_of_nil |].
  rewrite fmap_app, last_observation_snoc. cbn [fmap list_fmap].
  intros [Hin | ->%list_elem_of_singleton]%elem_of_app.
  - destruct (String.eqb o.1 ui); [by eexists | by apply IH].
  - rewrite String.eqb_refl. by eexists.
Qed.

(** The accumulator after a sequence of observations: its keys stay
    unique, and an observed id maps to its last observation. *)
Lemma observe_fold (obs : list (string * (string * string)))
    (d : dict string (string * string)) :
  NoDup d.*1 ->
  NoDup (fold_left observe obs d).*1 /\
  forall ui,
    dict_get ui (fold_left observe obs d)
    = match last_observation ui obs with
      | Some v => Some v
      | None => dict_get ui d
      end.
Proof.
  intros Hd. induction obs as [| o obs [IHn IHg]] using rev_ind; [done |].
  rewrite fold_left_app. cbn [fold_left]. unfold observe at 1 3. split.
  - by apply dict_set_NoDup.
  - intros ui. rewrite last_observation_snoc.
    destruct (String.eqb o.1 ui) eqn:E.
    + apply String.eqb_eq in E as <-. apply dict_get_set_eq.
    + apply String.eqb_neq in E. rewrite dict_get_set_ne by done. apply IHg.
Qed.

(** ** The shard loop *)

Section Run.

Variable html_unescape : string -> string.

(** The accumulators after the article loop of a shard. *)
Lemma article_loop_inv (arts : list Element) (st st' : Locals) :
  for_each (scrape_article html_unescape) arts st = Ok st' ->
  pub2year st' = fold_left year_entry arts (pub2year st) /\
  fieldinfo st'
  = fold_left observe (flat_map article_observations arts) (fieldinfo st).
Proof.
  revert st. induction arts as [| a arts IH]; intros st H.
  - by injection H as <-.
  - cbn [for_each] in H.
    destruct (scrape_article html_unescape st a) as [st1 |] eqn:Ha; [| done].
    cbn [mbind Res_bind] in H. apply IH in H as [-> ->].
    apply scrape_article_inv in Ha
      as (r & rows & _ & _ & _ & _ & -> & -> & _).
    cbn [fold_left flat_map]. by rewrite fold_left_app.
Qed.

Lemma scrape_shard_inv (xmltree : Element) (st st' : Locals) :
  scrape_shard html_unescape st xmltree = Ok st' ->
  pub2year st' = fold_left year_entry (all_pubmed_articles xmltree) (pub2year st) /\
  fieldinfo st'
  = fold_left observe (flat_map article_observations (all_pubmed_articles xmltree))
              (fieldinfo st).
Proof. unfold scrape_shard. by intros H%article_loop_inv. Qed.

(** The writer touches the partitions of its own index only. *)
Lemma save_dataframes_other (ifile j : nat) (pubs : list Pub.t) (paas : list Author.t)
    (p2r p2f : list (list PyVal)) (fs fs' : FS) (r : Res unit) :
  _save_dataframes ifile pubs paas p2r p2f fs = (r, fs') ->
  ifile <> j ->
  partitions_at fs' j = partitions_at fs j /\
  fieldinfo_hdf fs' = fieldinfo_hdf fs /\
  pub2year_json_gz fs' = pub2year_json_gz fs.
Proof.
  unfold _save_dataframes, partitions_at. intros H Hne.
  destruct (cast_publication_df pubs); [| by injection H as _ <-].
  destruct paas;
    [injection H as _ <-; cbn; by rewrite lookup_insert_ne |].
  destruct (DataFrame p2f _);
    [| injection H as _ <-; cbn; by rewrite !lookup_insert_ne].
  destruct (DataFrame p2r _);
    injection H as _ <-; cbn; by rewrite !lookup_insert_ne.
Qed.

(** A run over shards that are all marked as done skips every one of
    them: nothing is parsed, the locals and the store are untouched. *)
Lemma process_shards_skip (xmlfiles : list (option Element)) (ifile : nat)
    (st : Locals) (fs : FS) :
  (forall k, (k < length xmlfiles)%nat -> is_Some (publication_hdf fs !! (ifile + k)%nat)) ->
  process_shards html_unescape false ifile xmlfiles st fs = (Ok st, fs).
Proof.
  revert ifile. induction xmlfiles as [| x rest IH]; intros ifile Hdone; [done |].
  cbn [process_shards negb andb]. unfold isfile_publication.
  rewrite bool_decide_eq_true_2.
  - apply IH. intros k Hk. replace (S ifile + k)%nat with (ifile + S k)%nat by lia.
    apply Hdone. cbn [length]. lia.
  - replace ifile with (ifile + 0)%nat by lia. apply Hdone. cbn [length]. lia.
Qed.

Lemma parsed_shards_skip (xmlfiles : list (option Element)) (ifile : nat) (fs : FS) :
  (forall k, (k < length xmlfiles)%nat -> is_Some (publication_hdf fs !! (ifile + k)%nat)) ->
  parsed_shards false fs ifile xmlfiles = [].
Proof.
  revert ifile. induction xmlfiles as [| x rest IH]; intros ifile Hdone; [done |].
  cbn [parsed_shards negb andb]. unfold isfile_publication.
  rewrite bool_decide_eq_true_2.
  - apply IH. intros k Hk. replace (S ifile + k)%nat with (ifile + S k)%nat by lia.
    apply Hdone. cbn [length]. lia.
  - replace ifile with (ifile + 0)%nat by lia. apply Hdone. cbn [length]. lia.
Qed.

(** The accumulators of a run that returns hold the entries of the shards
    it parsed, in processing order.  [fs0] is the store the run started
    from: the skip test of shard [i] reads a store that differs from it at
    indices below [i] only. *)
Lemma process_shards_inv (rewrite_existing : bool) (fs0 : FS)
    (xmlfiles : list (option Element)) (ifile : nat) (st st' : Locals) (fs fs' : FS) :
  process_shards html_unescape rewrite_existing ifile xmlfiles st fs = (Ok st', fs') ->
  (forall j, (ifile <= j)%nat -> publication_hdf fs !! j = publication_hdf fs0 !! j) ->
  let parsed := articles_of (parsed_shards rewrite_existing fs0 ifile xmlfiles) in
  pub2year st' = fold_left year_entry parsed (pub2year st) /\
  fieldinfo st' = fold_left observe (flat_map article_observations parsed) (fieldinfo st).
Proof.
  revert ifile st fs. induction xmlfiles as [| x rest IH]; intros ifile st fs H Hfs.
  - by injection H as <- <-.
  - cbn [process_shards parsed_shards] in *.
    assert (Hsame : isfile_publication ifile fs = isfile_publication ifile fs0).
    { unfold isfile_publication. by rewrite Hfs. }
    rewrite <- Hsame.
    destruct (negb rewrite_existing && isfile_publication ifile fs).
    + apply IH in H; [done |]. intros j Hj. apply Hfs. lia.
    + destruct x as [xmltree |]; [| done].
      destruct (scrape_shard html_unescape st xmltree) as [st1 |] eqn:Hs; [| done].
      destruct (_save_dataframes _ _ _ _ _ fs) as [[[] | e] fs1] eqn:Hw; [| done].
      apply IH in H.
      * apply scrape_shard_inv in Hs as [Hy Hf].
        destruct H as [-> ->]. rewrite Hy, Hf.
        unfold articles_of. cbn [flat_map].
        by rewrite flat_map_app, !fold_left_app.
      * intros j Hj. rewrite <- Hfs by lia.
        eapply save_dataframes_other in Hw as [[= -> _ _ _] _]; [done | lia].
Qed.

(** Without the rewrite flag, a run leaves alone the partitions of every
    shard index whose publication partition exists when it starts, whether
    it returns or raises; so does the vocabulary store. *)
Lemma process_shards_frame (xmlfiles : list (option Element)) (ifile : nat)
    (st : Locals) (fs fs' : FS) (r : Res Locals) :
  process_shards html_unescape false ifile xmlfiles st fs = (r, fs') ->
  (forall i, is_Some (publication_hdf fs !! i) ->
             partitions_at fs' i = partitions_at fs i) /\
  fieldinfo_hdf fs' = fieldinfo_hdf fs.
Proof.
  revert ifile st fs. induction xmlfiles as [| x rest IH]; intros ifile st fs H.
  - by injection H as _ <-.
  - cbn [process_shards negb andb] in H.
    destruct (isfile_publication ifile fs) eqn:Hdone; [by apply IH in H |].
    destruct x as [xmltree |]; [| by injection H as _ <-].
    destruct (scrape_shard html_unescape st xmltree) as [st1 |];
      [| by injection H as _ <-].
    assert (Hnew : publication_hdf fs !! ifile = None).
    { unfold isfile_publication in Hdone. apply bool_decide_eq_false in Hdone.
      by apply eq_None_not_Some. }
    destruct (_save_dataframes _ _ _ _ _ fs) as [[[] | e] fs1] eqn:Hw.
    + apply IH in H as [Hparts Hfi]. split.
      * intros i Hi. assert (ifile <> i) by (intros ->; by rewrite Hnew in Hi).
        destruct (save_dataframes_other _ i _ _ _ _ _ _ _ Hw) as (Hi1 & _); [done |].
        rewrite <- Hi1. apply Hparts.
        injection Hi1 as -> _ _ _. done.
      * rewrite Hfi. by eapply save_dataframes_other with (j := S ifile) in Hw as (_ & ? & _).
    + injection H as _ <-. split.
      * intros i Hi. assert (ifile <> i) by (intros ->; by rewrite Hnew in Hi).
        by eapply save_dataframes_other in Hw as (? & _).
      * by eapply save_dataframes_other with (j := S ifile) in Hw as (_ & ? & _).
Qed.

End Run.

(** ** Re-invocation *)

Lemma shards_done_spec (fs : FS) (n : nat) :
  shards_done fs n = true ->
  forall k, (k < n)%nat -> is_Some (publication_hdf fs !! (0 + k)%nat).
Proof.
  unfold shards_done. rewrite forallb_forall. intros H k Hk.
  specialize (H k). unfold isfile_publication in H.
  cbn [Nat.add]. eapply bool_decide_eq_true_1, H. apply in_seq. lia.
Qed.

(** C4.  When the publication partition of every shard index exists and
    the rewrite flag is false, [preprocess] skips every shard: it returns
    whatever the shard files contain (no file is parsed, a file that would
    not parse goes unnoticed), and it leaves every partition file of every
    record kind, and the vocabulary store, as they were.  The year index
    is the one file it writes. *)
Theorem rerun_leaves_partitions (html_unescape : string -> string)
    (xml_directory : list (string * option Element)) (fs : FS) :
  shards_done fs (length (xmlfiles_of xml_directory)) = true ->
  preprocess html_unescape xml_directory false fs
  = (Ok tt,
     mkFS (publication_hdf fs) (publicationauthoraffiliation_hdf fs)
          (pub2field_hdf fs) (pub2ref_hdf fs) (fieldinfo_hdf fs) (Some [])).
Proof.
  intros Hdone. unfold preprocess.
  rewrite process_shards_skip by by apply shards_done_spec.
  reflexivity.
Qed.

Lemma rerun_leaves_partitions_witness :
  preprocess (fun s => s) scenario_directory false scenario_store
  = (Ok tt,
     mkFS (publication_hdf scenario_store)
          (publicationauthoraffiliation_hdf scenario_store)
          (pub2field_hdf scenario_store) (pub2ref_hdf scenario_store)
          (fieldinfo_hdf scenario_store) (Some [])).
Proof.
  apply (rerun_leaves_partitions (fun s => s) scenario_directory scenario_store).
  vm_compute. reflexivity.
Defined.

(** The same holds shard by shard for a partly processed set: without
    the rewrite flag, whether the call returns or raises, the partitions of
    a shard index whose publication partition exists are as they were. *)
Lemma resumed_run_leaves_done_shards (html_unescape : string -> string)
    (xml_directory : list (string * option Element)) (fs fs' : FS) (r : Res unit) :
  preprocess html_unescape xml_directory false fs = (r, fs') ->
  (forall i, is_Some (publication_hdf fs !! i) ->
             partitions_at fs' i = partitions_at fs i) /\
  fieldinfo_hdf fs' = fieldinfo_hdf fs.
Proof.
  unfold preprocess. intros H.
  destruct (process_shards _ _ _ _ _ fs) as [[st | e] fs1] eqn:Hrun.
  - apply process_shards_frame in Hrun as [Hparts Hfi].
    unfold save_globals in H. by injection H as _ <-.
  - apply process_shards_frame in Hrun. by injection H as _ <-.
Qed.

(** C9.  A call of [preprocess] that returns has overwritten the year
    index with the entries of the articles of the shards parsed in this
    call, whatever the file held before; a call that skips every shard
    leaves the empty mapping. *)
Theorem year_index_overwritten (html_unescape : string -> string)
    (xml_directory : list (string * option Element)) (rewrite_existing : bool)
    (fs fs' : FS) :
  preprocess html_unescape xml_directory rewrite_existing fs = (Ok tt, fs') ->
  pub2year_json_gz fs'
  = Some (fold_left year_entry
            (articles_of (parsed_shards rewrite_existing fs 0 (xmlfiles_of xml_directory)))
            []) /\
  (rewrite_existing = false ->
   shards_done fs (length (xmlfiles_of xml_directory)) = true ->
   pub2year_json_gz fs' = Some []).
Proof.
  unfold preprocess. intros H.
  destruct (process_shards _ _ _ _ _ fs) as [[st | e] fs1] eqn:Hrun; [| done].
  apply process_shards_inv with (fs0 := fs) in Hrun as [Hy _]; [| done].
  cbn [pub2year fresh_locals] in Hy.
  assert (Hfile : pub2year_json_gz fs' = Some (pub2year st)).
  { unfold save_globals in H. destruct rewrite_existing.
    - destruct (DataFrame _ _); [| done]. by injection H as <-.
    - by injection H as <-. }
  rewrite Hfile, Hy. split; [done |].
  intros -> Hdone. by rewrite parsed_shards_skip by by apply shards_done_spec.
Qed.

Lemma year_index_overwritten_witness :
  pub2year_json_gz scenario_store
  = Some (fold_left year_entry
            (articles_of (parsed_shards true empty_fs 0 (xmlfiles_of scenario_directory)))
            []) /\
  (true = false ->
   shards_done empty_fs (length (xmlfiles_of scenario_directory)) = true ->
   pub2year_json_gz scenario_store = Some []).
Proof.
  apply (year_index_overwritten (fun s => s) scenario_directory true empty_fs
           scenario_store).
  vm_compute. reflexivity.
Defined.

(** The year index of the scenario, and of its re-invocation. *)
Example year_index_scenario :
  pub2year_json_gz scenario_store = Some [(PInt 100, PInt 2001)] /\
  pub2year_json_gz
    (preprocess (fun s => s) scenario_directory false scenario_store).2 = Some [].
Proof. split; vm_compute; reflexivity. Qed.

(** ** The vocabulary accumulator *)

(** C5.  At the end of a run that returns, every field id observed in
    the shards of the run has exactly one entry in the vocabulary
    accumulator, and the entry is the (name, type) pair of the observation
    executed last, however many shards observed the id and under whatever
    names. *)
Theorem vocabulary_last_write_wins (html_unescape : string -> string)
    (xml_directory : list (string * option Element)) (rewrite_existing : bool)
    (fs fs' : FS) (st : Locals) :
  process_shards html_unescape rewrite_existing 0 (xmlfiles_of xml_directory)
                 fresh_locals fs = (Ok st, fs') ->
  let obs :=
    flat_map article_observations
      (articles_of (parsed_shards rewrite_existing fs 0 (xmlfiles_of xml_directory))) in
  forall ui,
    ui ∈ obs.*1 ->
    dict_count ui (fieldinfo st) = 1%nat /\
    exists v, last_observation ui obs = Some v /\
              dict_get ui (fieldinfo st) = Some v.
Proof.
  intros Hrun obs ui Hui.
  apply process_shards_inv with (fs0 := fs) in Hrun as [_ Hf]; [| done].
  cbn [fieldinfo fresh_locals] in Hf. fold obs in Hf.
  destruct (observe_fold obs []) as [Hnd Hget]; [constructor |].
  destruct (last_observation_Some ui obs Hui) as [v Hv].
  specialize (Hget ui). rewrite Hv in Hget. rewrite <- Hf in Hget, Hnd.
  split; [| by exists v].
  apply dict_count_NoDup; [done |]. by eapply dict_get_Some_key.
Qed.

Lemma vocabulary_last_write_wins_witness :
  dict_count "D000001" (fieldinfo two_shard_locals) = 1%nat /\
  exists v,
    last_observation "D000001"
      (flat_map article_observations
         (articles_of (parsed_shards true empty_fs 0 (xmlfiles_of two_shard_directory))))
    = Some v /\
    dict_get "D000001" (fieldinfo two_shard_locals) = Some v.
Proof.
  apply (vocabulary_last_write_wins (fun s => s) two_shard_directory true empty_fs
           two_shard_store two_shard_locals).
  - vm_compute. reflexivity.
  - vm_compute. apply list_elem_of_here.
Defined.

(** The two shards of the example observe [D000001] as "Calcimycin" and
    then as "A-23187": one entry, with the later name. *)
Example vocabulary_two_shards :
  fieldinfo two_shard_locals = [("D000001", ("A-23187", "mesh"))].
Proof. vm_compute. reflexivity. Qed.

(** ** The loader *)

(** The citation loader raises as soon as [glob] has returned a file: the
    name [ignore_indexTrue] is not bound. *)
Lemma load_pub2ref_raises (fs : FS) (i : nat) (l : list nat) :
  is_Some (pub2ref_hdf fs !! i) ->
  load_pub2ref fs (i :: l) = Raise NameError.
Proof.
  intros [df Hi]. unfold load_pub2ref. cbn [for_each].
  unfold read_hdf. by rewrite Hi.
Qed.

(** C8.  Neither loader concatenates anything.  The loop header of the
    authorship loader reads [show_progress], a name that
    [parse_publicationauthoraffiliation] does not bind: the loader raises
    [NameError] whatever [glob] has listed.  The citation loader raises
    [NameError] on the first partition it has read.  On the store of the
    two-shard run, with the partitions of both shards listed in ascending
    order, neither loader returns a table. *)
Theorem loaders_raise_NameError :
  (forall fs paa_files_list, load_paa fs paa_files_list = Raise NameError) /\
  (forall fs i pub2ref_files,
     is_Some (pub2ref_hdf fs !! i) ->
     load_pub2ref fs (i :: pub2ref_files) = Raise NameError) /\
  is_Some (publicationauthoraffiliation_hdf two_shard_store !! 0%nat) /\
  is_Some (publicationauthoraffiliation_hdf two_shard_store !! 1%nat) /\
  load_paa two_shard_store [0%nat; 1%nat] = Raise NameError /\
  load_pub2ref two_shard_store [0%nat; 1%nat] = Raise NameError.
Proof.
  split_and!.
  - reflexivity.
  - intros fs i l. apply load_pub2ref_raises.
  - vm_compute. by eexists.
  - vm_compute. by eexists.
  - reflexivity.
  - apply load_pub2ref_raises. vm_compute. by eexists.
Qed.

(** With the directory name that [parse_publicationauthoraffiliation]
    itself creates ([os.mkdir(os.path.join(self.path2database,
    'publicationauthoraffiliation'))]), the pattern of the loader has no
    separator between directory and file name, and does not match the file
    the writer wrote; with a separator it would. *)
Example paa_glob_pattern_misses_partition :
  paa_file_name "data" "publicationauthoraffiliation" "0"
  = "data/publicationauthoraffiliation/publicationauthoraffiliation0.hdf" /\
  paa_glob_pattern "data" "publicationauthoraffiliation"
  = "data/publicationauthoraffiliationpublicationauthoraffiliation*.hdf" /\
  glob_matches (paa_glob_pattern "data" "publicationauthoraffiliation")
               (paa_file_name "data" "publicationauthoraffiliation" "0") = false /\
  glob_matches (paa_glob_pattern "data" "publicationauthoraffiliation/")
               (paa_file_name "data" "publicationauthoraffiliation/" "0") = true.
Proof. repeat split; vm_compute; reflexivity. Qed.

(** * Further properties of the pipeline *)

(** ** What one article appends *)

Section ArticleBlocks.

Variable html_unescape : string -> string.

Ltac run_article H :=
  repeat first
    [ rewrite load_int_PStr in H
    | rewrite scrape_date_eq in H
    | match type of H with
      | context [scrape_pages _ (Some ?art)] =>
          let v := fresh "pages" in
          let E := fresh "Hpages" in
          destruct (scrape_pages_ok html_unescape art) as (v & E & _);
          rewrite E in H; clear E
      end
    | match type of H with
      | context [py_find _ (find ?p ?e)] =>
          let E := fresh "Hfind" in
          destruct (find p e) eqn:E; cbn [py_find] in H
      end
    | progress cbn [mbind Res_bind py_find] in H
    | discriminate H ].

(** A returning [scrape_article] has run its author, vocabulary and
    reference blocks on the locals it started from, with the id of the
    article, and keeps their results. *)
Lemma scrape_article_blocks (st st' : Locals) (a : Element) :
  scrape_article html_unescape st a = Ok st' ->
  exists m ts r,
    medline_of a = Some m /\
    scrape_authors html_unescape (article_id a) (author_list_of a)
      (seq_var st) (paa_df st) = Ok (seq_var st', paa_df st', ts) /\
    scrape_fields (article_id a) (Some m) (pub2field_df st, fieldinfo st)
    = Ok (pub2field_df st', fieldinfo st') /\
    scrape_references (article_id a) a (pub2ref_df st) = Ok (pub2ref_df st') /\
    publication_df st' = publication_df st ++ [r] /\
    Pub.PublicationId r = article_id a /\
    Pub.TeamSize r = ts.
Proof.
  unfold scrape_article. intros H. cbv zeta in H.
  run_article H.
  destruct (article_date a) as [[Year Month] Day] eqn:Hdate.
  destruct Year as [| y |]; cbn [py_gt0 mbind Res_bind] in H; try discriminate H.
  match type of H with
  | context [scrape_authors ?h ?p ?al ?s ?pa] =>
      destruct (scrape_authors h p al s pa) as [[[sq' paa'] ts] |] eqn:Hauth
  end; cbn [mbind Res_bind] in H; try discriminate H.
  match type of H with
  | context [scrape_fields ?p ?m ?s] =>
      destruct (scrape_fields p m s) as [[p2f fi] |] eqn:Hfields
  end; cbn [mbind Res_bind] in H; try discriminate H.
  match type of H with
  | context [scrape_references ?p ?m ?s] =>
      destruct (scrape_references p m s) as [p2r |] eqn:Hrefs
  end; cbn [mbind Res_bind] in H; try discriminate H.
  injection H as <-.
  lazymatch goal with
  | Hm : find [child "MedlineCitation"] a = Some ?m,
    Ha : find [child "Article"] ?m = Some ?art |- _ =>
      assert (Hmed : medline_of a = Some m) by exact Hm;
      assert (Hid : article_id a
                    = load_int_str (load_xml_text (find [child "PMID"] m)))
        by (unfold article_id; rewrite Hmed; reflexivity);
      assert (Hal : author_list_of a = find [child "AuthorList"] art)
        by (unfold author_list_of; rewrite Hmed; cbn; rewrite Ha; reflexivity);
      exists m
  end.
  rewrite Hid, Hal. do 2 eexists. cbn. split_and!; try done.
Qed.

(** The rows of the author block: one per author, in order, numbered
    from 1, all with the id of the article. *)
Lemma scrape_authors_rows (pid : PyVal) (author_list : option Element)
    (sq sq' : option Z) (paa paa' : list Author.t) (ts : PyVal) :
  scrape_authors html_unescape pid author_list sq paa = Ok (sq', paa', ts) ->
  exists rows,
    paa' = paa ++ rows /\
    Forall (fun r => Author.PublicationId r = pid) rows /\
    Author.AuthorSequence <$> rows
    = (fun k => Z.of_nat (S k)) <$>
        seq 0 (length match author_list with
                      | Some al => findall [child "Author"] al
                      | None => []
                      end).
Proof.
  unfold scrape_authors. destruct author_list as [al |].
  - unfold enumerate.
    destruct (author_loop html_unescape pid (findall [child "Author"] al) 0 sq paa)
      as (rows & -> & _ & Hp & Hs & _).
    destruct (match findall [child "Author"] al with [] => sq | _ => _ end);
      [| done].
    intros [= <- <- <-]. exists rows. split_and!; [done | done |].
    rewrite Hs. apply list_fmap_ext. intros _ k _. lia.
  - intros [= <- <- <-]. exists []. by rewrite app_nil_r.
Qed.

End ArticleBlocks.

(** ** What one shard appends and writes *)

Section ShardFacts.

Variable html_unescape : string -> string.

(** The article loop appends one publication record per article, with
    the id of the article, and the numbered authorship rows of each article
    in article order. *)
Lemma article_loop_rows (arts : list Element) (st st' : Locals) :
  for_each (scrape_article html_unescape) arts st = Ok st' ->
  exists rs groups,
    publication_df st' = publication_df st ++ rs /\
    Forall2 (fun a r => Pub.PublicationId r = article_id a) arts rs /\
    paa_df st' = paa_df st ++ concat groups /\
    Forall2 numbered_authors arts groups.
Proof.
  revert st. induction arts as [| a arts IH]; intros st H.
  - injection H as <-. exists [], []. cbn. rewrite !app_nil_r. by split_and!.
  - cbn [for_each] in H.
    destruct (scrape_article html_unescape st a) as [st1 |] eqn:Ha; [| done].
    cbn [mbind Res_bind] in H.
    apply IH in H as (rs & groups & Hpub & Hrs & Hpaa & Hgroups).
    apply scrape_article_blocks in Ha
      as (m & ts & r & _ & Hauth & _ & _ & Hpub1 & Hid & _).
    apply scrape_authors_rows in Hauth as (rows & Hrows & Hpid & Hseq).
    exists (r :: rs), (rows :: groups).
    rewrite Hpub, Hpub1, Hpaa, Hrows. cbn [concat]. rewrite <- !app_assoc.
    split_and!; [done | by constructor | done |].
    constructor; [| done]. split; [done |].
    rewrite Hseq. unfold authors_of. reflexivity.
Qed.

(** The writer returns only on publication records that pass the casts
    and a non-empty authorship list, and then leaves the four partitions
    of its index: the cast records, the authorship list and the two frames
    it has built. *)
Lemma save_dataframes_inv (ifile : nat) (st : Locals) (fs fs' : FS) :
  _save_dataframes ifile (publication_df st) (paa_df st) (pub2ref_df st)
    (pub2field_df st) fs = (Ok tt, fs') ->
  exists pub2field pub2ref,
    Forall (fun r => castable r = true) (publication_df st) /\
    paa_df st <> [] /\
    DataFrame (pub2field_df st) ["PublicationId"; "FieldId"] = Ok pub2field /\
    DataFrame (pub2ref_df st) ["CitedPublicationId"; "CitingPublicationId"; "Citation"]
    = Ok pub2ref /\
    partitions_at fs' ifile = partitions_of st pub2field pub2ref.
Proof.
  unfold _save_dataframes, partitions_at, partitions_of. intros H.
  destruct (cast_publication_df (publication_df st)) as [df |] eqn:Hcast;
    [| by injection H].
  pose proof Hcast as [Hne Hc]%cast_publication_df_inv.
  rewrite (cast_publication_df_ok _ Hne Hc) in Hcast. injection Hcast as <-.
  destruct (paa_df st) as [| row paa] eqn:Hpaa; [by injection H |].
  destruct (DataFrame (pub2field_df st) _) as [f |]; [| by injection H].
  destruct (DataFrame (pub2ref_df st) _) as [r |]; [| by injection H].
  injection H as <-. exists f, r. cbn. rewrite !lookup_insert_eq. by split_and!.
Qed.

(** The loop never writes outside the indices of its shards, and never
    touches the vocabulary store or the year index. *)
Lemma process_shards_outside (rewrite_existing : bool)
    (xmlfiles : list (option Element)) (ifile : nat) (st : Locals) (fs fs' : FS)
    (r : Res Locals) :
  process_shards html_unescape rewrite_existing ifile xmlfiles st fs = (r, fs') ->
  (forall j, (j < ifile \/ ifile + length xmlfiles <= j)%nat ->
             partitions_at fs' j = partitions_at fs j) /\
  fieldinfo_hdf fs' = fieldinfo_hdf fs /\
  pub2year_json_gz fs' = pub2year_json_gz fs.
Proof.
  revert ifile st fs. induction xmlfiles as [| x rest IH]; intros ifile st fs H.
  - by injection H as _ <-.
  - cbn [process_shards] in H. cbn [length].
    destruct (negb rewrite_existing && isfile_publication ifile fs).
    { apply IH in H as (Hp & ? & ?). split_and!; [| done | done].
      intros j Hj. apply Hp. lia. }
    destruct x as [xmltree |]; [| by injection H as _ <-].
    destruct (scrape_shard html_unescape st xmltree) as [st1 |];
      [| by injection H as _ <-].
    destruct (_save_dataframes _ _ _ _ _ fs) as [[[] | e] fs1] eqn:Hw.
    + apply IH in H as (Hp & -> & ->).
      assert (Hne : ifile <> S ifile) by lia.
      destruct (save_dataframes_other _ _ _ _ _ _ _ _ _ Hw Hne) as (_ & ? & ?).
      split_and!; [| done | done].
      intros j Hj. rewrite Hp by lia.
      assert (Hj' : ifile <> j) by lia.
      by destruct (save_dataframes_other _ _ _ _ _ _ _ _ _ Hw Hj') as (? & _).
    + injection H as _ <-.
      assert (Hne : ifile <> S ifile) by lia.
      destruct (save_dataframes_other _ _ _ _ _ _ _ _ _ Hw Hne) as (_ & ? & ?).
      split_and!; [| done | done].
      intros j Hj.
      assert (Hj' : ifile <> j) by lia.
      by destruct (save_dataframes_other _ _ _ _ _ _ _ _ _ Hw Hj') as (? & _).
Qed.

(** In a run that returns, every shard that is not skipped has been
    extracted, and the partitions of its index are those the writer made
    of its records. *)
Lemma process_shards_parsed (rewrite_existing : bool)
    (xmlfiles : list (option Element)) (ifile : nat) (st st' : Locals) (fs fs' : FS) :
  process_shards html_unescape rewrite_existing ifile xmlfiles st fs = (Ok st', fs') ->
  forall k xmltree,
    xmlfiles !! k = Some (Some xmltree) ->
    rewrite_existing = true \/ publication_hdf fs !! (ifile + k)%nat = None ->
    exists st0 st1 pub2field pub2ref,
      scrape_shard html_unescape st0 xmltree = Ok st1 /\
      Forall (fun r => castable r = true) (publication_df st1) /\
      paa_df st1 <> [] /\
      DataFrame (pub2field_df st1) ["PublicationId"; "FieldId"] = Ok pub2field /\
      DataFrame (pub2ref_df st1) ["CitedPublicationId"; "CitingPublicationId"; "Citation"]
      = Ok pub2ref /\
      partitions_at fs' (ifile + k) = partitions_of st1 pub2field pub2ref.
Proof.
  revert ifile st fs. induction xmlfiles as [| x rest IH];
    intros ifile st fs H k xmltree Hk Hnew; [done |].
  cbn [process_shards] in H.
  destruct k as [| k].
  - injection Hk as ->. rewrite Nat.add_0_r in *.
    assert (Hskip : negb rewrite_existing && isfile_publication ifile fs = false).
    { destruct Hnew as [-> | Hnone]; [done |].
      unfold isfile_publication. rewrite Hnone.
      rewrite bool_decide_eq_false_2; [apply andb_false_r | by intros [? ?]]. }
    rewrite Hskip in H.
    destruct (scrape_shard html_unescape st xmltree) as [st1 |] eqn:Hs; [| done].
    destruct (_save_dataframes _ _ _ _ _ fs) as [[[] | e] fs1] eqn:Hw; [| done].
    apply save_dataframes_inv in Hw as (f & r & Hc & Hpaa & Hf & Hr & Hparts).
    apply process_shards_outside in H as (Hout & _).
    exists st, st1, f, r. split_and!; try done.
    rewrite Hout by lia. done.
  - cbn in Hk. replace (ifile + S k)%nat with (S ifile + k)%nat in * by lia.
    destruct (negb rewrite_existing && isfile_publication ifile fs).
    { eapply IH; eauto. }
    destruct x as [xmltree0 |]; [| done].
    destruct (scrape_shard html_unescape st xmltree0) as [st1 |] eqn:Hs; [| done].
    destruct (_save_dataframes _ _ _ _ _ fs) as [[[] | e] fs1] eqn:Hw; [| done].
    eapply IH; eauto.
    destruct Hnew as [-> | Hnone]; [by left | right].
    assert (Hne : ifile <> (S ifile + k)%nat) by lia.
    destruct (save_dataframes_other _ _ _ _ _ _ _ _ _ Hw Hne) as (Hp & _).
    unfold partitions_at in Hp. injection Hp as Hp _ _ _.
    change (S (ifile + k))%nat with (S ifile + k)%nat in Hp. by rewrite Hp.
Qed.

(** After a run that returns, the publication partition of every shard
    index exists. *)
Lemma process_shards_done (rewrite_existing : bool)
    (xmlfiles : list (option Element)) (ifile : nat) (st st' : Locals) (fs fs' : FS) :
  process_shards html_unescape rewrite_existing ifile xmlfiles st fs = (Ok st', fs') ->
  forall k, (k < length xmlfiles)%nat ->
            is_Some (publication_hdf fs' !! (ifile + k)%nat).
Proof.
  revert ifile st fs. induction xmlfiles as [| x rest IH];
    intros ifile st fs H k Hk; [cbn in Hk; lia |].
  cbn [process_shards] in H.
  destruct k as [| k].
  - rewrite Nat.add_0_r.
    destruct (negb rewrite_existing && isfile_publication ifile fs) eqn:Hskip.
    + apply andb_true_iff in Hskip as [_ Hfile].
      apply bool_decide_eq_true in Hfile.
      apply process_shards_outside in H as (Hout & _).
      assert (Hj : (ifile < S ifile \/ S ifile + length rest <= ifile)%nat) by lia.
      specialize (Hout ifile Hj). unfold partitions_at in Hout.
      injection Hout as -> _ _ _. done.
    + destruct x as [xmltree |]; [| done].
      destruct (scrape_shard html_unescape st xmltree) as [st1 |] eqn:Hs; [| done].
      destruct (_save_dataframes _ _ _ _ _ fs) as [[[] | e] fs1] eqn:Hw; [| done].
      apply save_dataframes_inv in Hw as (f & r & _ & _ & _ & _ & Hparts).
      apply process_shards_outside in H as (Hout & _).
      assert (Hj : (ifile < S ifile \/ S ifile + length rest <= ifile)%nat) by lia.
      specialize (Hout ifile Hj). unfold partitions_at, partitions_of in Hout, Hparts.
      injection Hparts as Hpub _ _ _.
      injection Hout as -> _ _ _. by rewrite Hpub.
  - replace (ifile + S k)%nat with (S ifile + k)%nat by lia. cbn in Hk.
    destruct (negb rewrite_existing && isfile_publication ifile fs).
    { eapply IH; [exact H | lia]. }
    destruct x as [xmltree |]; [| done].
    destruct (scrape_shard html_unescape st xmltree) as [st1 |] eqn:Hs; [| done].
    destruct (_save_dataframes _ _ _ _ _ fs) as [[[] | e] fs1] eqn:Hw; [| done].
    eapply IH; [exact H | lia].
Qed.

End ShardFacts.

(** ** The link rows of a shard *)

Lemma field_loop_rows (pid : PyVal) (tag ftype : string) (terms : list Element)
    (st st' : list (list PyVal) * dict string (string * string)) :
  for_each (field_step pid tag ftype) terms st = Ok st' ->
  st'.1 = st.1 ++ ((fun o => [pid; PStr o.1]) <$> omap (term_observation tag ftype) terms).
Proof.
  revert st. induction terms as [| t terms IH]; intros st H.
  - injection H as <-. cbn. by rewrite app_nil_r.
  - cbn [for_each] in H. rewrite field_step_eq in H.
    cbn [omap list_omap].
    destruct (has_name tag t); [| done]. cbn [mbind Res_bind] in H.
    apply IH in H as ->.
    destruct (term_observation tag ftype t) as [o |]; [| done].
    cbn [fst fmap list_fmap]. by rewrite <- app_assoc.
Qed.

Lemma scrape_fields_rows (pid : PyVal) (a m : Element)
    (st st' : list (list PyVal) * dict string (string * string)) :
  medline_of a = Some m ->
  scrape_fields pid (Some m) st = Ok st' ->
  st'.1 = st.1 ++ ((fun o => [pid; PStr o.1]) <$> article_observations a).
Proof.
  intros Hm. unfold scrape_fields, article_observations. rewrite Hm.
  cbn [py_find mbind Res_bind]. rewrite fmap_app, app_assoc.
  destruct (find [child "MeshHeadingList"] m) as [terms |].
  - destruct (for_each _ (children terms) st) as [mesh |] eqn:Hmesh; [| done].
    apply field_loop_rows in Hmesh as Hmesh. cbn [mbind Res_bind].
    destruct (find [child "ChemicalList"] m) as [cl |].
    + intros ->%field_loop_rows. by rewrite Hmesh.
    + intros [= <-]. rewrite Hmesh. cbn. by rewrite app_nil_r.
  - cbn [mbind Res_bind fmap list_fmap]. rewrite app_nil_r.
    destruct (find [child "ChemicalList"] m) as [cl |].
    + by intros ->%field_loop_rows.
    + intros [= <-]. cbn. by rewrite app_nil_r.
Qed.

Lemma ref_step_eq (pid : PyVal) (p2r : list (list PyVal)) (ref : Element) :
  ref_step pid p2r ref = Ok (p2r ++ [citation_row pid ref]).
Proof.
  unfold ref_step, citation_row, reference_pmid.
  destruct (find [child "ArticleIdList"] ref); [| done].
  by rewrite load_int_PStr.
Qed.

Lemma ref_loop_rows (pid : PyVal) (refs : list Element) (p2r : list (list PyVal)) :
  for_each (ref_step pid) refs p2r = Ok (p2r ++ (citation_row pid <$> refs)).
Proof.
  revert p2r. induction refs as [| r refs IH]; intros p2r.
  - cbn. by rewrite app_nil_r.
  - cbn [for_each]. rewrite ref_step_eq. cbn [mbind Res_bind].
    rewrite IH. cbn [fmap list_fmap]. by rewrite <- app_assoc.
Qed.

Lemma scrape_references_rows (pid : PyVal) (a : Element) (p2r : list (list PyVal)) :
  scrape_references pid a p2r = Ok (p2r ++ (citation_row pid <$> references_of a)).
Proof.
  unfold scrape_references, references_of.
  destruct (find [child "PubmedData"; child "ReferenceList"] a).
  - apply ref_loop_rows.
  - cbn. by rewrite app_nil_r.
Qed.

Section ShardLists.

Variable html_unescape : string -> string.

Lemma article_loop_links (arts : list Element) (st st' : Locals) :
  for_each (scrape_article html_unescape) arts st = Ok st' ->
  pub2field_df st' = pub2field_df st ++ flat_map field_links arts /\
  pub2ref_df st' = pub2ref_df st ++ flat_map citation_rows arts.
Proof.
  revert st. induction arts as [| a arts IH]; intros st H.
  - injection H as <-. cbn. by rewrite !app_nil_r.
  - cbn [for_each] in H.
    destruct (scrape_article html_unescape st a) as [st1 |] eqn:Ha; [| done].
    cbn [mbind Res_bind] in H. apply IH in H as [-> ->].
    apply scrape_article_blocks in Ha
      as (m & ts & r & Hm & _ & Hf & Hr & _).
    apply (scrape_fields_rows _ a) in Hf; [| done]. cbn [fst] in Hf.
    rewrite scrape_references_rows in Hr. injection Hr as <-.
    rewrite Hf. cbn [flat_map]. unfold field_links at 2, citation_rows at 2.
    by rewrite <- !app_assoc.
Qed.

(** The four lists of a shard, as its article entries determine them. *)
Lemma scrape_shard_lists (st st' : Locals) (xmltree : Element) :
  scrape_shard html_unescape st xmltree = Ok st' ->
  exists groups,
    Forall2 (fun a r => Pub.PublicationId r = article_id a)
            (all_pubmed_articles xmltree) (publication_df st') /\
    paa_df st' = concat groups /\
    Forall2 numbered_authors (all_pubmed_articles xmltree) groups /\
    pub2field_df st' = flat_map field_links (all_pubmed_articles xmltree) /\
    pub2ref_df st' = flat_map citation_rows (all_pubmed_articles xmltree).
Proof.
  unfold scrape_shard. intros H.
  pose proof (article_loop_links _ _ _ H) as [Hf Hr].
  apply article_loop_rows in H as (rs & groups & Hpub & Hrs & Hpaa & Hgroups).
  cbn in Hpub, Hpaa, Hf, Hr. exists groups. rewrite Hpub. by split_and!.
Qed.

(** A call of [preprocess] that returns has extracted every shard it
    did not skip and has left, at the index of the shard, the partitions
    the writer makes of its lists. *)
Lemma preprocess_parsed (xml_directory : list (string * option Element))
    (rewrite_existing : bool) (fs fs' : FS) (k : nat) (xmltree : Element) :
  preprocess html_unescape xml_directory rewrite_existing fs = (Ok tt, fs') ->
  xmlfiles_of xml_directory !! k = Some (Some xmltree) ->
  rewrite_existing = true \/ publication_hdf fs !! k = None ->
  exists st0 st1 pub2field pub2ref,
    scrape_shard html_unescape st0 xmltree = Ok st1 /\
    Forall (fun r => castable r = true) (publication_df st1) /\
    paa_df st1 <> [] /\
    DataFrame (pub2field_df st1) ["PublicationId"; "FieldId"] = Ok pub2field /\
    DataFrame (pub2ref_df st1) ["CitedPublicationId"; "CitingPublicationId"; "Citation"]
    = Ok pub2ref /\
    partitions_at fs' k = partitions_of st1 pub2field pub2ref.
Proof.
  unfold preprocess. intros H Hk Hnew.
  destruct (process_shards _ _ _ _ _ fs) as [[st | e] fs1] eqn:Hrun;
    [| by injection H].
  destruct (process_shards_parsed _ _ _ _ _ _ _ _ Hrun k xmltree Hk Hnew)
    as (st0 & st1 & f & r & Hs & Hc & Hpaa & Hf & Hr & Hparts).
  exists st0, st1, f, r. split_and!; try done.
  cbn [Nat.add] in Hparts. rewrite <- Hparts.
  unfold save_globals in H. destruct rewrite_existing.
  - destruct (DataFrame _ _); [| done]. by injection H as <-.
  - by injection H as <-.
Qed.

End ShardLists.

(** ** The partitions of a shard that a run has parsed *)

Lemma int64_cast_inv (z w : Z) :
  int64_cast z = Ok w -> - 2 ^ 63 <= z < 2 ^ 64 /\ w = int64_wrap z.
Proof.
  unfold int64_cast.
  destruct (z <? - 2 ^ 63) eqn:H1; [done |].
  destruct (2 ^ 64 <=? z) eqn:H2; [done |].
  apply Z.ltb_ge in H1. apply Z.leb_gt in H2. cbn [orb]. by intros [= <-].
Qed.

(** X1.  When [preprocess] returns, the publication partition of every
    shard it parsed holds one record per article entry of the shard, in
    document order.  The [PublicationId] of each record is the integer
    read from the [PMID] node of its article as 64 bits hold it: the
    integer itself when it is below 2^63, the integer reduced by 2^64 from
    there on. *)
Theorem publication_partition_follows_articles (html_unescape : string -> string)
    (xml_directory : list (string * option Element)) (rewrite_existing : bool)
    (fs fs' : FS) (k : nat) (xmltree : Element) :
  preprocess html_unescape xml_directory rewrite_existing fs = (Ok tt, fs') ->
  xmlfiles_of xml_directory !! k = Some (Some xmltree) ->
  rewrite_existing = true \/ publication_hdf fs !! k = None ->
  exists records,
    publication_hdf fs' !! k = Some records /\
    Forall2 (fun a r =>
               exists z,
                 article_id a = PInt z /\ - 2 ^ 63 <= z < 2 ^ 64 /\
                 Pub.PublicationId r = PInt (int64_wrap z) /\
                 (z < 2 ^ 63 -> Pub.PublicationId r = article_id a))
            (all_pubmed_articles xmltree) records.
Proof.
  intros H Hk Hnew.
  destruct (preprocess_parsed _ _ _ _ _ _ _ H Hk Hnew)
    as (st0 & st1 & f & r & Hs & Hc & _ & _ & _ & Hparts).
  apply scrape_shard_lists in Hs as (groups & Hrs & _).
  unfold partitions_at, partitions_of in Hparts. injection Hparts as Hpub _ _ _.
  eexists. split; [exact Hpub |].
  apply Forall2_fmap_r. clear Hpub. revert Hrs Hc.
  generalize (publication_df st1) (all_pubmed_articles xmltree).
  intros records arts Hrs.
  induction Hrs as [| a r0 arts rs Hid Hrs IH]; intros Hc; [constructor |].
  apply Forall_cons in Hc as [Hr Hc]. constructor; [| by apply IH].
  unfold castable in Hr. rewrite !andb_true_iff in Hr.
  destruct Hr as [[[[[Hr _] _] _] _] _].
  unfold compose. cbn [coerce_pub Pub.PublicationId].
  rewrite Hid in *. unfold article_id in *.
  destruct (load_int_str_cases
              (load_xml_text (m ← medline_of a; find [child "PMID"] m)))
    as [Hn | [z Hz]].
  - rewrite Hn in Hr. discriminate Hr.
  - rewrite Hz in *. exists z. unfold as_int, astype_int64 in *.
    cbn [py_int mbind Res_bind] in *.
    destruct (int64_cast z) as [w |] eqn:Hw; [| discriminate Hr].
    apply int64_cast_inv in Hw as [Hrange ->].
    split_and!; [done | lia | lia | done |].
    intros Hlt. unfold int64_wrap.
    by replace (z <? 2 ^ 63) with true by (symmetry; by apply Z.ltb_lt).
Qed.

Lemma publication_partition_follows_articles_witness :
  exists records,
    publication_hdf scenario_store !! 0%nat = Some records /\
    Forall2 (fun a r =>
               exists z,
                 article_id a = PInt z /\ - 2 ^ 63 <= z < 2 ^ 64 /\
                 Pub.PublicationId r = PInt (int64_wrap z) /\
                 (z < 2 ^ 63 -> Pub.PublicationId r = article_id a))
            (all_pubmed_articles scenario_shard) records.
Proof.
  apply (publication_partition_follows_articles (fun s => s) scenario_directory true
           empty_fs scenario_store 0 scenario_shard).
  - vm_compute. reflexivity.
  - vm_compute. reflexivity.
  - left. reflexivity.
Defined.

(** X2.  When [preprocess] returns, the authorship partition of every
    shard it parsed is the concatenation, in document order, of one group
    of rows per article entry: the rows of a group carry the id of their
    article and the sequence numbers 1, 2, ... up to the number of [Author]
    children of its author list. *)
Theorem authorship_partition_numbered_per_article (html_unescape : string -> string)
    (xml_directory : list (string * option Element)) (rewrite_existing : bool)
    (fs fs' : FS) (k : nat) (xmltree : Element) :
  preprocess html_unescape xml_directory rewrite_existing fs = (Ok tt, fs') ->
  xmlfiles_of xml_directory !! k = Some (Some xmltree) ->
  rewrite_existing = true \/ publication_hdf fs !! k = None ->
  exists groups,
    publicationauthoraffiliation_hdf fs' !! k = Some (concat groups) /\
    Forall2 numbered_authors (all_pubmed_articles xmltree) groups.
Proof.
  intros H Hk Hnew.
  destruct (preprocess_parsed _ _ _ _ _ _ _ H Hk Hnew)
    as (st0 & st1 & f & r & Hs & _ & _ & _ & _ & Hparts).
  apply scrape_shard_lists in Hs as (groups & _ & Hpaa & Hgroups & _).
  unfold partitions_at, partitions_of in Hparts. injection Hparts as _ Hp _ _.
  exists groups. by rewrite Hp, Hpaa.
Qed.

Lemma authorship_partition_numbered_per_article_witness :
  exists groups,
    publicationauthoraffiliation_hdf two_shard_store !! 1%nat = Some (concat groups) /\
    Forall2 numbered_authors (all_pubmed_articles renamed_shard) groups.
Proof.
  apply (authorship_partition_numbered_per_article (fun s => s) two_shard_directory
           true empty_fs (preprocess (fun s => s) two_shard_directory true empty_fs).2
           1 renamed_shard).
  - vm_compute. reflexivity.
  - vm_compute. reflexivity.
  - left. reflexivity.
Defined.

Lemma field_links_shape (arts : list Element) :
  Forall (fun r => length r = 2%nat) (flat_map field_links arts).
Proof.
  apply Forall_forall. intros r (a & _ & Hr)%list_elem_of_In%in_flat_map.
  apply list_elem_of_In in Hr. unfold field_links in Hr.
  by apply list_elem_of_fmap in Hr as (o & -> & _).
Qed.

Lemma field_links_plain (arts : list Element) :
  Forall (fun a => plain_cell (article_id a) = true) arts ->
  Forall (Forall (fun v => plain_cell v = true)) (flat_map field_links arts).
Proof.
  intros H. apply Forall_forall.
  intros r (a & Ha%list_elem_of_In & Hr)%list_elem_of_In%in_flat_map.
  apply list_elem_of_In in Hr. unfold field_links in Hr.
  apply list_elem_of_fmap in Hr as (o & -> & _).
  rewrite Forall_forall in H. specialize (H a Ha). by repeat constructor.
Qed.

Lemma citation_rows_shape (arts : list Element) :
  Forall (fun r => length r = 3%nat) (flat_map citation_rows arts).
Proof.
  apply Forall_forall. intros r (a & _ & Hr)%list_elem_of_In%in_flat_map.
  apply list_elem_of_In in Hr. unfold citation_rows in Hr.
  by apply list_elem_of_fmap in Hr as (ref & -> & _).
Qed.

(** X3.  When [preprocess] returns, the field-link partition of every
    shard it parsed whose article ids are integers of magnitude up to 2^53
    is the frame with the columns [PublicationId] and [FieldId] and one
    row per vocabulary term that carries a non-empty [UI] attribute:
    descriptor terms before chemicals within an article, articles in
    document order, each row the id of the article and the id of the term,
    the latter as the text it is. *)
Theorem field_partition_one_row_per_term (html_unescape : string -> string)
    (xml_directory : list (string * option Element)) (rewrite_existing : bool)
    (fs fs' : FS) (k : nat) (xmltree : Element) :
  preprocess html_unescape xml_directory rewrite_existing fs = (Ok tt, fs') ->
  xmlfiles_of xml_directory !! k = Some (Some xmltree) ->
  rewrite_existing = true \/ publication_hdf fs !! k = None ->
  Forall (fun a => plain_cell (article_id a) = true) (all_pubmed_articles xmltree) ->
  pub2field_hdf fs' !! k
  = Some (frame ["PublicationId"; "FieldId"]
            (flat_map field_links (all_pubmed_articles xmltree))).
Proof.
  intros H Hk Hnew Hplain.
  destruct (preprocess_parsed _ _ _ _ _ _ _ H Hk Hnew)
    as (st0 & st1 & f & r & Hs & _ & _ & Hf & _ & Hparts).
  apply scrape_shard_lists in Hs as (groups & _ & _ & _ & Hrows & _).
  unfold partitions_at, partitions_of in Hparts. injection Hparts as _ _ Hp _.
  rewrite Hp. f_equal. rewrite Hrows in Hf.
  rewrite DataFrame_plain in Hf;
    [by injection Hf | apply field_links_shape | by apply field_links_plain].
Qed.

Lemma field_partition_one_row_per_term_witness :
  pub2field_hdf scenario_store !! 0%nat
  = Some (frame ["PublicationId"; "FieldId"]
            (flat_map field_links (all_pubmed_articles scenario_shard))).
Proof.
  apply (field_partition_one_row_per_term (fun s => s) scenario_directory true
           empty_fs scenario_store 0 scenario_shard).
  - vm_compute. reflexivity.
  - vm_compute. reflexivity.
  - left. reflexivity.
  - repeat constructor.
Defined.

(** X4.  When [preprocess] returns, the citation partition of every
    shard it parsed whose article ids and reference ids are integers of
    magnitude up to 2^53 (or absent) is the frame with one row per
    [Reference] entry of the first reference list of each article, in
    document order: the id of the article, then the PubMed id of the
    reference (the empty string when the reference has no id list, [None]
    when its id list has no integer PubMed id), then the citation text as
    the text it is. *)
Theorem citation_partition_one_row_per_reference (html_unescape : string -> string)
    (xml_directory : list (string * option Element)) (rewrite_existing : bool)
    (fs fs' : FS) (k : nat) (xmltree : Element) :
  preprocess html_unescape xml_directory rewrite_existing fs = (Ok tt, fs') ->
  xmlfiles_of xml_directory !! k = Some (Some xmltree) ->
  rewrite_existing = true \/ publication_hdf fs !! k = None ->
  Forall (Forall (fun v => plain_cell v = true))
         (flat_map citation_rows (all_pubmed_articles xmltree)) ->
  pub2ref_hdf fs' !! k
  = Some (frame ["CitedPublicationId"; "CitingPublicationId"; "Citation"]
            (flat_map citation_rows (all_pubmed_articles xmltree))).
Proof.
  intros H Hk Hnew Hplain.
  destruct (preprocess_parsed _ _ _ _ _ _ _ H Hk Hnew)
    as (st0 & st1 & f & r & Hs & _ & _ & _ & Hr & Hparts).
  apply scrape_shard_lists in Hs as (groups & _ & _ & _ & _ & Hrows).
  unfold partitions_at, partitions_of in Hparts. injection Hparts as _ _ _ Hp.
  rewrite Hp. f_equal. rewrite Hrows in Hr.
  rewrite DataFrame_plain in Hr;
    [by injection Hr | apply citation_rows_shape | done].
Qed.

Lemma citation_partition_one_row_per_reference_witness :
  pub2ref_hdf scenario_store !! 0%nat
  = Some (frame ["CitedPublicationId"; "CitingPublicationId"; "Citation"]
            (flat_map citation_rows (all_pubmed_articles scenario_shard))).
Proof.
  apply (citation_partition_one_row_per_reference (fun s => s) scenario_directory true
           empty_fs scenario_store 0 scenario_shard).
  - vm_compute. reflexivity.
  - vm_compute. reflexivity.
  - left. reflexivity.
  - repeat constructor.
Defined.

(** ** The year index *)





(** ** Runs after runs, and runs that raise *)

(** X6.  A call of [preprocess] that returned has left the publication
    partition of every shard index, so a second call on the same directory
    without the rewrite flag parses nothing: it returns, leaves every
    partition and the vocabulary store as the first call left them, and
    replaces the year index of the first call by the empty mapping. *)
Theorem rerun_after_success_empties_year_index (html_unescape : string -> string)
    (xml_directory : list (string * option Element)) (rewrite_existing : bool)
    (fs fs1 : FS) :
  preprocess html_unescape xml_directory rewrite_existing fs = (Ok tt, fs1) ->
  preprocess html_unescape xml_directory false fs1
  = (Ok tt,
     mkFS (publication_hdf fs1) (publicationauthoraffiliation_hdf fs1)
          (pub2field_hdf fs1) (pub2ref_hdf fs1) (fieldinfo_hdf fs1) (Some [])).
Proof.
  unfold preprocess at 1. intros H.
  destruct (process_shards _ _ _ _ _ fs) as [[st | e] fs0] eqn:Hrun; [| done].
  assert (Hpub : publication_hdf fs1 = publication_hdf fs0).
  { unfold save_globals in H. destruct rewrite_existing.
    - destruct (DataFrame _ _); [| done]. by injection H as <-.
    - by injection H as <-. }
  pose proof (process_shards_done _ _ _ _ _ _ _ _ Hrun) as Hdone.
  unfold preprocess. rewrite process_shards_skip; [done |].
  intros k Hk. rewrite Hpub. by apply Hdone.
Qed.

Lemma rerun_after_success_empties_year_index_witness :
  preprocess (fun s => s) scenario_directory false scenario_store
  = (Ok tt,
     mkFS (publication_hdf scenario_store)
          (publicationauthoraffiliation_hdf scenario_store)
          (pub2field_hdf scenario_store) (pub2ref_hdf scenario_store)
          (fieldinfo_hdf scenario_store) (Some [])).
Proof.
  apply (rerun_after_success_empties_year_index (fun s => s) scenario_directory true
           empty_fs scenario_store).
  vm_compute. reflexivity.
Defined.

Lemma numbered_authors_none (arts : list Element) (groups : list (list Author.t)) :
  Forall2 numbered_authors arts groups ->
  Forall (fun a => authors_of a = []) arts ->
  concat groups = [].
Proof.
  induction 1 as [| a g arts gs [_ Hseq] _ IH]; intros Hno; [done |].
  apply Forall_cons in Hno as [Ha Hno]. cbn [concat]. rewrite IH by done.
  rewrite Ha in Hseq. cbn in Hseq. apply fmap_nil_inv in Hseq as ->. done.
Qed.

(** X7.  A shard none of whose articles has an author is written half:
    when the integer columns of its publication records hold integers (of
    magnitude up to 2^53) and the volumes are such integers or nulls, the
    loop writes the publication partition of the shard with the records
    as they are, then raises [KeyError] on the empty authorship frame, and
    the other three partitions of the shard are not written.  As the skip test looks at the publication partition only, a
    later run without the rewrite flag skips the shard whatever its file
    holds. *)
Theorem shard_without_authors_is_half_written (html_unescape : string -> string)
    (rewrite_existing : bool) (ifile : nat) (xmltree : Element)
    (rest : list (option Element)) (st st1 : Locals) (fs : FS) :
  scrape_shard html_unescape st xmltree = Ok st1 ->
  all_pubmed_articles xmltree <> [] ->
  Forall (fun a => authors_of a = []) (all_pubmed_articles xmltree) ->
  Forall (fun r => storable r = true) (publication_df st1) ->
  rewrite_existing = true \/ publication_hdf fs !! ifile = None ->
  let fs' := mkFS (<[ifile := publication_df st1]> (publication_hdf fs))
                  (publicationauthoraffiliation_hdf fs) (pub2field_hdf fs)
                  (pub2ref_hdf fs) (fieldinfo_hdf fs) (pub2year_json_gz fs) in
  process_shards html_unescape rewrite_existing ifile (Some xmltree :: rest) st fs
  = (Raise KeyError, fs') /\
  forall x st2,
    process_shards html_unescape false ifile (x :: rest) st2 fs'
    = process_shards html_unescape false (S ifile) rest st2 fs'.
Proof.
  intros Hs Hne Hno Hc Hnew fs'. split.
  - cbn [process_shards].
    assert (Hskip : negb rewrite_existing && isfile_publication ifile fs = false).
    { destruct Hnew as [-> | Hnone]; [done |].
      unfold isfile_publication. rewrite Hnone.
      rewrite bool_decide_eq_false_2; [apply andb_false_r | by intros [? ?]]. }
    rewrite Hskip, Hs.
    pose proof (scrape_shard_lists _ _ _ _ Hs) as (groups & Hrs & Hpaa & Hgroups & _).
    assert (Hpubs : publication_df st1 <> []).
    { intros Hnil. rewrite Hnil in Hrs. by apply Forall2_nil_inv_r in Hrs. }
    assert (Hempty : paa_df st1 = []).
    { rewrite Hpaa. by eapply numbered_authors_none. }
    unfold _save_dataframes.
    assert (Hcast : Forall (fun r => castable r = true) (publication_df st1)).
    { eapply Forall_impl; [exact Hc |]. by intros r [? _]%storable_castable. }
    assert (Hid : coerce_pub <$> publication_df st1 = publication_df st1).
    { clear Hcast Hpubs Hrs. induction Hc as [| r l Hr _ IH]; [done |].
      rewrite fmap_cons, IH. f_equal. by apply storable_castable. }
    rewrite (cast_publication_df_ok _ Hpubs Hcast), Hid, Hempty. done.
  - intros x st2. cbn [process_shards negb andb].
    unfold isfile_publication at 1. rewrite bool_decide_eq_true_2; [done |].
    subst fs'. cbn. rewrite lookup_insert_eq. by eexists.
Qed.

Lemma shard_without_authors_is_half_written_witness :
  process_shards (fun s => s) false 0 [Some authorless_shard] fresh_locals empty_fs
  = (Raise KeyError,
     mkFS (<[0%nat := match scrape_shard (fun s => s) fresh_locals authorless_shard with
                      | Ok st1 => publication_df st1
                      | Raise _ => []
                      end]> (publication_hdf empty_fs))
          (publicationauthoraffiliation_hdf empty_fs) (pub2field_hdf empty_fs)
          (pub2ref_hdf empty_fs) (fieldinfo_hdf empty_fs) (pub2year_json_gz empty_fs)).
Proof.
  refine (proj1 (shard_without_authors_is_half_written (fun s => s) false 0
                   authorless_shard [] fresh_locals
                   match scrape_shard (fun s => s) fresh_locals authorless_shard with
                   | Ok st1 => st1
                   | Raise _ => fresh_locals
                   end empty_fs _ _ _ _ _)).
  - vm_compute. reflexivity.
  - vm_compute. discriminate.
  - vm_compute. repeat constructor.
  - repeat constructor.
  - right. vm_compute. reflexivity.
Defined.

(** X8.  A shard without article entries that is not skipped stops the
    run: the writer raises [KeyError] on the empty publication frame before
    it has written anything, and the shards after it are not reached. *)
Theorem shard_without_articles_raises (html_unescape : string -> string)
    (rewrite_existing : bool) (ifile : nat) (xmltree : Element)
    (rest : list (option Element)) (st : Locals) (fs : FS) :
  all_pubmed_articles xmltree = [] ->
  rewrite_existing = true \/ publication_hdf fs !! ifile = None ->
  process_shards html_unescape rewrite_existing ifile (Some xmltree :: rest) st fs
  = (Raise KeyError, fs).
Proof.
  intros Hempty Hnew. cbn [process_shards].
  assert (Hskip : negb rewrite_existing && isfile_publication ifile fs = false).
  { destruct Hnew as [-> | Hnone]; [done |].
    unfold isfile_publication. rewrite Hnone.
    rewrite bool_decide_eq_false_2; [apply andb_false_r | by intros [? ?]]. }
  rewrite Hskip. unfold scrape_shard. rewrite Hempty. done.
Qed.

Lemma shard_without_articles_raises_witness :
  process_shards (fun s => s) true 0 [Some empty_shard; Some scenario_shard]
                 fresh_locals scenario_store
  = (Raise KeyError, scenario_store).
Proof.
  apply (shard_without_articles_raises (fun s => s) true 0 empty_shard
           [Some scenario_shard] fresh_locals scenario_store).
  - vm_compute. reflexivity.
  - left. reflexivity.
Defined.

(** X9.  Whatever the flag and the outcome, [preprocess] leaves the
    partitions at the indices from the number of shard files on as they
    were: a rewrite over fewer shard files does not remove the partitions
    of an earlier, larger run.  A call that raises leaves the vocabulary
    store and the year index as they were, and so does, for the vocabulary
    store, every call without the rewrite flag. *)
Theorem preprocess_leaves_the_rest (html_unescape : string -> string)
    (xml_directory : list (string * option Element)) (rewrite_existing : bool)
    (fs fs' : FS) (r : Res unit) :
  preprocess html_unescape xml_directory rewrite_existing fs = (r, fs') ->
  (forall j, (length (xmlfiles_of xml_directory) <= j)%nat ->
             partitions_at fs' j = partitions_at fs j) /\
  (is_ok r = false ->
   fieldinfo_hdf fs' = fieldinfo_hdf fs /\ pub2year_json_gz fs' = pub2year_json_gz fs) /\
  (rewrite_existing = false -> fieldinfo_hdf fs' = fieldinfo_hdf fs).
Proof.
  unfold preprocess. intros H.
  destruct (process_shards _ _ _ _ _ fs) as [[st | e] fs1] eqn:Hrun;
    apply process_shards_outside in Hrun as (Hout & Hfi & Hy).
  - unfold save_globals in H. destruct rewrite_existing.
    + destruct (DataFrame _ _) as [fi | e]; injection H as <- <-.
      * split_and!; [| done | done]. intros j Hj. rewrite <- Hout by lia. done.
      * split_and!; [| done | done]. intros j Hj. rewrite <- Hout by lia. done.
    + injection H as <- <-.
      split_and!; [| done | done]. intros j Hj. rewrite <- Hout by lia. done.
  - injection H as <- <-.
    split_and!; [| done | done]. intros j Hj. rewrite <- Hout by lia. done.
Qed.

Lemma preprocess_leaves_the_rest_witness :
  (forall j, (length (xmlfiles_of scenario_directory) <= j)%nat ->
             partitions_at (preprocess (fun s => s) scenario_directory true
                              two_shard_store).2 j
             = partitions_at two_shard_store j) /\
  (is_ok (Ok tt : Res unit) = false ->
   fieldinfo_hdf (preprocess (fun s => s) scenario_directory true two_shard_store).2
   = fieldinfo_hdf two_shard_store /\
   pub2year_json_gz (preprocess (fun s => s) scenario_directory true two_shard_store).2
   = pub2year_json_gz two_shard_store) /\
  (true = false ->
   fieldinfo_hdf (preprocess (fun s => s) scenario_directory true two_shard_store).2
   = fieldinfo_hdf two_shard_store).
Proof.
  apply (preprocess_leaves_the_rest (fun s => s) scenario_directory true
           two_shard_store
           (preprocess (fun s => s) scenario_directory true two_shard_store).2
           (Ok tt)).
  vm_compute. reflexivity.
Defined.

(** ** [parse_references] *)

Lemma references_article_eq (p2r : list (list PyVal)) (a : Element) :
  references_article p2r a
  = match medline_of a with
    | Some _ => Ok (p2r ++ citation_rows a)
    | None => Raise AttributeError
    end.
Proof.
  unfold references_article, citation_rows, article_id, medline_of.
  destruct (find [child "MedlineCitation"] a) as [m |]; [| done].
  cbn [py_find mbind Res_bind option_bind]. rewrite load_int_PStr.
  cbn [mbind Res_bind]. apply scrape_references_rows.
Qed.

Lemma references_loop (arts : list Element) (p2r : list (list PyVal)) :
  Forall (fun a => is_Some (medline_of a)) arts ->
  for_each references_article arts p2r = Ok (p2r ++ flat_map citation_rows arts).
Proof.
  intros H. revert p2r. induction H as [| a arts [m Hm] _ IH]; intros p2r.
  - cbn. by rewrite app_nil_r.
  - cbn [for_each flat_map]. rewrite references_article_eq, Hm.
    cbn [mbind Res_bind]. rewrite IH. by rewrite <- app_assoc.
Qed.

Lemma references_frame_eq (xmltree : Element) :
  Forall (fun a => is_Some (medline_of a)) (all_pubmed_articles xmltree) ->
  references_frame xmltree
  = DataFrame (flat_map citation_rows (all_pubmed_articles xmltree))
      ["CitedPublicationId"; "CitingPublicationId"; "Citation"].
Proof.
  intros H. unfold references_frame. by rewrite references_loop by done.
Qed.

Lemma article_loop_medline (html_unescape : string -> string)
    (arts : list Element) (st st' : Locals) :
  for_each (scrape_article html_unescape) arts st = Ok st' ->
  Forall (fun a => is_Some (medline_of a)) arts.
Proof.
  revert st. induction arts as [| a arts IH]; intros st H; [constructor |].
  cbn [for_each] in H.
  destruct (scrape_article html_unescape st a) as [st1 |] eqn:Ha; [| done].
  cbn [mbind Res_bind] in H. constructor; [| by eapply IH].
  apply scrape_article_blocks in Ha as (m & ts & r & Hm & _). by exists m.
Qed.

(** X10.  The two extraction paths agree on the citations: for every
    shard that a returning call of [preprocess] has parsed, the citation
    frame that [parse_references] builds from the same document is the
    citation partition that [preprocess] has written for it, with the same
    column names in the same order. *)
Theorem parse_references_frame_is_preprocess_partition
    (html_unescape : string -> string)
    (xml_directory : list (string * option Element)) (rewrite_existing : bool)
    (fs fs' : FS) (k : nat) (xmltree : Element) :
  preprocess html_unescape xml_directory rewrite_existing fs = (Ok tt, fs') ->
  xmlfiles_of xml_directory !! k = Some (Some xmltree) ->
  rewrite_existing = true \/ publication_hdf fs !! k = None ->
  exists pub2ref_df,
    references_frame xmltree = Ok pub2ref_df /\
    pub2ref_hdf fs' !! k = Some pub2ref_df.
Proof.
  intros H Hk Hnew.
  destruct (preprocess_parsed _ _ _ _ _ _ _ H Hk Hnew)
    as (st0 & st1 & f & r & Hs & _ & _ & _ & Hr & Hparts).
  pose proof (scrape_shard_lists _ _ _ _ Hs) as (groups & _ & _ & _ & _ & Hrows).
  apply article_loop_medline in Hs.
  unfold partitions_at, partitions_of in Hparts. injection Hparts as _ _ _ Hp.
  exists r. split; [| done].
  rewrite references_frame_eq by done. by rewrite <- Hrows.
Qed.

Lemma parse_references_frame_is_preprocess_partition_witness :
  exists pub2ref_df,
    references_frame scenario_shard = Ok pub2ref_df /\
    pub2ref_hdf scenario_store !! 0%nat = Some pub2ref_df.
Proof.
  apply (parse_references_frame_is_preprocess_partition (fun s => s)
           scenario_directory true empty_fs scenario_store 0 scenario_shard).
  - vm_compute. reflexivity.
  - vm_compute. reflexivity.
  - left. reflexivity.
Defined.

(** The loop of [parse_references] writes citation partitions only, and
    none below its counter. *)
Lemma parse_references_shards_frame (rewrite_existing : bool)
    (xmlfiles : list (option Element)) (ifile : nat) (fs fs' : FS) (r : Res unit) :
  parse_references_shards rewrite_existing ifile xmlfiles fs = (r, fs') ->
  (forall j, (j < ifile)%nat -> pub2ref_hdf fs' !! j = pub2ref_hdf fs !! j) /\
  publication_hdf fs' = publication_hdf fs /\
  publicationauthoraffiliation_hdf fs' = publicationauthoraffiliation_hdf fs /\
  pub2field_hdf fs' = pub2field_hdf fs /\
  fieldinfo_hdf fs' = fieldinfo_hdf fs /\
  pub2year_json_gz fs' = pub2year_json_gz fs.
Proof.
  revert ifile fs. induction xmlfiles as [| x rest IH]; intros ifile fs H.
  - by injection H as _ <-.
  - cbn [parse_references_shards] in H.
    destruct x as [xmltree |]; [| by injection H as _ <-].
    destruct (negb rewrite_existing && isfile_pub2ref ifile fs).
    { apply IH in H as (Hp & ?). split; [| done]. intros j Hj. apply Hp. lia. }
    destruct (references_frame xmltree) as [f |]; [| by injection H as _ <-].
    apply IH in H as (Hp & H1 & H2 & H3 & H4 & H5). cbn in *.
    split_and!; try done.
    intros j Hj. rewrite Hp by done. cbn. apply lookup_insert_ne. lia.
Qed.

(** X11.  With the rewrite flag, the loop of [parse_references] never
    advances its file counter: when it returns, it has written every
    shard's citation frame to the one partition of the starting index, so
    that partition holds the frame of the last shard, and no other citation
    partition has been written. *)
Theorem parse_references_rewrite_keeps_last_shard
    (xmlfiles : list (option Element)) (ifile : nat) (fs fs' : FS) :
  parse_references_shards true ifile xmlfiles fs = (Ok tt, fs') ->
  (forall j, j <> ifile -> pub2ref_hdf fs' !! j = pub2ref_hdf fs !! j) /\
  (forall xmltree, last xmlfiles = Some (Some xmltree) ->
     exists pub2ref_df,
       references_frame xmltree = Ok pub2ref_df /\
       pub2ref_hdf fs' !! ifile = Some pub2ref_df).
Proof.
  revert fs. induction xmlfiles as [| x rest IH]; intros fs H.
  - injection H as <-. split; [done |]. by intros t [=].
  - cbn [parse_references_shards negb andb] in H.
    destruct x as [xmltree |]; [| done].
    destruct (references_frame xmltree) as [f |] eqn:Hf; [| done].
    pose proof H as (Hother & Hlast)%IH. cbn in Hother. split.
    + intros j Hj. rewrite Hother by done. by apply lookup_insert_ne.
    + intros t Ht. destruct rest as [| y rest'].
      * injection Ht as <-. injection H as <-. cbn.
        exists f. by rewrite lookup_insert_eq.
      * apply Hlast. exact Ht.
Qed.

Lemma parse_references_rewrite_keeps_last_shard_witness :
  (forall j, j <> 0%nat ->
     pub2ref_hdf (parse_references_shards true 0 three_shard_files empty_fs).2 !! j
     = pub2ref_hdf empty_fs !! j) /\
  (forall xmltree, last three_shard_files = Some (Some xmltree) ->
     exists pub2ref_df,
       references_frame xmltree = Ok pub2ref_df /\
       pub2ref_hdf (parse_references_shards true 0 three_shard_files empty_fs).2 !! 0%nat
       = Some pub2ref_df).
Proof.
  apply (parse_references_rewrite_keeps_last_shard three_shard_files 0 empty_fs
           (parse_references_shards true 0 three_shard_files empty_fs).2).
  vm_compute. reflexivity.
Defined.

(** Induction on a list, two elements at a time. *)
Lemma list_pair_ind {A} (P : list A -> Prop) :
  P [] -> (forall x, P [x]) -> (forall x y l, P l -> P (x :: y :: l)) ->
  forall l, P l.
Proof.
  intros H0 H1 H2 l.
  assert (H : P l /\ forall x, P (x :: l)); [| by destruct H].
  induction l as [| y l [IH1 IH2]]; [by split |].
  split; [apply IH2 |]. intros x. by apply H2.
Qed.

(** X12.  Without the rewrite flag, on a store that has no citation
    partition from the starting index on, the loop of [parse_references]
    extracts every second shard only: the frame it has just written makes
    the skip test of the next shard succeed.  When the loop returns, the
    partition at distance [k] from the starting index holds the citations
    of the shard at position [2k], the shards at odd positions have been
    left out, and no partition exists beyond half the number of shards. *)
Theorem parse_references_extracts_every_second_shard
    (xmlfiles : list (option Element)) (ifile : nat) (fs fs' : FS) :
  (forall j, (ifile <= j)%nat -> pub2ref_hdf fs !! j = None) ->
  parse_references_shards false ifile xmlfiles fs = (Ok tt, fs') ->
  (forall k xmltree,
     xmlfiles !! (2 * k)%nat = Some (Some xmltree) ->
     exists pub2ref_df,
       references_frame xmltree = Ok pub2ref_df /\
       pub2ref_hdf fs' !! (ifile + k)%nat = Some pub2ref_df) /\
  (forall j, (ifile + (length xmlfiles + 1) / 2 <= j)%nat ->
     pub2ref_hdf fs' !! j = None).
Proof.
  revert ifile fs. induction xmlfiles as [| x | x y rest IH] using list_pair_ind;
    intros ifile fs Hfresh H.
  - injection H as <-. split; [done |]. intros j Hj. apply Hfresh. lia.
  - cbn [parse_references_shards negb andb] in H.
    destruct x as [xmltree |]; [| done].
    unfold isfile_pub2ref in H. rewrite (Hfresh ifile) in H by lia.
    rewrite bool_decide_eq_false_2 in H by (by intros [? ?]).
    destruct (references_frame xmltree) as [f |] eqn:Hf; [| done].
    injection H as <-. cbn. split.
    + intros [| k] t Hk; [| done]. injection Hk as <-.
      exists f. rewrite Nat.add_0_r. by rewrite lookup_insert_eq.
    + intros j Hj. change ((1 + 1) / 2)%nat with 1%nat in Hj.
      rewrite lookup_insert_ne by lia. apply Hfresh. lia.
  - cbn [parse_references_shards negb andb] in H.
    destruct x as [xmltree |]; [| done].
    unfold isfile_pub2ref at 1 in H. rewrite (Hfresh ifile) in H by lia.
    rewrite bool_decide_eq_false_2 in H by (by intros [? ?]).
    destruct (references_frame xmltree) as [f |] eqn:Hf; [| done].
    destruct y as [xmltree' |]; [| done].
    unfold isfile_pub2ref at 1 in H. cbn [pub2ref_hdf] in H.
    rewrite lookup_insert_eq in H.
    rewrite bool_decide_eq_true_2 in H by (by eexists).
    set (fs1 := mkFS _ _ _ _ _ _) in H.
    assert (Hfresh1 : forall j, (S ifile <= j)%nat -> pub2ref_hdf fs1 !! j = None).
    { intros j Hj. subst fs1. cbn. rewrite lookup_insert_ne by lia.
      apply Hfresh. lia. }
    pose proof (parse_references_shards_frame _ _ _ _ _ _ H) as (Hbelow & _).
    destruct (IH _ _ Hfresh1 H) as (Hk & Hnone). split.
    + intros [| k] t Ht.
      * injection Ht as <-. exists f. split; [done |].
        rewrite Nat.add_0_r, Hbelow by lia. subst fs1. cbn.
        by rewrite lookup_insert_eq.
      * replace (2 * S k)%nat with (S (S (2 * k))) in Ht by lia. cbn in Ht.
        replace (ifile + S k)%nat with (S ifile + k)%nat by lia.
        apply Hk. exact Ht.
    + intros j Hj. apply Hnone. cbn [length] in Hj.
      replace (S (S (length rest)) + 1)%nat with (length rest + 1 + 1 * 2)%nat in Hj
        by lia.
      rewrite Nat.div_add in Hj by lia. lia.
Qed.

Lemma parse_references_extracts_every_second_shard_witness :
  (forall k xmltree,
     three_shard_files !! (2 * k)%nat = Some (Some xmltree) ->
     exists pub2ref_df,
       references_frame xmltree = Ok pub2ref_df /\
       pub2ref_hdf (parse_references_shards false 0 three_shard_files empty_fs).2
         !! (0 + k)%nat
       = Some pub2ref_df) /\
  (forall j, (0 + (length three_shard_files + 1) / 2 <= j)%nat ->
     pub2ref_hdf (parse_references_shards false 0 three_shard_files empty_fs).2 !! j
     = None).
Proof.
  apply (parse_references_extracts_every_second_shard three_shard_files 0 empty_fs
           (parse_references_shards false 0 three_shard_files empty_fs).2).
  - intros j _. vm_compute. reflexivity.
  - vm_compute. reflexivity.
Defined.

(** X13.  [parse_references] returns the empty table or does not
    return: its loader raises on the first file that [glob] lists
    ([FileNotFoundError] when the file is gone, [NameError] on the second
    argument of [append] otherwise), so a call returns only when [glob]
    lists no citation partition. *)
Theorem parse_references_returns_only_empty
    (xml_directory : list (string * option Element))
    (preprocess rewrite_existing : bool) (glob : FS -> list nat) (fs fs' : FS)
    (pub2ref_df : list (list PyVal)) :
  parse_references xml_directory preprocess rewrite_existing glob fs
  = (Ok pub2ref_df, fs') ->
  pub2ref_df = [] /\ glob fs' = [].
Proof.
  assert (Hload : forall f rows, load_pub2ref f (glob f) = Ok rows ->
                                 rows = [] /\ glob f = []).
  { intros f rows. unfold load_pub2ref. destruct (glob f) as [| i l].
    - by intros [= <-].
    - cbn [for_each]. unfold read_hdf. by destruct (pub2ref_hdf f !! i). }
  unfold parse_references. destruct preprocess.
  - destruct (parse_references_shards _ _ _ fs) as [[[] | e] fs1]; [| done].
    intros [= H <-]. by apply Hload.
  - intros [= H <-]. by apply Hload.
Qed.

Lemma parse_references_returns_only_empty_witness :
  ([] : list (list PyVal)) = [] /\
  (fun f : FS => (map_to_list (pub2ref_hdf f)).*1) empty_fs = [].
Proof.
  apply (parse_references_returns_only_empty scenario_directory false false
           (fun f => (map_to_list (pub2ref_hdf f)).*1) empty_fs empty_fs []).
  vm_compute. reflexivity.
Defined.

(** * [pyscisci.utils] *)

(** ** [zip2dict] *)

Section Zip2dict.
Context {K V : Type} `{EqDecision K}.

Lemma dict_fold_lookup (l : list (K * V)) (d : dict K V) (i : nat) (k : K) (v : V) :
  l !! i = Some (k, v) ->
  (forall j v', (i < j)%nat -> l !! j <> Some (k, v')) ->
  dict_get k (fold_left (fun d kv => dict_set kv.1 kv.2 d) l d) = Some v.
Proof.
  revert i. induction l as [| [k' v'] l IH] using rev_ind; intros i Hi Hlast; [done |].
  rewrite fold_left_app. cbn [fold_left fst snd].
  destruct (decide (i = length l)) as [-> | Hne].
  - rewrite lookup_app_r, Nat.sub_diag in Hi by lia. injection Hi as -> ->.
    apply dict_get_set_eq.
  - assert (Hlt : (i < length l)%nat).
    { apply lookup_lt_Some in Hi. rewrite length_app in Hi. cbn in Hi. lia. }
    rewrite lookup_app_l in Hi by done.
    assert (k' <> k).
    { intros ->. apply (Hlast (length l) v'); [done |].
      by rewrite lookup_app_r, Nat.sub_diag by lia. }
    rewrite dict_get_set_ne by done. apply (IH i); [done |].
    intros j v0 Hj Hl. apply (Hlast j v0); [done |].
    rewrite lookup_app_l; [done |]. by apply lookup_lt_Some in Hl.
Qed.

Lemma dict_fold_absent (l : list (K * V)) (d : dict K V) (k : K) :
  (forall j v', l !! j <> Some (k, v')) ->
  dict_get k (fold_left (fun d kv => dict_set kv.1 kv.2 d) l d) = dict_get k d.
Proof.
  induction l as [| [k' v'] l IH] using rev_ind; intros Hno; [done |].
  rewrite fold_left_app. cbn [fold_left fst snd].
  assert (k' <> k).
  { intros ->. apply (Hno (length l) v').
    by rewrite lookup_app_r, Nat.sub_diag by lia. }
  rewrite dict_get_set_ne by done. apply IH.
  intros j v0 Hl. apply (Hno j v0). rewrite lookup_app_l; [done |].
  by apply lookup_lt_Some in Hl.
Qed.

Lemma dict_fold_NoDup (l : list (K * V)) (d : dict K V) :
  NoDup d.*1 -> NoDup (fold_left (fun d kv => dict_set kv.1 kv.2 d) l d).*1.
Proof.
  revert d. induction l as [| kv l IH]; intros d Hd; [done |].
  cbn [fold_left]. by apply IH, dict_set_NoDup.
Qed.

Lemma zip_lookup_Some (keys : list K) (values : list V) (i : nat) (k : K) (v : V) :
  zip keys values !! i = Some (k, v) <-> keys !! i = Some k /\ values !! i = Some v.
Proof.
  rewrite lookup_zip_with_Some. split.
  - by intros (x & y & [= -> ->] & ? & ?).
  - intros [? ?]. by exists k, v.
Qed.

(** X14.  The dictionary that [zip2dict] builds has one entry per key:
    looking up a key gives the value paired with its last occurrence among
    the keys that have a partner value, and a key without such an
    occurrence is absent.  Keys beyond the number of values are dropped
    without an error. *)
Theorem zip2dict_last_pair_wins (keys : list K) (values : list V) :
  NoDup (zip2dict keys values).*1 /\
  (forall i k v,
     keys !! i = Some k -> values !! i = Some v ->
     (forall j, (i < j < length values)%nat -> keys !! j <> Some k) ->
     dict_get k (zip2dict keys values) = Some v) /\
  (forall k,
     (forall j, (j < length values)%nat -> keys !! j <> Some k) ->
     dict_get k (zip2dict keys values) = None).
Proof.
  unfold zip2dict. split_and!.
  - apply dict_fold_NoDup. constructor.
  - intros i k v Hk Hv Hlast. apply (dict_fold_lookup _ _ i).
    + by apply zip_lookup_Some.
    + intros j v' Hj [Hkj Hvj]%zip_lookup_Some. apply (Hlast j); [| done].
      apply lookup_lt_Some in Hvj. lia.
  - intros k Hno. rewrite dict_fold_absent; [done |].
    intros j v' [Hkj Hvj]%zip_lookup_Some. apply (Hno j); [| done].
    by apply lookup_lt_Some in Hvj.
Qed.

End Zip2dict.

(** ** [changepoint] *)

Lemma increasing_cons (x : nat) (l : list nat) :
  (forall y, y ∈ l -> (x < y)%nat) -> increasing l -> increasing (x :: l).
Proof.
  intros Hx Hl [| i] [| j] p q Hij Hi Hj; cbn in Hi, Hj; try lia.
  - injection Hi as <-. apply Hx. by eapply list_elem_of_lookup_2.
  - apply (Hl i j); [lia | done | done].
Qed.

Lemma increasing_snoc (x : nat) (l : list nat) :
  (forall y, y ∈ l -> (y < x)%nat) -> increasing l -> increasing (l ++ [x]).
Proof.
  intros Hx Hl i j p q Hij Hi Hj.
  pose proof (lookup_lt_Some _ _ _ Hj) as Hlen. rewrite length_app in Hlen.
  cbn in Hlen.
  assert (Hil : (i < length l)%nat) by lia.
  rewrite lookup_app_l in Hi by done.
  destruct (decide (j < length l)%nat) as [Hjl | Hjl].
  - rewrite lookup_app_l in Hj by done. by apply (Hl i j).
  - rewrite lookup_app_r in Hj by lia.
    replace (j - length l)%nat with 0%nat in Hj by lia. injection Hj as <-.
    apply Hx. by eapply list_elem_of_lookup_2.
Qed.

Lemma increasing_fmap_S (l : list nat) : increasing l -> increasing (S <$> l).
Proof.
  intros Hl i j p q Hij Hi Hj. rewrite list_lookup_fmap in Hi, Hj.
  destruct (l !! i) as [p' |] eqn:Hp; [| done].
  destruct (l !! j) as [q' |] eqn:Hq; [| done].
  injection Hi as <-. injection Hj as <-.
  apply -> Nat.succ_lt_mono. by apply (Hl i j).
Qed.

Lemma increasing_filter_seq (f : nat -> bool) (s m : nat) :
  increasing (List.filter f (seq s m)).
Proof.
  revert s. induction m as [| m IH]; intros s; [by intros i j p q _ ? |].
  cbn [seq List.filter]. destruct (f s); [| apply IH].
  apply increasing_cons; [| apply IH].
  intros y [Hy _]%list_elem_of_In%filter_In. apply in_seq in Hy. lia.
Qed.

Lemma elem_of_where_neq (a : list Z) (i : nat) :
  i ∈ where_neq a <-> (S i < length a)%nat /\ a !! i <> a !! S i.
Proof.
  unfold where_neq. rewrite list_elem_of_In, filter_In, in_seq, negb_true_iff.
  rewrite bool_decide_eq_false. split; intros [? ?]; (split; [lia | done]).
Qed.

Lemma elem_of_changepoint (a : list Z) (p : nat) :
  p ∈ changepoint a <->
  p = 0%nat \/ p = length a \/
  ((0 < p < length a)%nat /\ a !! (p - 1)%nat <> a !! p).
Proof.
  unfold changepoint. cbn [app].
  rewrite elem_of_cons, elem_of_app, list_elem_of_fmap, list_elem_of_singleton.
  split.
  - intros [-> | [(i & -> & [Hi Hne]%elem_of_where_neq) | ->]]; [by left | | by auto].
    right; right. replace (S i - 1)%nat with i by lia. split; [lia | done].
  - intros [-> | [-> | [Hp Hne]]]; [by left | by auto |].
    right; left. exists (p - 1)%nat. split; [lia |].
    apply elem_of_where_neq. replace (S (p - 1)) with p by lia. split; [lia | done].
Qed.

Lemma changepoint_increasing (a : list Z) : a <> [] -> increasing (changepoint a).
Proof.
  intros Ha. assert (0 < length a)%nat by (destruct a; [done | cbn; lia]).
  unfold changepoint. cbn [app]. apply increasing_cons.
  - intros y [(i & -> & _)%list_elem_of_fmap | ->%list_elem_of_singleton]%elem_of_app;
      lia.
  - apply increasing_snoc.
    + intros y (i & -> & [Hi _]%elem_of_where_neq)%list_elem_of_fmap. lia.
    + apply increasing_fmap_S, increasing_filter_seq.
Qed.

(** X15.  [changepoint] cuts an array into its maximal constant runs:
    the result starts with 0 and ends with the length of the array, and any
    two consecutive entries [s], [e] of it delimit a run, that is [s <= e]
    (with [s < e] unless the array is empty, where the result is [0, 0]),
    the array is constant on the positions from [s] up to [e - 1], and it
    changes value at [e] unless [e] is its end. *)
Theorem changepoint_delimits_constant_runs (a : list Z) :
  head (changepoint a) = Some 0%nat /\
  last (changepoint a) = Some (length a) /\
  forall i s e,
    changepoint a !! i = Some s -> changepoint a !! S i = Some e ->
    (s <= e)%nat /\ (a <> [] -> (s < e)%nat) /\
    (forall j, (s <= j < e)%nat -> a !! j = a !! s) /\
    ((e < length a)%nat -> a !! (e - 1)%nat <> a !! e).
Proof.
  split_and!.
  - done.
  - unfold changepoint. cbn [app]. rewrite app_comm_cons. apply last_snoc.
  - destruct a as [| x a'] eqn:Ea.
    { intros [| [| i]] s e Hs He; cbn in Hs, He; try done.
      injection Hs as <-. injection He as <-.
      split_and!; [done | done | intros j ?; lia | cbn; lia]. }
    rewrite <- Ea. assert (Hne : a <> []) by by rewrite Ea.
    clear Ea. intros i s e Hs He.
    pose proof (changepoint_increasing a Hne) as Hinc.
    assert (Hse : (s < e)%nat) by (apply (Hinc i (S i)); [lia | done | done]).
    assert (Hgap : forall p, p ∈ changepoint a -> (p <= s)%nat \/ (e <= p)%nat).
    { intros p (m & Hm)%list_elem_of_lookup_1.
      destruct (decide (m < i)%nat); [left; apply Nat.lt_le_incl; by apply (Hinc m i) |].
      destruct (decide (m = i)) as [-> |]; [left; by simplify_eq |].
      destruct (decide (m = S i)) as [-> |]; [right; by simplify_eq |].
      right. apply Nat.lt_le_incl. apply (Hinc (S i) m); [lia | done | done]. }
    assert (Hen : (e <= length a)%nat).
    { assert (He' : e ∈ changepoint a) by by eapply list_elem_of_lookup_2.
      apply elem_of_changepoint in He' as [-> | [-> | [? _]]]; lia. }
    split_and!; [lia | done | |].
    + intros j [Hsj Hje]. induction j as [| j IH]; [by replace s with 0%nat by lia |].
      destruct (decide (s = S j)) as [-> | Hne']; [done |].
      rewrite <- IH by lia.
      destruct (decide (a !! j = a !! S j)) as [Heq | Hch]; [done |].
      assert (Hin : S j ∈ changepoint a).
      { apply elem_of_changepoint. right; right.
        replace (S j - 1)%nat with j by lia. split; [lia | done]. }
      apply Hgap in Hin. lia.
    + intros Hlt.
      assert (He' : e ∈ changepoint a) by by eapply list_elem_of_lookup_2.
      apply elem_of_changepoint in He' as [-> | [-> | [_ Hch]]]; [lia | lia | done].
Qed.

(** ** [isin_sorted] *)

Lemma is_sorted_cons (x : Z) (l : list Z) :
  is_sorted (x :: l) = true -> is_sorted l = true /\ forall y, y ∈ l -> x <= y.
Proof.
  revert x. induction l as [| y l IH]; intros x H.
  - split; [done |]. by intros y ?%not_elem_of_nil.
  - cbn [is_sorted] in H. apply andb_true_iff in H as [Hxy Hl].
    apply Z.leb_le in Hxy. split; [done |].
    intros z [-> | Hz]%elem_of_cons; [done |].
    apply IH in Hl as [_ Hl]. specialize (Hl z Hz). lia.
Qed.

Lemma searchsorted_all_above (l : list Z) (v : Z) :
  (forall y, y ∈ l -> v <= y) -> searchsorted l v = 0%nat.
Proof.
  unfold searchsorted. induction l as [| x l IH]; intros H; [done |].
  cbn [List.filter]. assert (v <= x) by (apply H, list_elem_of_here).
  replace (x <? v) with false by (symmetry; apply Z.ltb_ge; lia).
  apply IH. intros y Hy. by apply H, list_elem_of_further.
Qed.

(** In a sorted array the entries below [v] are those before the position
    that [searchsorted] returns. *)
Lemma searchsorted_splits (l : list Z) (v : Z) (i : nat) (x : Z) :
  is_sorted l = true -> l !! i = Some x ->
  (i < searchsorted l v)%nat <-> x < v.
Proof.
  revert i. induction l as [| x0 l IH]; intros i Hs Hi; [done |].
  apply is_sorted_cons in Hs as [Hs Hmin].
  destruct (decide (x0 < v)) as [Hlt | Hge].
  - unfold searchsorted in *. cbn [List.filter].
    replace (x0 <? v) with true by (symmetry; by apply Z.ltb_lt). cbn [length].
    destruct i as [| i]; cbn in Hi.
    + injection Hi as <-. split; [done | lia].
    + rewrite <- (IH i Hs Hi). lia.
  - assert (Hall : forall y, y ∈ x0 :: l -> v <= y).
    { intros y [-> | Hy]%elem_of_cons; [lia |]. specialize (Hmin y Hy). lia. }
    rewrite (searchsorted_all_above _ _ Hall).
    assert (v <= x) by (apply Hall; by eapply list_elem_of_lookup_2).
    lia.
Qed.

Lemma is_sorted_lookup (l : list Z) (i j : nat) (x y : Z) :
  is_sorted l = true -> (i <= j)%nat ->
  l !! i = Some x -> l !! j = Some y -> x <= y.
Proof.
  revert i j. induction l as [| x0 l IH]; intros i j Hs Hij Hi Hj; [done |].
  apply is_sorted_cons in Hs as [Hs Hmin].
  destruct i as [| i], j as [| j]; cbn in Hi, Hj; try lia.
  - injection Hi as <-. injection Hj as <-. lia.
  - injection Hi as <-. apply Hmin. by eapply list_elem_of_lookup_2.
  - apply (IH i j); [done | lia | done | done].
Qed.

Lemma searchsorted_le_length (l : list Z) (v : Z) :
  (searchsorted l v <= length l)%nat.
Proof.
  unfold searchsorted. induction l as [| x l IH]; [done |].
  cbn [List.filter]. destruct (x <? v); cbn [length]; lia.
Qed.

Lemma clamped_lookup_is_membership (masterlist : list Z) (v : Z) :
  is_sorted masterlist = true -> (0 < length masterlist)%nat ->
  bool_decide
    (Some v = masterlist !! (if (length masterlist <=? searchsorted masterlist v)%nat
                             then (length masterlist - 1)%nat
                             else searchsorted masterlist v))
  = bool_decide (v ∈ masterlist).
Proof.
  intros Hs Hlen.
  pose proof (searchsorted_le_length masterlist v) as Hc.
  set (c := searchsorted masterlist v) in *.
  assert (Hnotin : forall i, masterlist !! i = Some v -> (c <= i)%nat).
  { intros i Hi. pose proof (searchsorted_splits _ v _ _ Hs Hi) as Hiff.
    fold c in Hiff. apply Nat.nlt_ge. intros Hlt. apply Hiff in Hlt. lia. }
  destruct (length masterlist <=? c)%nat eqn:Hclamp.
  - apply Nat.leb_le in Hclamp.
    rewrite !bool_decide_eq_false_2; [done | |].
    + intros (i & Hi)%list_elem_of_lookup_1.
      pose proof (lookup_lt_Some _ _ _ Hi). specialize (Hnotin i Hi). lia.
    + intros Heq. symmetry in Heq.
      pose proof (lookup_lt_Some _ _ _ Heq). specialize (Hnotin _ Heq). lia.
  - apply Nat.leb_gt in Hclamp.
    destruct (lookup_lt_is_Some_2 masterlist c Hclamp) as [x Hx]. rewrite Hx.
    pose proof (searchsorted_splits _ v _ _ Hs Hx) as Hiff. fold c in Hiff.
    assert (v <= x) by (destruct (decide (x < v)) as [Hlt | ?]; [apply Hiff in Hlt |]; lia).
    destruct (decide (x = v)) as [-> | Hne].
    + rewrite !bool_decide_eq_true_2; [done | by eapply list_elem_of_lookup_2 | done].
    + rewrite !bool_decide_eq_false_2; [done | | congruence].
      intros (i & Hi)%list_elem_of_lookup_1. specialize (Hnotin i Hi).
      pose proof (is_sorted_lookup _ _ _ _ _ Hs Hnotin Hx Hi). lia.
Qed.

(** X16.  On a master list in ascending order, [isin_sorted] is the
    membership test: entry by entry, the result says whether the value
    occurs in the master list.  The one exception is the empty master
    list, where a non-empty array of values ends in an [IndexError] (the
    clamped index is -1 in an array of size 0). *)
Theorem isin_sorted_is_membership (values2check masterlist : list Z) :
  is_sorted masterlist = true ->
  isin_sorted values2check masterlist
  = match masterlist, values2check with
    | [], _ :: _ => IndexError
    | _, _ => Arr ((fun v => bool_decide (v ∈ masterlist)) <$> values2check)
    end.
Proof.
  intros Hs. destruct masterlist as [| m0 ms]; [by destruct values2check |].
  unfold isin_sorted. f_equal. apply list_fmap_ext. intros _ v _.
  apply clamped_lookup_is_membership; [done | cbn; lia].
Qed.

Lemma isin_sorted_is_membership_witness :
  isin_sorted [3; 4; 9; 10] [1; 3; 5; 9]
  = Arr ((fun v => bool_decide (v ∈ [1; 3; 5; 9])) <$> [3; 4; 9; 10]).
Proof.
  apply (isin_sorted_is_membership [3; 4; 9; 10] [1; 3; 5; 9]). reflexivity.
Defined.

(** ** [rank_array] *)

Lemma scatter_other (idx values ranks : list nat) (i : nat) :
  i ∉ idx ->
  fold_left (fun ranks kv => <[kv.1 := kv.2]> ranks) (zip idx values) ranks !! i
  = ranks !! i.
Proof.
  revert values ranks. induction idx as [| i0 idx IH]; intros values ranks Hi; [done |].
  destruct values as [| v0 values]; [done |]. cbn [zip_with fold_left fst snd].
  apply not_elem_of_cons in Hi as [Hne Hi]. rewrite IH by done.
  by apply list_lookup_insert_ne.
Qed.

Lemma scatter_lookup (idx values ranks : list nat) (k i v : nat) :
  NoDup idx -> idx !! k = Some i -> values !! k = Some v ->
  (i < length ranks)%nat ->
  fold_left (fun ranks kv => <[kv.1 := kv.2]> ranks) (zip idx values) ranks !! i
  = Some v.
Proof.
  revert values ranks k. induction idx as [| i0 idx IH];
    intros values ranks k Hnd Hi Hv Hlen; [done |].
  destruct values as [| v0 values]; [done |]. cbn [zip_with fold_left fst snd].
  apply NoDup_cons in Hnd as [Hi0 Hnd].
  destruct k as [| k]; cbn in Hi, Hv.
  - injection Hi as ->. injection Hv as ->.
    rewrite scatter_other by done. by apply list_lookup_insert_eq.
  - apply (IH _ _ k); [done | done | done |]. by rewrite length_insert.
Qed.

Lemma argsort_covers (a : list Z) (idx : list nat) (i : nat) :
  is_argsort a idx -> (i < length a)%nat -> exists k, idx !! k = Some i.
Proof.
  intros (Hnd & Hlen & Hlt & _) Hi.
  assert (Hperm : idx ≡ₚ seq 0 (length a)).
  { apply submseteq_length_Permutation.
    - apply NoDup_submseteq; [done |]. intros x Hx. apply elem_of_seq.
      rewrite Forall_forall in Hlt. specialize (Hlt x Hx). lia.
    - rewrite length_seq. lia. }
  apply list_elem_of_lookup_1. rewrite Hperm. apply elem_of_seq. lia.
Qed.

Lemma rank_array_lookup (a : list Z) (idx : list nat) (k i : nat) :
  is_argsort a idx -> idx !! k = Some i ->
  rank_array idx true !! i = Some k /\
  rank_array idx false !! i = Some (length a - 1 - k)%nat.
Proof.
  intros (Hnd & Hlen & Hlt & _) Hk.
  pose proof (lookup_lt_Some _ _ _ Hk) as Hkn.
  assert (Hi : (i < length a)%nat).
  { rewrite Forall_forall in Hlt. apply Hlt. by eapply list_elem_of_lookup_2. }
  unfold rank_array, scatter. split.
  - apply (scatter_lookup _ _ _ k); [done | done | | by rewrite length_replicate, Hlen].
    by apply lookup_seq_lt.
  - apply (scatter_lookup _ _ _ k); [done | done | | by rewrite length_replicate, Hlen].
    rewrite reverse_lookup by (by rewrite length_seq).
    rewrite length_seq, lookup_seq_lt by lia. f_equal. lia.
Qed.

(** X17.  When [idx] is what [np.argsort(a)] returns, the ranks that
    [rank_array] computes invert it: the entry at position [idx[k]] has
    rank [k] in ascending mode and [n - 1 - k] in descending mode.  Hence
    every position of [a] gets a rank, the ranks are those of the order of
    the values (a smaller value has a smaller ascending rank), and the two
    modes mirror each other. *)
Theorem rank_array_inverts_argsort (a : list Z) (idx : list nat) :
  is_argsort a idx ->
  (forall k i, idx !! k = Some i ->
     rank_array idx true !! i = Some k /\
     rank_array idx false !! i = Some (length a - 1 - k)%nat) /\
  (forall i j x y, a !! i = Some x -> a !! j = Some y -> x < y ->
     exists ri rj,
       rank_array idx true !! i = Some ri /\ rank_array idx true !! j = Some rj /\
       (ri < rj)%nat).
Proof.
  intros Harg. split; [intros k i; by apply rank_array_lookup |].
  intros i j x y Hx Hy Hxy.
  destruct (argsort_covers a idx i Harg) as [k Hk]; [by eapply lookup_lt_Some |].
  destruct (argsort_covers a idx j Harg) as [l Hl]; [by eapply lookup_lt_Some |].
  exists k, l.
  destruct (rank_array_lookup a idx k i Harg Hk) as [-> _].
  destruct (rank_array_lookup a idx l j Harg Hl) as [-> _].
  split_and!; [done | done |].
  destruct Harg as (_ & _ & _ & Hsorted).
  apply Nat.nle_gt. intros Hle.
  assert (y <= x); [| lia].
  apply (is_sorted_lookup _ l k _ _ Hsorted Hle).
  - by rewrite list_lookup_fmap, Hl; cbn; rewrite Hy.
  - by rewrite list_lookup_fmap, Hk; cbn; rewrite Hx.
Qed.

Lemma rank_array_inverts_argsort_witness :
  (forall k i, [2; 0; 3; 1]%nat !! k = Some i ->
     rank_array [2; 0; 3; 1]%nat true !! i = Some k /\
     rank_array [2; 0; 3; 1]%nat false !! i
     = Some (length [20; 40; 10; 30] - 1 - k)%nat) /\
  (forall i j x y, [20; 40; 10; 30] !! i = Some x -> [20; 40; 10; 30] !! j = Some y ->
     x < y ->
     exists ri rj,
       rank_array [2; 0; 3; 1]%nat true !! i = Some ri /\
       rank_array [2; 0; 3; 1]%nat true !! j = Some rj /\
       (ri < rj)%nat).
Proof.
  apply (rank_array_inverts_argsort [20; 40; 10; 30] [2; 0; 3; 1]%nat).
  split_and!.
  - by apply (bool_decide_unpack _).
  - reflexivity.
  - repeat constructor.
  - reflexivity.
Defined.
